(** * VulnWebExtn: the LFI probing engine of the popup

    A shallow embedding of the heuristic Local File Inclusion scanner of the
    browser extension: the payload catalog ([lfiPayloads.ts]), the indicator
    detector, the heuristic classifier and the scan orchestrator
    ([handleRunLfi] in the popup component), with the properties the design
    document states about them.

    Conventions of the embedding.
    - A JavaScript string is a [string]: a sequence of code units, here the
      8-bit ones.  Every pattern and payload of the source is ASCII.
    - HTTP statuses and body lengths are [Z]; counters are [nat].
    - [Math.abs(length - baselineLength) / baselineLength > 0.3] is evaluated
      over the rationals [Q].  On lengths of strings (far below 2^52) the
      double-precision quotient is on the same side of the double nearest to
      0.3 as the exact quotient is of 3/10; [analyzeLfiHeuristics_binary64]
      is the classifier with the quotient rounded as binary64 rounds it, and
      the two are shown to agree on such lengths.
    - A rejected promise (a network failure, or the abort fired by the
      timeout of [fetchWithTimeout]) is [None].
    - The platform's [URL] class is a parameter of the orchestrator: a parser
      [new_URL] and a serialiser [URL_toString] over a record that carries
      the list behind [searchParams].

    Beside the scanner the file embeds what surrounds it in the popup (the
    wordlist effect, the parameter overview, the CSV export, the retrying
    message call) and the helpers of the endpoint scraper
    ([scrape-website.ts] and the content script): the validity check, the
    categories, the normalisation, the line numbers and the duplicate
    filter. *)

From Stdlib Require Import List String Ascii ZArith QArith Lia Bool Arith
  DecimalString.
From Stdlib Require SpecFloat.
From stdpp Require Import gmap strings list.
Import ListNotations.

Open Scope string_scope.
Open Scope list_scope.
Open Scope nat_scope.

(** ** Code units and [String.prototype.trim] *)

(** WhiteSpace and LineTerminator code units (TAB, LF, VT, FF, CR, SP, NBSP):
    what [trim] strips and what [\s] matches. *)
Definition isWhiteSpace (c : ascii) : bool :=
  let n := nat_of_ascii c in
  Nat.eqb n 9 || Nat.eqb n 10 || Nat.eqb n 11 || Nat.eqb n 12
  || Nat.eqb n 13 || Nat.eqb n 32 || Nat.eqb n 160.

(** LineTerminator code units (LF, CR): what [.] does not match. *)
Definition isLineTerminator (c : ascii) : bool :=
  let n := nat_of_ascii c in Nat.eqb n 10 || Nat.eqb n 13.

Definition isDigit (c : ascii) : bool :=
  let n := nat_of_ascii c in Nat.leb 48 n && Nat.leb n 57.

Fixpoint dropWhiteSpace (l : list ascii) : list ascii :=
  match l with
  | [] => []
  | c :: l' => if isWhiteSpace c then dropWhiteSpace l' else l
  end.

Definition trimStart (s : string) : string :=
  string_of_list_ascii (dropWhiteSpace (list_ascii_of_string s)).

Definition trimEnd (s : string) : string :=
  string_of_list_ascii
    (List.rev (dropWhiteSpace (List.rev (list_ascii_of_string s)))).

Definition trim (s : string) : string := trimEnd (trimStart s).

(** [s.length > 0], also the truthiness of a string. *)
Definition nonEmpty (s : string) : bool := Nat.ltb 0 (String.length s).

(** [Array.prototype.includes] on strings. *)
Definition includes (l : list string) (x : string) : bool :=
  existsb (String.eqb x) l.

(** [Array.from(new Set(l))]: the set is filled in iteration order and keeps
    insertion order; an element already present is not added again. *)
Definition Set_add (acc : list string) (x : string) : list string :=
  if includes acc x then acc else acc ++ [x].

Definition Array_from_Set (l : list string) : list string :=
  fold_left Set_add l [].

(** Deduplication in the words of the design document: every entry is kept
    where it is first seen, its later occurrences are dropped. *)
Fixpoint dedupFirstSeen (l : list string) : list string :=
  match l with
  | [] => []
  | x :: l' =>
      x :: List.filter (fun y => negb (String.eqb x y)) (dedupFirstSeen l')
  end.

(** ** Regular expressions

    The fragment of ECMAScript patterns the signature table uses, without
    captures: [RegExp.prototype.test] only asks whether some match exists. *)

Inductive regex : Type :=
| Empty                              (* the empty pattern *)
| Char (c : ascii)                   (* a pattern character *)
| Dot                                (* .  *)
| Digit                              (* \d *)
| Space                              (* \s *)
| Range (lo hi : ascii)              (* [lo-hi] *)
| Bol                                (* ^  *)
| Eol                                (* $  *)
| Seq (r1 r2 : regex)
| Alt (r1 r2 : regex)
| Star (r : regex).

Fixpoint LitChars (l : list ascii) : regex :=
  match l with
  | [] => Empty
  | [c] => Char c
  | c :: l' => Seq (Char c) (LitChars l')
  end.

(** A run of pattern characters. *)
Definition Lit (s : string) : regex := LitChars (list_ascii_of_string s).

(** [r+], [r{n}] and [r{n,}]. *)
Definition Plus (r : regex) : regex := Seq r (Star r).

Fixpoint Exactly (n : nat) (r : regex) : regex :=
  match n with
  | 0 => Empty
  | 1 => r
  | S k => Seq r (Exactly k r)
  end.

Definition AtLeast (n : nat) (r : regex) : regex := Seq (Exactly n r) (Star r).

Declare Scope re_scope.
Delimit Scope re_scope with re.
Bind Scope re_scope with regex.
Coercion Lit : string >-> regex.
Notation "r1 ++ r2" := (Seq r1 r2) : re_scope.
Notation "r1 <|> r2" := (Alt r1 r2) (at level 65, right associativity) : re_scope.

(** A position in the input: how many code units are behind it and which
    are ahead. *)
Record pos : Type := Pos { offset : nat; rest : list ascii }.

(** Canonicalize of the [i] flag: [toUpperCase] on one code unit.  A code
    unit outside ASCII never canonicalises to an ASCII one, and the patterns
    are ASCII, so only the letters a-z need the mapping. *)
Definition canonicalize (c : ascii) : ascii :=
  let n := nat_of_ascii c in
  if Nat.leb 97 n && Nat.leb n 122 then ascii_of_nat (n - 32) else c.

Definition charEq (ignoreCase : bool) (c x : ascii) : bool :=
  if ignoreCase then Ascii.eqb (canonicalize c) (canonicalize x)
  else Ascii.eqb c x.

(** A class range [lo-hi]: under the [i] flag a code unit is in the class
    when it canonicalises as some member does. *)
Definition inRange (ignoreCase : bool) (lo hi x : ascii) : bool :=
  existsb (fun n => charEq ignoreCase (ascii_of_nat n) x)
          (seq (nat_of_ascii lo) (S (nat_of_ascii hi) - nat_of_ascii lo)).

(** Consume one code unit that passes [ok]. *)
Definition step (ok : ascii -> bool) (p : pos) : list pos :=
  match rest p with
  | x :: s => if ok x then [Pos (S (offset p)) s] else []
  | [] => []
  end.

Definition advances (p q : pos) : bool :=
  Nat.ltb (List.length (rest q)) (List.length (rest p)).

(** Zero or more rounds of [f]; a round that consumes nothing is not
    repeated (as the RepeatMatcher does), so [fuel] above the number of code
    units ahead is never exhausted. *)
Fixpoint iterate (f : pos -> list pos) (fuel : nat) (p : pos) : list pos :=
  p :: match fuel with
       | 0 => []
       | S k => flat_map (iterate f k) (List.filter (advances p) (f p))
       end.

(** Every position at which a match of [r] that starts at [p] can end. *)
Fixpoint run (ignoreCase : bool) (r : regex) (p : pos) : list pos :=
  match r with
  | Empty => [p]
  | Char c => step (charEq ignoreCase c) p
  | Dot => step (fun x => negb (isLineTerminator x)) p
  | Digit => step isDigit p
  | Space => step isWhiteSpace p
  | Range lo hi => step (inRange ignoreCase lo hi) p
  | Bol => if Nat.eqb (offset p) 0 then [p] else []
  | Eol => match rest p with [] => [p] | _ :: _ => [] end
  | Seq r1 r2 => flat_map (run ignoreCase r2) (run ignoreCase r1 p)
  | Alt r1 r2 => run ignoreCase r1 p ++ run ignoreCase r2 p
  | Star r' => iterate (run ignoreCase r') (S (List.length (rest p))) p
  end.

(** The start positions [test] tries: every index from 0 to the length. *)
Fixpoint positions (n : nat) (s : list ascii) : list pos :=
  Pos n s :: match s with
             | [] => []
             | _ :: s' => positions (S n) s'
             end.

(** A [RegExp] object.  None of the signatures has the [g] or [y] flag, so
    [test] keeps no [lastIndex] between calls. *)
Record RegExp : Type := mkRegExp { source : regex; ignoreCase : bool }.

Definition RegExp_test (re : RegExp) (body : string) : bool :=
  existsb (fun p => match run (ignoreCase re) (source re) p with
                    | [] => false
                    | _ :: _ => true
                    end)
          (positions 0 (list_ascii_of_string body)).

(** What a match is, as a relation: [matches ic r p q] when [r] matches the
    code units between [p] and [q]. *)
Inductive matches (ic : bool) : regex -> pos -> pos -> Prop :=
| M_Empty p : matches ic Empty p p
| M_Char c x n s :
    charEq ic c x = true -> matches ic (Char c) (Pos n (x :: s)) (Pos (S n) s)
| M_Dot x n s :
    isLineTerminator x = false -> matches ic Dot (Pos n (x :: s)) (Pos (S n) s)
| M_Digit x n s :
    isDigit x = true -> matches ic Digit (Pos n (x :: s)) (Pos (S n) s)
| M_Space x n s :
    isWhiteSpace x = true -> matches ic Space (Pos n (x :: s)) (Pos (S n) s)
| M_Range lo hi x n s :
    inRange ic lo hi x = true ->
    matches ic (Range lo hi) (Pos n (x :: s)) (Pos (S n) s)
| M_Bol s : matches ic Bol (Pos 0 s) (Pos 0 s)
| M_Eol n : matches ic Eol (Pos n []) (Pos n [])
| M_Seq r1 r2 p q u :
    matches ic r1 p q -> matches ic r2 q u -> matches ic (Seq r1 r2) p u
| M_Alt_l r1 r2 p q : matches ic r1 p q -> matches ic (Alt r1 r2) p q
| M_Alt_r r1 r2 p q : matches ic r2 p q -> matches ic (Alt r1 r2) p q
| M_Star_done r p : matches ic (Star r) p p
| M_Star_more r p q u :
    matches ic r p q -> matches ic (Star r) q u -> matches ic (Star r) p u.

(** The pattern matches somewhere in [body]: between two cuts of it. *)
Definition matchesIn (re : RegExp) (body : string) : Prop :=
  exists (before after : list ascii) (q : pos),
    list_ascii_of_string body = before ++ after /\
    matches (ignoreCase re) (source re)
            (Pos (List.length before) after) q.

(** ** Indicator detector ([detectLfiIndicators]) *)

Record Indicator : Type := mkIndicator { label : string; regex_of : RegExp }.

Definition sig (l : string) (r : regex) : Indicator :=
  mkIndicator l (mkRegExp r true).

(** The signature table (the local [indicators] of the source). *)
Definition indicatorTable : list Indicator :=
  [ sig "etc/passwd"
      ("root:x:0:0:" <|> ":/bin/" ++ ("bash" <|> "sh" <|> "csh" <|> "zsh") <|> "daemon:x:")%re
  ; sig "etc/shadow"
      ("root:" ++ Star Dot ++ ":1" ++ AtLeast 4 (Range "0" "9") ++ ":")%re
  ; sig "Unix hosts file"
      ("127.0.0.1" ++ Plus Space ++ "localhost" <|> "::1" ++ Plus Space ++ "localhost")%re
  ; sig "proc/environ"
      ("PATH=" <|> "HOME=" <|> "SHELL=" <|> "USER=" <|> "PWD=")%re
  ; sig "proc/version"
      ("Linux version " ++ Plus Digit ++ "." ++ Plus Digit ++ "." ++ Plus Digit)%re
  ; sig "Windows win.ini"
      ("[fonts]" <|> "[extensions]" <|> "[mci extensions]" <|> "[drivers]"
       <|> "for 16-bit app support")%re
  ; sig "Windows boot.ini"
      ("[boot loader]" <|> "[operating systems]" <|> "multi(0)disk")%re
  ; sig "Windows hosts"
      ("127.0.0.1" ++ Plus Space ++ "localhost" ++ Star Dot ++ "::1")%re
  ; sig "PHP source"
      ("<?php" <|> "<?=" <|> "phpinfo()" <|> "echo" ++ Plus Space ++ "$_")%re
  ; sig "Apache config"
      ("<Directory" <|> "LoadModule" <|> "ServerRoot")%re
  ; sig "SSH config"
      ("Host *" <|> "IdentityFile" <|> "UserKnownHostsFile")%re
  ; sig "MySQL config"
      ("[mysqld]" <|> "[client]" <|> "datadir=")%re
  ; sig "Bash history"
      (Bol ++ "#" ++ Exactly 10 Digit ++ Eol <|> Bol ++ "ls" ++ Space
       <|> Bol ++ "cd" ++ Space <|> Bol ++ "cat" ++ Space)%re
  ; sig "Error disclosure"
      ("Warning:" ++ Star Dot ++ "include" <|> "Failed opening" ++ Star Dot ++ "for inclusion"
       <|> "No such file or directory")%re ].

(** The loop of the source: every signature is tested, a hit is pushed. *)
Definition detectLfiIndicators (body : string) : list string :=
  fold_left
    (fun hits i => if RegExp_test (regex_of i) body then hits ++ [label i] else hits)
    indicatorTable [].

(** ** Heuristic classifier ([analyzeLfiHeuristics]) *)

Inductive Detection : Type :=
| CONFIRMED_LFI | POSSIBLE_LFI | SUSPICIOUS | NOT_VULNERABLE.

Inductive Confidence : Type := Low | Medium | High.

Definition Detection_eqb (a b : Detection) : bool :=
  match a, b with
  | CONFIRMED_LFI, CONFIRMED_LFI | POSSIBLE_LFI, POSSIBLE_LFI
  | SUSPICIOUS, SUSPICIOUS | NOT_VULNERABLE, NOT_VULNERABLE => true
  | _, _ => false
  end.

(** [Math.abs(length - baselineLength) / baselineLength] *)
Definition diffRatio (length baselineLength : Z) : Q :=
  (inject_Z (Z.abs (length - baselineLength)) / inject_Z baselineLength)%Q.

Definition analyzeLfiHeuristics
    (indicators : list string) (baselineStatus baselineLength : option Z)
    (status length : Z) : Detection * Confidence :=
  (* 1) Known file indicators present *)
  if Nat.ltb 0 (List.length indicators) then (CONFIRMED_LFI, High) else
  (* 2) Response length changes significantly (>30%) *)
  if match baselineLength with
     | Some bl => Z.ltb 0 bl && negb (Qle_bool (diffRatio length bl) (3 # 10))
     | None => false
     end
  then (POSSIBLE_LFI, Medium) else
  (* 3) Status code changes from baseline *)
  if match baselineStatus with
     | Some bs => negb (Z.eqb bs status)
     | None => false
     end
  then (SUSPICIOUS, Low) else
  (* 4) Else *)
  (NOT_VULNERABLE, Low).

(** ** Payload catalog ([lfiPayloads.ts]) *)

Module lfiPayloads.

Inductive LfiPayloadCategoryId : Type :=
| basic_traversal | deep_traversal | null_byte
| encoding_bypass | os_linux | os_windows.

Definition LfiPayloadCategoryId_eqb (a b : LfiPayloadCategoryId) : bool :=
  match a, b with
  | basic_traversal, basic_traversal | deep_traversal, deep_traversal
  | null_byte, null_byte | encoding_bypass, encoding_bypass
  | os_linux, os_linux | os_windows, os_windows => true
  | _, _ => false
  end.

Record LfiPayloadCategory : Type := mkCategory {
  id : LfiPayloadCategoryId;
  label : string;
  description : string;
  payloads : list string
}.

Definition LFI_PAYLOAD_CATEGORIES : list LfiPayloadCategory :=
  [ mkCategory basic_traversal "Basic Traversal"
      "Simple directory traversal to common sensitive files"
      [ "../etc/passwd"; "../../etc/passwd"; "../etc/hosts"; "../../etc/hosts";
        "../proc/self/environ"; "../../proc/self/environ" ]
  ; mkCategory deep_traversal "Deep Traversal"
      "Deeper traversal chains for robust path resolution"
      [ "../../../../etc/passwd"; "../../../../../etc/passwd";
        "../../../../etc/hosts"; "../../../../../etc/hosts";
        "../../../../proc/self/environ"; "../../../../../proc/self/environ";
        "../../../../windows/win.ini"; "../../../../../windows/win.ini" ]
  ; mkCategory null_byte "Null Byte Variations"
      "Null byte suffixes to bypass extensions or filters"
      [ "../../etc/passwd%00"; "../../etc/passwd%2500";
        "../../../../etc/passwd%00"; "../../../../etc/passwd%2500" ]
  ; mkCategory encoding_bypass "Encoding Bypass"
      "URL-encoded and double-encoded traversal sequences"
      [ "..%2f..%2fetc%2fpasswd"; "..%2F..%2Fetc%2Fpasswd";
        "%2e%2e/%2e%2e/etc/passwd"; "..%252f..%252fetc%252fpasswd";
        "..%c0%af..%c0%afetc%c0%afpasswd" ]
  ; mkCategory os_linux "OS-Specific (Linux)"
      "Linux-specific sensitive files"
      [ "/etc/passwd"; "/etc/shadow"; "/etc/hosts"; "/proc/self/environ";
        "/proc/version" ]
  ; mkCategory os_windows "OS-Specific (Windows)"
      "Windows-specific configuration and hosts files"
      [ "C:/Windows/win.ini"; "C:/windows/win.ini";
        "C:/Windows/System32/drivers/etc/hosts";
        "C:/windows/system32/drivers/etc/hosts"; "C:/boot.ini" ] ].

(** The categories the call selects: those named in [categoryIds] when it is
    given and not empty, all of them otherwise. *)
Definition categoriesToUse (categoryIds : option (list LfiPayloadCategoryId))
  : list LfiPayloadCategory :=
  match categoryIds with
  | Some ids =>
      if Nat.ltb 0 (List.length ids)
      then List.filter (fun c => existsb (LfiPayloadCategoryId_eqb (id c)) ids)
                       LFI_PAYLOAD_CATEGORIES
      else LFI_PAYLOAD_CATEGORIES
  | None => LFI_PAYLOAD_CATEGORIES
  end.

Definition buildLfiPayloadList (categoryIds : option (list LfiPayloadCategoryId))
  : list string :=
  let all := flat_map payloads (categoriesToUse categoryIds) in
  Array_from_Set all.

(** The words of the design document: whether a category is selected. *)
Definition selected (categoryIds : option (list LfiPayloadCategoryId))
    (c : LfiPayloadCategory) : Prop :=
  match categoryIds with
  | Some (i :: ids) => In (id c) (i :: ids)
  | _ => True
  end.

End lfiPayloads.

(** ** The platform: URLs and the network *)

(** A parsed URL: what precedes the query, the list behind [searchParams]
    (name-value pairs in order) and the fragment. *)
Record URL : Type := mkURL {
  beforeQuery : string;
  searchParams : list (string * string);
  hash : string
}.

Definition hasName (name : string) (kv : string * string) : bool :=
  String.eqb (fst kv) name.

(** [searchParams.keys()] *)
Definition URLSearchParams_keys (u : URL) : list string :=
  List.map fst (searchParams u).

(** [searchParams.get(name)]: the first value under [name], or null. *)
Definition URLSearchParams_get (u : URL) (name : string) : option string :=
  match List.filter (hasName name) (searchParams u) with
  | kv :: _ => Some (snd kv)
  | [] => None
  end.

(** [searchParams.append(name, value)] *)
Definition URLSearchParams_append (u : URL) (name value : string) : URL :=
  mkURL (beforeQuery u) (searchParams u ++ [(name, value)]) (hash u).

Fixpoint setFirst (name value : string) (l : list (string * string))
  : list (string * string) :=
  match l with
  | [] => []
  | kv :: l' =>
      if hasName name kv
      then (fst kv, value) :: List.filter (fun kv' => negb (hasName name kv')) l'
      else kv :: setFirst name value l'
  end.

(** [searchParams.set(name, value)]: the first pair under [name] takes the
    value and the other pairs under [name] go; without one, append. *)
Definition URLSearchParams_set (u : URL) (name value : string) : URL :=
  if existsb (hasName name) (searchParams u)
  then mkURL (beforeQuery u) (setFirst name value (searchParams u)) (hash u)
  else URLSearchParams_append u name value.

(** A [Response]: the status and the body, [None] when reading it fails. *)
Record Response : Type := mkResponse {
  res_status : Z;
  res_text : option string
}.

(** [res.ok]: the status is in the range 200-299. *)
Definition Response_ok (res : Response) : bool :=
  Z.leb 200 (res_status res) && Z.leb (res_status res) 299.

Definition safeReadText (res : Response) : string :=
  match res_text res with
  | Some t => t
  | None => ""
  end.

(** Every request issued so far, with what came back. *)
Definition Transcript : Type := list (string * option Response).

(** Computations that issue requests. *)
Definition Net (A : Type) : Type := Transcript -> A * Transcript.

Definition ret {A : Type} (a : A) : Net A := fun tr => (a, tr).

Definition bind {A B : Type} (c : Net A) (k : A -> Net B) : Net B :=
  fun tr => let (a, tr') := c tr in k a tr'.

Notation "x <- c ;; k" := (bind c (fun x => k))
  (at level 100, c at next level, right associativity).

(** [Array.prototype.slice(0, end)] for an integral [end]. *)
Definition slice0 {A : Type} (l : list A) (end_ : Z) : list A :=
  let len := Z.of_nat (List.length l) in
  let final := if Z.ltb end_ 0 then Z.max (len + end_) 0 else Z.min end_ len in
  firstn (Z.to_nat final) l.

(** ** Scan results *)

Record LfiSingleResult : Type := mkResult {
  parameter : string;
  originalValue : option string;
  testedUrl : string;
  payload : string;
  status : Z;
  contentLength : Z;
  indicators : list string;
  vulnerable : bool;
  detection : Detection;
  confidence : Confidence;
  sample : string
}.

Record ParameterSummary : Type := mkParameterSummary {
  name : string;
  p_originalValue : option string;
  p_totalTests : nat;
  p_vulnerableCount : nat
}.

Record LfiScanSummary : Type := mkSummary {
  baseUrl : string;
  parametersTested : list ParameterSummary;
  totalTests : nat;
  vulnerableCount : nat;
  results : list LfiSingleResult
}.

(** The state of the popup the scan reads and sets. *)
Record PopupState : Type := mkPopup {
  url : string;
  error : string;
  lfiUrl : string;
  lfiParam : string;
  lfiLoading : bool;
  lfiResults : option LfiScanSummary;
  wordlist : list string;
  payloadCap : Z;
  currentProgress : nat * nat
}.

Definition setError (e : string) (s : PopupState) : PopupState :=
  mkPopup (url s) e (lfiUrl s) (lfiParam s) (lfiLoading s) (lfiResults s)
          (wordlist s) (payloadCap s) (currentProgress s).

Definition setLfiLoading (b : bool) (s : PopupState) : PopupState :=
  mkPopup (url s) (error s) (lfiUrl s) (lfiParam s) b (lfiResults s)
          (wordlist s) (payloadCap s) (currentProgress s).

Definition setLfiResults (r : option LfiScanSummary) (s : PopupState) : PopupState :=
  mkPopup (url s) (error s) (lfiUrl s) (lfiParam s) (lfiLoading s) r
          (wordlist s) (payloadCap s) (currentProgress s).

Definition setCurrentProgress (p : nat * nat) (s : PopupState) : PopupState :=
  mkPopup (url s) (error s) (lfiUrl s) (lfiParam s) (lfiLoading s) (lfiResults s)
          (wordlist s) (payloadCap s) p.

(** The variables of the two loops of the scan. *)
Record SweepState : Type := mkSweep {
  sw_results : list LfiSingleResult;
  sw_perParameterSummary : list ParameterSummary;
  sw_paramVulnerableCount : nat;
  sw_currentIndex : nat;
  sw_popup : PopupState
}.

Definition msgNoUrl : string :=
  "Enter a URL for LFI scan or run endpoint scan first".
Definition msgInvalidUrl : string :=
  "Please enter a valid URL (e.g., https://example.com)".
Definition msgNoWordlist : string :=
  "Wordlist not loaded yet. Please wait...".
Definition msgNoParameters : string :=
  "No query parameters found to test for LFI. Add parameters to the URL or specify a parameter name.".

(** ** Scan orchestrator ([buildLfiTestUrls], [handleRunLfi]) *)

Section Scan.

(** [new URL(s)], [None] when it throws, and [u.toString()]. *)
Variable new_URL : string -> option URL.
Variable URL_toString : URL -> string.

(** What the network answers to the [n]-th request, for a URL. *)
Variable network : nat -> string -> option Response.

Definition fetchWithTimeout (input : string) (ms : Z) : Net (option Response) :=
  fun tr =>
    let res := network (List.length tr) input in
    (res, tr ++ [(input, res)]).

(** One test URL of [buildLfiTestUrls], from the parsed base. *)
Definition testUrlFor (u : URL) (hasParam : bool) (param p : string)
  : option (string * string) :=
  match new_URL (URL_toString u) with
  | Some test =>
      let test' := if hasParam then URLSearchParams_set test param p
                   else URLSearchParams_append test param p in
      Some (URL_toString test', p)
  | None => None
  end.

Fixpoint mapThrowing {A B : Type} (f : A -> option B) (l : list A)
  : option (list B) :=
  match l with
  | [] => Some []
  | a :: l' =>
      match f a with
      | Some b =>
          match mapThrowing f l' with
          | Some bs => Some (b :: bs)
          | None => None
          end
      | None => None
      end
  end.

(** [None] when a [new URL] of the source throws. *)
Definition buildLfiTestUrls (baseUrl param : string) (payloads : list string)
  : option (list (string * string)) :=
  match new_URL baseUrl with
  | Some u =>
      let hasParam := includes (URLSearchParams_keys u) param in
      mapThrowing (testUrlFor u hasParam param) payloads
  | None => None
  end.

(** [lfiUrl.trim() || url.trim()] *)
Definition targetUrlOf (s : PopupState) : string :=
  if nonEmpty (trim (lfiUrl s)) then trim (lfiUrl s) else trim (url s).

Definition uniqueDiscoveredParams (parsedUrl : URL) : list string :=
  let discoveredParams :=
    List.filter nonEmpty (List.map trim (URLSearchParams_keys parsedUrl)) in
  Array_from_Set discoveredParams.

Definition paramsToTestOf (s : PopupState) (parsedUrl : URL) : list string :=
  if nonEmpty (trim (lfiParam s))
  then [trim (lfiParam s)]
  else uniqueDiscoveredParams parsedUrl.

Definition payloadListOf (s : PopupState) : list string :=
  slice0 (wordlist s) (payloadCap s).

Definition originalValuesOf (parsedUrl : URL) (paramsToTest : list string)
  : gmap string (option string) :=
  fold_left (fun m name => <[name := URLSearchParams_get parsedUrl name]> m)
            paramsToTest ∅.

(** [originalValues.get(paramName) ?? null] *)
Definition originalValueOf (originalValues : gmap string (option string))
    (paramName : string) : option string :=
  match originalValues !! paramName with
  | Some v => v
  | None => None
  end.

(** The baseline request: status and body length, both null when the fetch
    fails. *)
Definition fetchBaseline (targetUrl : string) : Net (option Z * option Z) :=
  baselineRes <- fetchWithTimeout targetUrl 8000 ;;
  match baselineRes with
  | Some baselineRes =>
      let baselineBody :=
        if Response_ok baselineRes then safeReadText baselineRes else "" in
      ret (Some (res_status baselineRes),
           Some (Z.of_nat (String.length baselineBody)))
  | None => ret (None, None)
  end.

(** What the body of the inner [try] records for a response. *)
Definition analyzeResponse (baseline : option Z * option Z)
    (originalValues : gmap string (option string))
    (paramName testUrl payload_ : string) (res : Response) : LfiSingleResult :=
  let bodyText := if Response_ok res then safeReadText res else "" in
  let indicators_ := detectLfiIndicators bodyText in
  let '(detection_, confidence_) :=
    analyzeLfiHeuristics indicators_ (fst baseline) (snd baseline)
                         (res_status res) (Z.of_nat (String.length bodyText)) in
  let vulnerable_ := negb (Detection_eqb detection_ NOT_VULNERABLE) in
  mkResult paramName (originalValueOf originalValues paramName) testUrl payload_
           (res_status res) (Z.of_nat (String.length bodyText)) indicators_
           vulnerable_ detection_ confidence_ (String.substring 0 300 bodyText).

(** The inner loop: one probe per test URL; a failed fetch is skipped. *)
Fixpoint sweep (baseline : option Z * option Z)
    (originalValues : gmap string (option string)) (paramName : string)
    (total : nat) (testUrls : list (string * string)) (st : SweepState)
  : Net SweepState :=
  match testUrls with
  | [] => ret st
  | (testUrl, payload_) :: more =>
      let currentIndex := sw_currentIndex st + 1 in
      let popup := setCurrentProgress (currentIndex, total) (sw_popup st) in
      res <- fetchWithTimeout testUrl 8000 ;;
      let st' :=
        match res with
        | Some res =>
            let r := analyzeResponse baseline originalValues paramName
                                     testUrl payload_ res in
            mkSweep (sw_results st ++ [r]) (sw_perParameterSummary st)
                    (if vulnerable r then sw_paramVulnerableCount st + 1
                     else sw_paramVulnerableCount st)
                    currentIndex popup
        | None =>
            mkSweep (sw_results st) (sw_perParameterSummary st)
                    (sw_paramVulnerableCount st) currentIndex popup
        end in
      sweep baseline originalValues paramName total more st'
  end.

(** The outer loop; [None] when [buildLfiTestUrls] throws. *)
Fixpoint scanParameters (targetUrl : string) (baseline : option Z * option Z)
    (originalValues : gmap string (option string)) (payloadList : list string)
    (total : nat) (paramsToTest : list string) (st : SweepState)
  : Net (option SweepState) :=
  match paramsToTest with
  | [] => ret (Some st)
  | paramName :: more =>
      match buildLfiTestUrls targetUrl paramName payloadList with
      | Some testUrls =>
          let st0 := mkSweep (sw_results st) (sw_perParameterSummary st) 0
                             (sw_currentIndex st) (sw_popup st) in
          st1 <- sweep baseline originalValues paramName total testUrls st0 ;;
          let summary :=
            mkParameterSummary paramName
              (originalValueOf originalValues paramName)
              (List.length testUrls) (sw_paramVulnerableCount st1) in
          scanParameters targetUrl baseline originalValues payloadList total more
            (mkSweep (sw_results st1) (sw_perParameterSummary st1 ++ [summary])
                     (sw_paramVulnerableCount st1) (sw_currentIndex st1)
                     (sw_popup st1))
      | None => ret None
      end
  end.

Definition handleRunLfi (s : PopupState) : Net PopupState :=
  let targetUrl := targetUrlOf s in
  if negb (nonEmpty targetUrl) then ret (setError msgNoUrl s) else
  match new_URL targetUrl with
  | None => ret (setError msgInvalidUrl s)
  | Some parsedUrl =>
      if Nat.eqb (List.length (wordlist s)) 0
      then ret (setError msgNoWordlist s) else
      let s := setLfiResults None (setLfiLoading true (setError "" s)) in
      let paramsToTest := paramsToTestOf s parsedUrl in
      if Nat.eqb (List.length paramsToTest) 0
      then ret (setCurrentProgress (0, 0)
                  (setLfiLoading false (setError msgNoParameters s))) else
      let originalValues := originalValuesOf parsedUrl paramsToTest in
      let payloadList := payloadListOf s in
      let total := List.length paramsToTest * List.length payloadList in
      baseline <- fetchBaseline targetUrl ;;
      scanned <- scanParameters targetUrl baseline originalValues payloadList
                                total paramsToTest (mkSweep [] [] 0 0 s) ;;
      match scanned with
      | Some st =>
          let summary :=
            mkSummary targetUrl (sw_perParameterSummary st) total
                      (List.length (List.filter vulnerable (sw_results st)))
                      (sw_results st) in
          ret (setLfiLoading false
                 (setCurrentProgress (0, 0)
                    (setLfiResults (Some summary) (sw_popup st))))
      | None =>
          ret (setLfiLoading false
                 (setCurrentProgress (0, 0)
                    (setError "LFI scan failed: Invalid URL" s)))
      end
  end.

End Scan.

(** ** A concrete URL parser and serialiser

    The part of the URL standard the scan exercises: the query is parsed and
    serialised as [application/x-www-form-urlencoded]; scheme, host and path
    are kept as written.  The examples below run the orchestrator on it. *)

Module SimpleURL.

Definition between (lo hi : nat) (c : ascii) : bool :=
  Nat.leb lo (nat_of_ascii c) && Nat.leb (nat_of_ascii c) hi.

Definition isAlpha (c : ascii) : bool := between 65 90 c || between 97 122 c.

Definition hexValue (c : ascii) : option nat :=
  let n := nat_of_ascii c in
  if between 48 57 c then Some (n - 48)
  else if between 65 70 c then Some (n - 55)
  else if between 97 102 c then Some (n - 87)
  else None.

Definition hexDigit (n : nat) : ascii :=
  ascii_of_nat (if Nat.ltb n 10 then 48 + n else 55 + n).

Fixpoint percentDecode (l : list ascii) : list ascii :=
  match l with
  | [] => []
  | c :: t =>
      if Ascii.eqb c "%" then
        match t with
        | h1 :: h2 :: t2 =>
            match hexValue h1, hexValue h2 with
            | Some a, Some b => ascii_of_nat (16 * a + b) :: percentDecode t2
            | _, _ => c :: percentDecode t
            end
        | _ => c :: percentDecode t
        end
      else c :: percentDecode t
  end.

Definition plusToSpace (l : list ascii) : list ascii :=
  List.map (fun c => if Ascii.eqb c "+" then " "%char else c) l.

Definition decodeComponent (l : list ascii) : string :=
  string_of_list_ascii (percentDecode (plusToSpace l)).

Fixpoint splitOn (sep : ascii) (l : list ascii) : list (list ascii) :=
  match l with
  | [] => [[]]
  | c :: t =>
      if Ascii.eqb c sep then [] :: splitOn sep t
      else match splitOn sep t with
           | h :: r => (c :: h) :: r
           | [] => [[c]]
           end
  end.

(** Cut at the first [sep]: what precedes it and, when there is one, what
    follows it. *)
Fixpoint breakAt (sep : ascii) (l : list ascii)
  : list ascii * option (list ascii) :=
  match l with
  | [] => ([], None)
  | c :: t =>
      if Ascii.eqb c sep then ([], Some t)
      else let (b, a) := breakAt sep t in (c :: b, a)
  end.

Definition orEmpty (o : option (list ascii)) : list ascii :=
  match o with Some l => l | None => [] end.

Definition parseQuery (q : list ascii) : list (string * string) :=
  List.map
    (fun piece => let (n, v) := breakAt "=" piece in
                  (decodeComponent n, decodeComponent (orEmpty v)))
    (List.filter (fun piece => Nat.ltb 0 (List.length piece)) (splitOn "&" q)).

Fixpoint schemeRest (l : list ascii) : bool :=
  match l with
  | [] => false
  | c :: t =>
      if Ascii.eqb c ":" then true
      else if isAlpha c || between 48 57 c || Ascii.eqb c "+"
              || Ascii.eqb c "-" || Ascii.eqb c "."
           then schemeRest t else false
  end.

Definition hasScheme (l : list ascii) : bool :=
  match l with
  | c :: t => isAlpha c && schemeRest t
  | [] => false
  end.

Definition parse (s : string) : option URL :=
  let l := list_ascii_of_string s in
  if hasScheme l then
    let (noFragment, fragment) := breakAt "#" l in
    let (front, query) := breakAt "?" noFragment in
    Some (mkURL (string_of_list_ascii front) (parseQuery (orEmpty query))
                (string_of_list_ascii (orEmpty fragment)))
  else None.

Definition encodeByte (c : ascii) : list ascii :=
  if isAlpha c || between 48 57 c || Ascii.eqb c "*" || Ascii.eqb c "-"
     || Ascii.eqb c "." || Ascii.eqb c "_"
  then [c]
  else if Ascii.eqb c " " then ["+"%char]
  else ["%"%char; hexDigit (nat_of_ascii c / 16);
        hexDigit (nat_of_ascii c mod 16)].

Definition encodeComponent (s : string) : string :=
  string_of_list_ascii (flat_map encodeByte (list_ascii_of_string s)).

Fixpoint serializeQuery (l : list (string * string)) : string :=
  match l with
  | [] => ""
  | [(n, v)] => encodeComponent n +:+ "=" +:+ encodeComponent v
  | (n, v) :: l' =>
      encodeComponent n +:+ "=" +:+ encodeComponent v +:+ "&" +:+ serializeQuery l'
  end.

Definition toString (u : URL) : string :=
  beforeQuery u
  +:+ match searchParams u with
      | [] => ""
      | _ :: _ => "?" +:+ serializeQuery (searchParams u)
      end
  +:+ (if nonEmpty (hash u) then "#" +:+ hash u else "").

End SimpleURL.

(** ** Sample scans *)

Definition samplePopup (target param : string) (words : list string) : PopupState :=
  mkPopup "" "" target param false None words 500 (0, 0).

(** A server that includes the file its [file] parameter names: the password
    file for a payload that reaches it, a 404 for the shadow file, no answer
    for a Windows path, the home page otherwise. *)
Definition sampleNetwork (n : nat) (u : string) : option Response :=
  if RegExp_test (mkRegExp (Lit "win.ini") true) u then None
  else if RegExp_test (mkRegExp (Lit "shadow") true) u
  then Some (mkResponse 404 (Some "Not Found"))
  else if RegExp_test (mkRegExp (Lit "passwd") true) u
  then Some (mkResponse 200 (Some "root:x:0:0:root:/root:/bin/bash"))
  else Some (mkResponse 200 (Some "<html><body>Welcome to the home page of the site</body></html>")).

(** ** The properties, in the words of the design document *)

(** Rule 2 of the classifier applies: the baseline length is known and
    positive and the length differs from it by more than 30%. *)
Definition lengthRuleApplies (baselineLength : option Z) (length : Z) : Prop :=
  exists bl, baselineLength = Some bl /\ (0 < bl)%Z /\
             (3 # 10 < inject_Z (Z.abs (length - bl)) / inject_Z bl)%Q.

(** Rule 3 applies: the baseline status is known and the status differs. *)
Definition statusRuleApplies (baselineStatus : option Z) (status : Z) : Prop :=
  exists bs, baselineStatus = Some bs /\ status <> bs.

(** A planned probe: the parameter, then the test URL and the payload. *)
Definition Probe : Type := (string * (string * string))%type.

Definition probeUrl (t : Probe) : string := fst (snd t).

(** The planned test matrix, parameter-major and payload-minor: for every
    parameter in order and every payload in order, the probe whose URL is the
    target URL with the parameter set to the payload when the target has it,
    appended otherwise. *)
Definition testMatrix (URL_toString : URL -> string) (target : URL)
    (parameters payloadList : list string) : list Probe :=
  flat_map
    (fun param =>
       List.map
         (fun p =>
            (param,
             (URL_toString
                (if includes (URLSearchParams_keys target) param
                 then URLSearchParams_set target param p
                 else URLSearchParams_append target param p),
              p)))
         payloadList)
    parameters.

(** The parameter set as the design document words it: the explicit name
    when one is supplied and not empty, otherwise the query-string keys,
    blank names dropped, deduplicated. *)
Definition claimedParameters (explicit : string) (target : URL) : list string :=
  if nonEmpty explicit then [explicit]
  else dedupFirstSeen
         (List.filter (fun k => nonEmpty (trim k)) (URLSearchParams_keys target)).

(** Probes issued in order, the first as the [start]-th request, each with
    what the network answers. *)
Fixpoint probeAnswers (network : nat -> string -> option Response)
    (start : nat) (plan : list Probe) : list (Probe * option Response) :=
  match plan with
  | [] => []
  | t :: more =>
      (t, network start (probeUrl t)) :: probeAnswers network (S start) more
  end.

(** The entries probes leave in the transcript. *)
Definition transcriptOf (probes : list (Probe * option Response)) : Transcript :=
  List.map (fun pa => (probeUrl (fst pa), snd pa)) probes.

Definition answered (a : option Response) : bool :=
  match a with Some _ => true | None => false end.

(** A completed scan: no error is shown and a summary is. *)
Definition completed (s : PopupState) (summary : LfiScanSummary) : Prop :=
  error s = "" /\ lfiResults s = Some summary.

(** The baseline an answer to the baseline request yields. *)
Definition baselineOf (answer : option Response) : option Z * option Z :=
  match answer with
  | Some baselineRes =>
      (Some (res_status baselineRes),
       Some (Z.of_nat (String.length
               (if Response_ok baselineRes then safeReadText baselineRes else ""))))
  | None => (None, None)
  end.

(** The probe a result reports. *)
Definition probeOf (r : LfiSingleResult) : Probe :=
  (parameter r, (testedUrl r, payload r)).

(** The results probes record, given the answers: one per answer received. *)
Definition recorded (baseline : option Z * option Z)
    (originalValues : gmap string (option string))
    (probes : list (Probe * option Response)) : list LfiSingleResult :=
  flat_map
    (fun pa : Probe * option Response =>
       match snd pa with
       | Some res =>
           [analyzeResponse baseline originalValues (fst (fst pa))
                            (probeUrl (fst pa)) (snd (snd (fst pa))) res]
       | None => []
       end)
    probes.

(** All the probes of a scan in execution order, as [buildLfiTestUrls] gives
    them parameter by parameter. *)
Fixpoint plannedTests (new_URL : string -> option URL)
    (URL_toString : URL -> string) (targetUrl : string)
    (payloadList paramsToTest : list string) : option (list Probe) :=
  match paramsToTest with
  | [] => Some []
  | paramName :: more =>
      match buildLfiTestUrls new_URL URL_toString targetUrl paramName payloadList,
            plannedTests new_URL URL_toString targetUrl payloadList more with
      | Some testUrls, Some rest_ =>
          Some (List.map (pair paramName) testUrls ++ rest_)
      | _, _ => None
      end
  end.

Definition sampleWords : list string :=
  ["../etc/passwd"; "/etc/shadow"; "C:/Windows/win.ini"].

Definition sampleTarget : string := "https://example.com/index.php?file=home.php".

(** The sample target as [new URL] reads it. *)
Definition sampleUrl : URL :=
  mkURL "https://example.com/index.php" [("file", "home.php")] "".

(** A scan of one discovered parameter with three payloads: the first is
    answered with the password file, the second with a 404, the third fetch
    fails. *)
Definition sampleState : PopupState := samplePopup sampleTarget "" sampleWords.

Abbreviation sampleScan :=
  (handleRunLfi SimpleURL.parse SimpleURL.toString sampleNetwork sampleState []).

Definition sampleSummary : LfiScanSummary :=
  Eval vm_compute in
    match lfiResults (fst sampleScan) with
    | Some summary => summary
    | None => mkSummary "" [] 0 0 []
    end.

(** The same scan on a network on which the first request, the baseline,
    fails. *)
Definition sampleNetworkDown (n : nat) (u : string) : option Response :=
  if Nat.eqb n 0 then None else sampleNetwork n u.

Abbreviation sampleScanDown :=
  (handleRunLfi SimpleURL.parse SimpleURL.toString sampleNetworkDown sampleState []).

Definition sampleSummaryDown : LfiScanSummary :=
  Eval vm_compute in
    match lfiResults (fst sampleScanDown) with
    | Some summary => summary
    | None => mkSummary "" [] 0 0 []
    end.

(** A target whose only query-string key is " file": the query [?+file=...]
    (or [?%20file=...]) decodes to it. *)
Definition paddedTarget : string := "https://example.com/index.php?+file=home.php".

Definition paddedUrl : URL :=
  mkURL "https://example.com/index.php" [(" file", "home.php")] "".

Definition paddedState : PopupState := samplePopup paddedTarget "" sampleWords.

Abbreviation paddedScan :=
  (handleRunLfi SimpleURL.parse SimpleURL.toString sampleNetwork paddedState []).

(** A target without a query, and no explicit parameter. *)
Definition bareTarget : string := "https://example.com/index.php".

Definition bareUrl : URL := mkURL "https://example.com/index.php" [] "".

Definition bareState : PopupState := samplePopup bareTarget "" sampleWords.

(** ** The ratio test in double precision

    The numbers of the classifier are IEEE 754 binary64 values.  Lengths are
    integers below 2^53, which binary64 holds exactly, and so is the absolute
    value of their difference; the division is rounded to nearest, ties to
    even, and 0.3 is the double nearest to 3/10. *)

(** The integer nearest to [n/d], the even one of two that are equally
    near. *)
Definition roundHalfEven (n d : Z) : Z :=
  let q := (n / d)%Z in
  let r := (n mod d)%Z in
  if (2 * r <? d)%Z then q
  else if (d <? 2 * r)%Z then (q + 1)%Z
  else if Z.even q then q else (q + 1)%Z.

(** [n / d] on doubles that hold the integers [n >= 0] and [d > 0]: the
    quotient lies in [2^(L-1100), 2^(L-1099)), and is rounded to a
    significand of 53 bits at that exponent.  (A quotient of integers below
    2^53 is neither subnormal nor beyond the largest double.) *)
Definition Number_div (n d : Z) : Q :=
  if (n =? 0)%Z then 0%Q else
  let L := Z.log2 (n * 2 ^ 1100 / d) in
  let up := Z.max 0 (52 - L) in
  let down := Z.max 0 (L - 52) in
  let m := roundHalfEven (n * 2 ^ 1100 * 2 ^ up) (d * 2 ^ down) in
  (m * 2 ^ down) # Z.to_pos (2 ^ (1100 + up)).

(** [x > y] *)
Definition Number_gt (x y : Q) : bool := negb (Qle_bool x y).

(** The classifier as the engine computes it, the ratio in binary64. *)
Definition analyzeLfiHeuristics_binary64
    (indicators : list string) (baselineStatus baselineLength : option Z)
    (status length : Z) : Detection * Confidence :=
  if Nat.ltb 0 (List.length indicators) then (CONFIRMED_LFI, High) else
  if match baselineLength with
     | Some bl =>
         Z.ltb 0 bl
         && Number_gt (Number_div (Z.abs (length - bl)) bl) (Number_div 3 10)
     | None => false
     end
  then (POSSIBLE_LFI, Medium) else
  if match baselineStatus with
     | Some bs => negb (Z.eqb bs status)
     | None => false
     end
  then (SUSPICIOUS, Low) else
  (NOT_VULNERABLE, Low).

(** The same division by the Standard Library's specification of IEEE 754
    arithmetic, to compare [Number_div] with. *)
Definition SpecFloat_ofZ (z : Z) : SpecFloat.spec_float :=
  SpecFloat.binary_normalize 53 1024 z 0 false.

Definition SpecFloat_toQ (x : SpecFloat.spec_float) : option Q :=
  match x with
  | SpecFloat.S754_zero _ => Some 0%Q
  | SpecFloat.S754_finite s m e =>
      let v := if (0 <=? e)%Z then inject_Z (Zpos m * 2 ^ e)
               else Zpos m # Z.to_pos (2 ^ (- e)) in
      Some (if s then Qopp v else v)
  | _ => None
  end.

Definition agreesWithSpecFloat (n d : Z) : bool :=
  match SpecFloat_toQ (SpecFloat.SFdiv 53 1024 (SpecFloat_ofZ n) (SpecFloat_ofZ d)) with
  | Some q => Qeq_bool q (Number_div n d)
  | None => false
  end.

(** Numerators and denominators to compare the two divisions on: small
    quotients, ties, the largest integers, and lengths next to 2^53 at which
    the exact quotient and its double are on different sides of the double
    0.3. *)
Definition sampleQuotients : list (Z * Z) :=
  [ (3, 10); (1, 3); (2, 3); (1, 1); (0, 5); (31, 100); (30, 100); (5, 2);
    (1, 10); (123456789, 987654321);
    (9007199254740991, 1); (1, 9007199254740991);
    (4503599627370497, 9007199254740992);
    (4503599627370495, 4503599627370496);
    (9007199254740991, 9007199254740990);
    (2702159776422295, 9007199254740983) ]%Z.

(** ** Further notions for the detector *)

(** The pattern has no [^] and no [$]. *)
Fixpoint anchorFree (r : regex) : bool :=
  match r with
  | Bol | Eol => false
  | Seq r1 r2 | Alt r1 r2 => anchorFree r1 && anchorFree r2
  | Star r' => anchorFree r'
  | _ => true
  end.

(** Two texts that differ at most in the case of ASCII letters. *)
Definition sameUpToCase (a b : string) : Prop :=
  List.map canonicalize (list_ascii_of_string a)
  = List.map canonicalize (list_ascii_of_string b).

(** Every code unit. *)
Definition allAscii : list ascii := List.map ascii_of_nat (seq 0 256).

(** Positions over two texts that differ at most in case. *)
Definition folded (p q : pos) : Prop :=
  offset p = offset q /\
  List.map canonicalize (rest p) = List.map canonicalize (rest q).

(** The same position in a longer text. *)
Definition shifted (d : nat) (post : list ascii) (p : pos) : pos :=
  Pos (d + offset p) (rest p ++ post).


(** ** Loading the wordlist ([loadWordlist] in the popup's mount effect) *)

Definition LF : ascii := "010"%char.
Definition CR : ascii := "013"%char.

(** Put a code unit in front of the first piece. *)
Definition pushFront (c : ascii) (pieces : list (list ascii)) : list (list ascii) :=
  match pieces with
  | h :: r => (c :: h) :: r
  | [] => [[c]]
  end.

(** [text.split(/\r?\n/)]: a cut at every LF, which takes a CR right before
    it along. *)
Fixpoint splitLines (l : list ascii) : list (list ascii) :=
  match l with
  | [] => [[]]
  | c :: t =>
      if Ascii.eqb c LF then [] :: splitLines t
      else if Ascii.eqb c CR then
        match t with
        | n :: t' =>
            if Ascii.eqb n LF then [] :: splitLines t'
            else pushFront c (splitLines t)
        | [] => pushFront c (splitLines t)
        end
      else pushFront c (splitLines t)
  end.

(** [line.startsWith('#')] *)
Definition startsWithHash (line : string) : bool :=
  match line with
  | String c _ => Ascii.eqb c "#"
  | EmptyString => false
  end.

(** The payloads of a fetched wordlist: its lines, trimmed, without the
    empty ones and the comments. *)
Definition wordlistPayloads (text : string) : list string :=
  List.filter
    (fun line => nonEmpty line && negb (startsWithHash line)
                 && Nat.ltb 0 (String.length line))
    (List.map (fun piece => trim (string_of_list_ascii piece))
              (splitLines (list_ascii_of_string text))).

(** The wordlist the effect sets, from the answer to the fetch of the
    SecLists file: the catalog and the fetched payloads merged through a
    [Set]; the catalog alone when the fetch fails, the response is not ok or
    its body cannot be read. *)
Definition loadWordlist (answer : option Response) : list string :=
  let basePayloads := lfiPayloads.buildLfiPayloadList None in
  match answer with
  | Some response =>
      if Response_ok response then
        match res_text response with
        | Some text => Array_from_Set (basePayloads ++ wordlistPayloads text)
        | None => lfiPayloads.buildLfiPayloadList None
        end
      else lfiPayloads.buildLfiPayloadList None
  | None => lfiPayloads.buildLfiPayloadList None
  end.

(** ** Further notions for the orchestrator *)

(** Two popup states that differ at most in the progress shown. *)
Definition sameButProgress (a b : PopupState) : Prop :=
  url a = url b /\ error a = error b /\ lfiUrl a = lfiUrl b /\
  lfiParam a = lfiParam b /\ lfiLoading a = lfiLoading b /\
  lfiResults a = lfiResults b /\ wordlist a = wordlist b /\
  payloadCap a = payloadCap b.

(** The scan reads the same inputs from both states. *)
Definition sameInputs (a b : PopupState) : Prop :=
  url a = url b /\ lfiUrl a = lfiUrl b /\ lfiParam a = lfiParam b /\
  wordlist a = wordlist b /\ payloadCap a = payloadCap b.

(** The results reported for a parameter. *)
Definition resultsFor (paramName : string) (rs : list LfiSingleResult)
  : list LfiSingleResult :=
  List.filter (fun r => String.eqb (parameter r) paramName) rs.

Definition msgScanFailed : string := "LFI scan failed: Invalid URL".

(** ** The overview of the popup: the strongest detection of a parameter *)

Definition bySeverity (d : Detection) : nat :=
  match d with
  | CONFIRMED_LFI => 3
  | POSSIBLE_LFI => 2
  | SUSPICIOUS => 1
  | NOT_VULNERABLE => 0
  end.

(** One round of the loop over [paramResults]: [r] replaces [best] when
    there is none yet or [r] is strictly more severe. *)
Definition keepBest (best : option LfiSingleResult) (r : LfiSingleResult)
  : option LfiSingleResult :=
  match best with
  | None => Some r
  | Some b =>
      if Nat.ltb (bySeverity (detection b)) (bySeverity (detection r))
      then Some r else best
  end.

Definition strongest (paramResults : list LfiSingleResult)
  : option LfiSingleResult :=
  fold_left keepBest paramResults None.

Definition statusLabel (best : option LfiSingleResult) : string :=
  match best with
  | None => "Not Vulnerable"
  | Some b =>
      match detection b with
      | NOT_VULNERABLE => "Not Vulnerable"
      | CONFIRMED_LFI => "Confirmed LFI"
      | _ => "Possible LFI"
      end
  end.

(** The label of a row of the parameter overview. *)
Definition overviewLabel (lfiResults_ : LfiScanSummary) (p : ParameterSummary)
  : string :=
  let paramResults := resultsFor (name p) (results lfiResults_) in
  statusLabel (strongest paramResults).

(** ** The CSV export ([exportLfiResults]) *)

Definition DQ : ascii := "034"%char.
Definition COMMA : ascii := ","%char.

Definition Detection_toString (d : Detection) : string :=
  match d with
  | CONFIRMED_LFI => "CONFIRMED_LFI"
  | POSSIBLE_LFI => "POSSIBLE_LFI"
  | SUSPICIOUS => "SUSPICIOUS"
  | NOT_VULNERABLE => "NOT_VULNERABLE"
  end.

Definition Confidence_toString (c : Confidence) : string :=
  match c with Low => "Low" | Medium => "Medium" | High => "High" end.

(** [String(n)] for an integer. *)
Definition Number_toString (n : Z) : string :=
  NilZero.string_of_int (Z.to_int n).

(** The [replace] of the export: every quote character is written twice. *)
Definition doubleQuotes (value : list ascii) : list ascii :=
  flat_map (fun c => if Ascii.eqb c DQ then [DQ; DQ] else [c]) value.

(** A value between quotes, its quotes doubled. *)
Definition csvCell (value : string) : string :=
  String DQ
    (string_of_list_ascii (doubleQuotes (list_ascii_of_string value))
     +:+ String DQ "").

Definition csvHeaders : list string :=
  ["Parameter"; "Original Value"; "Detection"; "Confidence"; "Payload";
   "Indicators"; "Status"; "Content Length"; "Tested URL"].

Definition csvRow (r : LfiSingleResult) : list string :=
  [ parameter r;
    match originalValue r with Some v => v | None => "" end;
    Detection_toString (detection r);
    Confidence_toString (confidence r);
    payload r;
    String.concat "; " (indicators r);
    Number_toString (status r);
    Number_toString (contentLength r);
    testedUrl r ].

(** The text of the CSV file; nothing is exported without results. *)
Definition exportLfiResultsCsv (lfiResults_ : option LfiScanSummary)
  : option string :=
  match lfiResults_ with
  | None => None
  | Some summary =>
      let rows := List.map csvRow (results summary) in
      Some (String.concat (String LF "")
              (String.concat "," csvHeaders
               :: List.map (fun row => String.concat "," (List.map csvCell row))
                           rows))
  end.

(** A reader of CSV text as RFC 4180 has it: a field is bare or between
    quotes, where a doubled quote stands for a quote; a comma ends a field, a
    line feed a record.  [None] when a quote is out of place. *)
Inductive CsvMode : Type := AtFieldStart | InBare | InQuoted | AfterQuote.

Fixpoint readCsv (mode : CsvMode) (field : list ascii) (record : list string)
    (records : list (list string)) (text : list ascii)
  : option (list (list string)) :=
  match text with
  | [] =>
      match mode with
      | InQuoted => None
      | _ => Some (records ++ [record ++ [string_of_list_ascii field]])
      end
  | c :: t =>
      match mode with
      | AtFieldStart =>
          if Ascii.eqb c DQ then readCsv InQuoted [] record records t
          else if Ascii.eqb c COMMA
          then readCsv AtFieldStart [] (record ++ [""]) records t
          else if Ascii.eqb c LF
          then readCsv AtFieldStart [] [] (records ++ [record ++ [""]]) t
          else readCsv InBare [c] record records t
      | InBare =>
          if Ascii.eqb c DQ then None
          else if Ascii.eqb c COMMA
          then readCsv AtFieldStart []
                       (record ++ [string_of_list_ascii field]) records t
          else if Ascii.eqb c LF
          then readCsv AtFieldStart [] []
                       (records ++ [record ++ [string_of_list_ascii field]]) t
          else readCsv InBare (field ++ [c]) record records t
      | InQuoted =>
          if Ascii.eqb c DQ then readCsv AfterQuote field record records t
          else readCsv InQuoted (field ++ [c]) record records t
      | AfterQuote =>
          if Ascii.eqb c DQ then readCsv InQuoted (field ++ [DQ]) record records t
          else if Ascii.eqb c COMMA
          then readCsv AtFieldStart []
                       (record ++ [string_of_list_ascii field]) records t
          else if Ascii.eqb c LF
          then readCsv AtFieldStart [] []
                       (records ++ [record ++ [string_of_list_ascii field]]) t
          else None
      end
  end.

Definition parseCsv (text : string) : option (list (list string)) :=
  readCsv AtFieldStart [] [] [] (list_ascii_of_string text).

(** ** Endpoint scraper ([scrape-website.ts]; the content script has the same
    helpers) *)

(** [String.prototype.includes]. *)
Fixpoint String_includes (s searchString : string) : bool :=
  String.prefix searchString s
  || match s with
     | EmptyString => false
     | String _ s' => String_includes s' searchString
     end.

(** [String.prototype.split] with a separator of one code unit. *)
Definition String_split (s : string) (separator : ascii) : list string :=
  List.map string_of_list_ascii
           (SimpleURL.splitOn separator (list_ascii_of_string s)).

(** [Array.prototype.findIndex]; [None] stands for -1. *)
Fixpoint findIndex {A : Type} (predicate : A -> bool) (l : list A) : option nat :=
  match l with
  | [] => None
  | x :: l' =>
      if predicate x then Some 0
      else match findIndex predicate l' with
           | Some i => Some (S i)
           | None => None
           end
  end.

(** The elements of an array with their indices, as the callback of [filter]
    receives them. *)
Definition entries {A : Type} (l : list A) : list (nat * A) :=
  combine (seq 0 (List.length l)) l.

Module scrapeWebsite.

Inductive EndpointType : Type := api | static | page | unknown.

Record EndpointInfo : Type := mkEndpointInfo {
  url : string;
  method : option string;
  type : EndpointType;
  source : string;
  line : nat
}.

Definition excludePatterns : list RegExp :=
  [ mkRegExp (Bol ++ "#")%re false
  ; mkRegExp (Bol ++ "javascript:")%re false
  ; mkRegExp (Bol ++ "mailto:")%re false
  ; mkRegExp (Bol ++ "tel:")%re false
  ; mkRegExp ("." ++ ("css" <|> "js" <|> "png" <|> "jpg" <|> "jpeg" <|> "gif"
                      <|> "svg" <|> "ico" <|> "woff" <|> "woff2" <|> "ttf"
                      <|> "eot") ++ Eol)%re true
  ; mkRegExp (Bol ++ "/" ++ Eol)%re false
  ; mkRegExp (Bol ++ "/" ++ Star Space ++ Eol)%re false ].

Definition isValidEndpoint (url : string) : bool :=
  negb (existsb (fun pattern => RegExp_test pattern url) excludePatterns).

Definition normalizeUrl (url : string) : string :=
  nth 0 (String_split (nth 0 (String_split url "?") "") "#") "".

Definition pagePattern : RegExp :=
  mkRegExp ("." ++ ("html" <|> "htm" <|> "php" <|> "asp" <|> "aspx") ++ Eol)%re
           true.

Definition staticPattern : RegExp :=
  mkRegExp ("." ++ ("js" <|> "css" <|> "png" <|> "jpg" <|> "jpeg" <|> "gif"
                    <|> "svg" <|> "ico" <|> "woff" <|> "woff2" <|> "ttf"
                    <|> "eot") ++ Eol)%re true.

Definition categorizeEndpoint (url : string) : EndpointType :=
  if String_includes url "/api/" || String_includes url "/v1/"
     || String_includes url "/v2/"
  then api
  else if RegExp_test pagePattern url then page
  else if RegExp_test staticPattern url then static
  else unknown.

Definition getLineNumber (text : string) (index : nat) : nat :=
  List.length (String_split (String.substring 0 index text) LF).

(** The quotes the cleaning step removes. *)
Definition isQuote (c : ascii) : bool :=
  Ascii.eqb c "034" || Ascii.eqb c "'".

Definition removeQuotes (s : string) : string :=
  string_of_list_ascii
    (List.filter (fun c => negb (isQuote c)) (list_ascii_of_string s)).

Definition methodOf (match0 : string) : option string :=
  if String_includes match0 "GET" then Some "GET"
  else if String_includes match0 "POST" then Some "POST"
  else if String_includes match0 "PUT" then Some "PUT"
  else if String_includes match0 "DELETE" then Some "DELETE"
  else None.

(** The body of the [while] loop of [extractEndpointsFromText] for one match:
    [match0] is the matched text, [match1] the first capture when the pattern
    has one, [index] where the match starts.  [None] when nothing is pushed. *)
Definition endpointOfMatch (text source_ match0 : string)
    (match1 : option string) (index : nat) : option EndpointInfo :=
  let picked :=
    match match1 with
    | Some group => if nonEmpty group then group else match0
    | None => match0
    end in
  let url_ := trim (removeQuotes picked) in
  if nonEmpty url_ && isValidEndpoint url_
  then Some (mkEndpointInfo (normalizeUrl url_) (methodOf match0)
                            (categorizeEndpoint url_) source_
                            (getLineNumber text index))
  else None.

(** The duplicate filter of [scrapeWebsite]: an endpoint stays when it is the
    first of the array with its URL. *)
Definition uniqueEndpoints (endpoints : list EndpointInfo) : list EndpointInfo :=
  List.map snd
    (List.filter
       (fun '(index, endpoint) =>
          match findIndex (fun e => String.eqb (url e) (url endpoint)) endpoints with
          | Some i => Nat.eqb index i
          | None => false
          end)
       (entries endpoints)).

End scrapeWebsite.

(** The duplicate filter as one pass that remembers the URLs it has seen. *)
Fixpoint firstOfEachUrl (seen : list string)
    (endpoints : list scrapeWebsite.EndpointInfo)
  : list scrapeWebsite.EndpointInfo :=
  match endpoints with
  | [] => []
  | e :: rest_ =>
      if includes seen (scrapeWebsite.url e) then firstOfEachUrl seen rest_
      else e :: firstOfEachUrl (seen ++ [scrapeWebsite.url e]) rest_
  end.

(** ** Messaging with retry ([sendToBackgroundWithRetry]) *)

Definition contextInvalidated : RegExp :=
  mkRegExp ("context invalidated")%string true.

Section Retry.

(** What the background answers and what a failed call throws. *)
Variables T E : Type.

(** [String(e?.message || e)] of a thrown value. *)
Variable messageOf : E -> string.

(** The outcome of the calls of [sendToBackground], in the order they are
    made. *)
Variable sendToBackground : nat -> T + E.

(** The outcome and the number of the next call; [calls] is the number of
    calls made before. *)
Fixpoint sendToBackgroundWithRetry (retries : nat) (calls : nat)
  : (T + E) * nat :=
  match sendToBackground calls with
  | inl response => (inl response, S calls)
  | inr e =>
      match retries with
      | S retries' =>
          if RegExp_test contextInvalidated (messageOf e)
          then sendToBackgroundWithRetry retries' (S calls)
          else (inr e, S calls)
      | 0 => (inr e, S calls)
      end
  end.

End Retry.

(** ** Further samples *)

(** No URL at all. *)
Definition blankState : PopupState := samplePopup "   " "" sampleWords.

(** The popup after the wordlist effect ran without a network. *)
Definition offlineState : PopupState :=
  samplePopup sampleTarget "" (loadWordlist None).

(** A fetched wordlist: a CRLF line end, a comment, an empty line and a line
    with blanks around it. *)
Definition sampleWordlistText : string :=
  "../../boot.ini" +:+ String CR (String LF "# a comment")
  +:+ String LF (String LF "  /etc/issue  ").

Definition sampleWordlistResponse : Response :=
  mkResponse 200 (Some sampleWordlistText).

(** The test URLs for the [file] parameter of the sample target. *)
Definition sampleTestUrls : list (string * string) :=
  Eval vm_compute in
    match buildLfiTestUrls SimpleURL.parse SimpleURL.toString
                           sampleTarget "file" sampleWords with
    | Some urls => urls
    | None => []
    end.

(** The only row of the parameter overview of the sample scan. *)
Definition sampleParameter : ParameterSummary :=
  Eval vm_compute in
    nth 0 (parametersTested sampleSummary) (mkParameterSummary "" None 0 0).

(** A match of the [fetch] pattern in a script. *)
Definition sampleScript : string :=
  "init();" +:+ String LF "fetch('/api/users?page=2')".

Definition sampleEndpoint : scrapeWebsite.EndpointInfo :=
  Eval vm_compute in
    match scrapeWebsite.endpointOfMatch sampleScript "Inline Script"
            "fetch('/api/users?page=2'" (Some "/api/users?page=2") 8 with
    | Some e => e
    | None => scrapeWebsite.mkEndpointInfo "" None scrapeWebsite.unknown "" 0
    end.

(** * Lists *)

Lemma filter_filter {A : Type} (f g : A -> bool) (l : list A) :
  List.filter f (List.filter g l) = List.filter (fun y => g y && f y) l.
Proof.
  induction l as [|a l IH]; simpl; [reflexivity|].
  destruct (g a); simpl; [destruct (f a)|]; rewrite IH; reflexivity.
Qed.

Lemma filter_sublist {A : Type} (f : A -> bool) (l : list A) :
  sublist (List.filter f l) l.
Proof.
  induction l as [|a l IH]; simpl; [constructor|].
  destruct (f a); [apply sublist_skip|apply sublist_cons]; assumption.
Qed.

Lemma map_sublist {A B : Type} (f : A -> B) (l1 l2 : list A) :
  sublist l1 l2 -> sublist (List.map f l1) (List.map f l2).
Proof. induction 1; simpl; constructor; assumption. Qed.

Lemma filter_split_length {A : Type} (f : A -> bool) (l : list A) :
  List.length (List.filter f l)
  + List.length (List.filter (fun x => negb (f x)) l)
  = List.length l.
Proof.
  induction l as [|a l IH]; simpl; [reflexivity|].
  destruct (f a); simpl; lia.
Qed.

(** * The classifier *)

Lemma ratio_test (d : Q) : negb (Qle_bool d (3 # 10)) = true <-> (3 # 10 < d)%Q.
Proof.
  rewrite negb_true_iff. split.
  - intros H. apply Qnot_le_lt. intros Hle.
    apply Qle_bool_iff in Hle. congruence.
  - intros H. destruct (Qle_bool d (3 # 10)) eqn:E; [|reflexivity].
    apply Qle_bool_iff in E. exfalso. exact (Qlt_not_le _ _ H E).
Qed.

(** The quotient test is a test on integers. *)
Lemma diffRatio_exceeds (len bl : Z) :
  (0 < bl)%Z ->
  (3 # 10 < diffRatio len bl)%Q <-> (3 * bl < 10 * Z.abs (len - bl))%Z.
Proof.
  intros Hpos. unfold diffRatio.
  destruct bl as [|p|p]; try lia.
  unfold Qdiv, Qinv, Qmult, Qlt, inject_Z. simpl Qnum. simpl Qden.
  rewrite Z.mul_1_r, Pos.mul_1_l. lia.
Qed.

Lemma lengthRule_decides (baselineLength : option Z) (len : Z) :
  match baselineLength with
  | Some bl => Z.ltb 0 bl && negb (Qle_bool (diffRatio len bl) (3 # 10))
  | None => false
  end = true <-> lengthRuleApplies baselineLength len.
Proof.
  unfold lengthRuleApplies. destruct baselineLength as [bl|].
  - rewrite andb_true_iff, Z.ltb_lt, ratio_test. split.
    + intros [H1 H2]. exists bl. auto.
    + intros (b & E & H1 & H2). injection E as <-. auto.
  - split; [discriminate|]. intros (b & E & _). discriminate.
Qed.

Lemma statusRule_decides (baselineStatus : option Z) (st : Z) :
  match baselineStatus with
  | Some bs => negb (Z.eqb bs st)
  | None => false
  end = true <-> statusRuleApplies baselineStatus st.
Proof.
  unfold statusRuleApplies. destruct baselineStatus as [bs|].
  - rewrite negb_true_iff, Z.eqb_neq. split.
    + intros H. exists bs. split; [reflexivity|congruence].
    + intros (b & E & H). injection E as <-. congruence.
  - split; [discriminate|]. intros (b & E & _). discriminate.
Qed.

(** C1: the classifier evaluates its four rules in order and the first that
    applies decides: indicators, then the length delta over 30% of a known
    positive baseline length, then a status that differs from a known
    baseline status, then not vulnerable.  With the indicator "etc/passwd",
    a baseline length of 100 and a length of 1000 the verdict is
    CONFIRMED_LFI/High although rule 2 alone would apply. *)
Theorem analyzeLfiHeuristics_first_rule_wins :
  forall (inds : list string) (baselineStatus baselineLength : option Z)
         (st len : Z),
    (inds <> [] ->
     analyzeLfiHeuristics inds baselineStatus baselineLength st len
     = (CONFIRMED_LFI, High)) /\
    (inds = [] -> lengthRuleApplies baselineLength len ->
     analyzeLfiHeuristics inds baselineStatus baselineLength st len
     = (POSSIBLE_LFI, Medium)) /\
    (inds = [] -> ~ lengthRuleApplies baselineLength len ->
     statusRuleApplies baselineStatus st ->
     analyzeLfiHeuristics inds baselineStatus baselineLength st len
     = (SUSPICIOUS, Low)) /\
    (inds = [] -> ~ lengthRuleApplies baselineLength len ->
     ~ statusRuleApplies baselineStatus st ->
     analyzeLfiHeuristics inds baselineStatus baselineLength st len
     = (NOT_VULNERABLE, Low)) /\
    analyzeLfiHeuristics ["etc/passwd"] baselineStatus (Some 100%Z) st 1000
    = (CONFIRMED_LFI, High) /\
    lengthRuleApplies (Some 100%Z) 1000.
Proof.
  intros inds bs bl st len.
  pose proof (lengthRule_decides bl len) as H2.
  pose proof (statusRule_decides bs st) as H3.
  unfold analyzeLfiHeuristics.
  split; [|split; [|split; [|split; [|split]]]].
  - intros Hne. destruct inds; [congruence|reflexivity].
  - intros -> Hr. simpl. apply H2 in Hr. rewrite Hr. reflexivity.
  - intros -> Hn Hr. simpl.
    destruct (match bl with Some _ => _ | None => _ end) eqn:E2.
    + exfalso. apply Hn, H2. reflexivity.
    + apply H3 in Hr. rewrite Hr. reflexivity.
  - intros -> Hn2 Hn3. simpl.
    destruct (match bl with Some _ => _ | None => _ end) eqn:E2.
    + exfalso. apply Hn2, H2. reflexivity.
    + destruct (match bs with Some _ => _ | None => _ end) eqn:E3.
      * exfalso. apply Hn3, H3. reflexivity.
      * reflexivity.
  - reflexivity.
  - exists 100%Z. split; [reflexivity|]. split; [lia|].
    apply (diffRatio_exceeds 1000 100); lia.
Qed.

(** * The matcher against the relation *)

Section Matcher.

Variable ic : bool.

Lemma step_spec (ok : ascii -> bool) (p q : pos) :
  In q (step ok p) <->
  exists x s, p = Pos (offset p) (x :: s) /\ ok x = true /\ q = Pos (S (offset p)) s.
Proof.
  unfold step. destruct p as [n [|x s]]; simpl.
  - split; [tauto|]. intros (x & s & E & _). discriminate.
  - destruct (ok x) eqn:Eok; simpl.
    + split.
      * intros [<-|[]]. exists x, s. auto.
      * intros (x' & s' & E & _ & ->). injection E as <- <-. auto.
    + split; [tauto|]. intros (x' & s' & E & Hok & _).
      injection E as <- <-. congruence.
Qed.

(** Two matches in a row consume the concatenation of what each consumes. *)
Ltac join_consumed IH1 IH2 :=
  let w1 := fresh "w" in
  let w2 := fresh "w" in
  let E1 := fresh "E" in
  let E2 := fresh "E" in
  let O1 := fresh "O" in
  let O2 := fresh "O" in
  destruct IH1 as (w1 & E1 & O1), IH2 as (w2 & E2 & O2);
  exists (w1 ++ w2); rewrite length_app, <- app_assoc, <- E2;
  split; [assumption|lia].

(** A match consumes a prefix of what is ahead. *)
Lemma matches_consumes (r : regex) (p q : pos) :
  matches ic r p q ->
  exists w, rest p = w ++ rest q /\ offset q = offset p + List.length w.
Proof.
  induction 1; simpl;
    try (exists []; simpl; split; [reflexivity|lia]);
    try (exists [x]; simpl; split; [reflexivity|lia]);
    try assumption;
    join_consumed IHmatches1 IHmatches2.
Qed.

Lemma matches_stalls (r : regex) (p q : pos) :
  matches ic r p q -> advances p q = false -> q = p.
Proof.
  intros H Hadv. apply matches_consumes in H as (w & E & O).
  unfold advances in Hadv. apply Nat.ltb_ge in Hadv.
  rewrite E, length_app in Hadv.
  destruct w as [|x w]; [|simpl in Hadv; lia].
  destruct p, q; simpl in *. subst. f_equal. lia.
Qed.

Lemma iterate_sound (r : regex) :
  (forall p q, In q (run ic r p) -> matches ic r p q) ->
  forall fuel p q, In q (iterate (run ic r) fuel p) -> matches ic (Star r) p q.
Proof.
  intros IH fuel. induction fuel as [|k IHk]; intros p q; simpl.
  - intros [<-|[]]. constructor.
  - intros [<-|Hin]; [constructor|].
    apply in_flat_map in Hin as (m & Hm & Hq).
    apply filter_In in Hm as [Hm _].
    eapply M_Star_more; eauto.
Qed.

Lemma run_sound (r : regex) :
  forall p q, In q (run ic r p) -> matches ic r p q.
Proof.
  induction r; intros p q; simpl.
  - intros [<-|[]]. constructor.
  - intros H. apply step_spec in H as (x & s & -> & Hok & ->). now constructor.
  - intros H. apply step_spec in H as (x & s & -> & Hok & ->).
    constructor. now apply negb_true_iff.
  - intros H. apply step_spec in H as (x & s & -> & Hok & ->). now constructor.
  - intros H. apply step_spec in H as (x & s & -> & Hok & ->). now constructor.
  - intros H. apply step_spec in H as (x & s & -> & Hok & ->). now constructor.
  - destruct p as [n s]; simpl. destruct n; simpl; [|tauto].
    intros [<-|[]]. constructor.
  - destruct p as [n [|x s]]; simpl; [|tauto].
    intros [<-|[]]. constructor.
  - intros H. apply in_flat_map in H as (m & H1 & H2).
    eapply M_Seq; eauto.
  - intros H. apply in_app_or in H as [H|H].
    + apply M_Alt_l; auto.
    + apply M_Alt_r; auto.
  - intros H.
    apply (iterate_sound r IHr (S (List.length (rest p)))). exact H.
Qed.

Lemma iterate_more_fuel (f : pos -> list pos) (k k' : nat) :
  k <= k' -> forall p q, In q (iterate f k p) -> In q (iterate f k' p).
Proof.
  revert k'. induction k as [|k IH]; intros k' Hle p q; simpl.
  - intros [<-|[]]. destruct k'; simpl; auto.
  - destruct k' as [|k']; [lia|]. simpl.
    intros [<-|Hin]; [auto|]. right.
    apply in_flat_map in Hin as (m & Hm & Hq).
    apply in_flat_map. exists m. split; [assumption|].
    apply IH; [lia|assumption].
Qed.

Lemma run_complete (r : regex) (p q : pos) :
  matches ic r p q -> In q (run ic r p).
Proof.
  induction 1.
  - left. reflexivity.
  - simpl. unfold step. simpl. rewrite H. left. reflexivity.
  - simpl. unfold step. simpl. rewrite H. left. reflexivity.
  - simpl. unfold step. simpl. rewrite H. left. reflexivity.
  - simpl. unfold step. simpl. rewrite H. left. reflexivity.
  - simpl. unfold step. simpl. rewrite H. left. reflexivity.
  - left. reflexivity.
  - left. reflexivity.
  - simpl. apply in_flat_map. eauto.
  - simpl. apply in_or_app. auto.
  - simpl. apply in_or_app. auto.
  - left. reflexivity.
  - change (In u (iterate (run ic r) (S (List.length (rest q))) q)) in IHmatches2.
    change (In u (iterate (run ic r) (S (List.length (rest p))) p)).
    destruct (advances p q) eqn:Hadv.
    + right. apply in_flat_map. exists q. split.
      * apply filter_In. auto.
      * eapply iterate_more_fuel; [|exact IHmatches2].
        unfold advances in Hadv. apply Nat.ltb_lt in Hadv. lia.
    + apply (matches_stalls _ _ _ H) in Hadv. subst q. exact IHmatches2.
Qed.

End Matcher.

Lemma positions_spec (s : list ascii) :
  forall n p, In p (positions n s) <->
              exists before, s = before ++ rest p /\ offset p = n + List.length before.
Proof.
  induction s as [|x s IH]; intros n p; simpl.
  - split.
    + intros [<-|[]]. exists []. simpl. split; [reflexivity|lia].
    + intros (b & E & O). left. symmetry in E.
      apply app_eq_nil in E as [-> E]. destruct p; simpl in *. subst.
      f_equal. lia.
  - split.
    + intros [<-|H].
      * exists []. simpl. split; [reflexivity|lia].
      * apply IH in H as (b & E & O). exists (x :: b). simpl.
        split; [congruence|lia].
    + intros (b & E & O). destruct b as [|y b]; simpl in *.
      * left. destruct p; simpl in *. subst. f_equal. lia.
      * right. apply IH. injection E as <- E. exists b. split; [assumption|lia].
Qed.

(** [test] answers whether the pattern matches somewhere in the body. *)
Lemma RegExp_test_spec (re : RegExp) (body : string) :
  RegExp_test re body = true <-> matchesIn re body.
Proof.
  unfold RegExp_test, matchesIn. rewrite existsb_exists. split.
  - intros (p & Hp & Hrun). apply positions_spec in Hp as (b & E & O).
    destruct (run (ignoreCase re) (source re) p) as [|q l] eqn:Er; [discriminate|].
    exists b, (rest p), q. split; [assumption|].
    simpl in O. rewrite <- O. destruct p as [n s]; simpl.
    apply run_sound. rewrite Er. left. reflexivity.
  - intros (b & a & q & E & Hm).
    exists (Pos (List.length b) a). split.
    + apply positions_spec. exists b. simpl. auto.
    + apply run_complete in Hm.
      destruct (run (ignoreCase re) (source re) (Pos (List.length b) a));
        [destruct Hm|reflexivity].
Qed.

(** * The indicator detector *)

Lemma hits_loop (body : string) (l : list Indicator) :
  forall acc,
    fold_left
      (fun hits i => if RegExp_test (regex_of i) body then hits ++ [label i] else hits)
      l acc
    = acc ++ List.map label
               (List.filter (fun i => RegExp_test (regex_of i) body) l).
Proof.
  induction l as [|i l IH]; intros acc; simpl.
  - symmetry. apply app_nil_r.
  - rewrite IH. destruct (RegExp_test (regex_of i) body); simpl.
    + rewrite <- app_assoc. reflexivity.
    + reflexivity.
Qed.

Lemma detectLfiIndicators_filter (body : string) :
  detectLfiIndicators body
  = List.map label
      (List.filter (fun i => RegExp_test (regex_of i) body) indicatorTable).
Proof. unfold detectLfiIndicators. apply hits_loop. Qed.

Lemma detectLfiIndicators_empty : detectLfiIndicators "" = [].
Proof. vm_compute. reflexivity. Qed.

(** C6: for every body the detector returns, in the order of the signature
    table, the label of every signature whose pattern matches somewhere in
    the body: every signature is tested, so labels co-occur.  The body
    "root:x:0:0:daemon:/bin/sh" yields the label "etc/passwd". *)
Theorem detectLfiIndicators_labels_in_table_order :
  (forall body,
     detectLfiIndicators body
     = List.map label
         (List.filter (fun i => RegExp_test (regex_of i) body) indicatorTable)) /\
  (forall body l,
     In l (detectLfiIndicators body) <->
     exists i, In i indicatorTable /\ label i = l /\ matchesIn (regex_of i) body) /\
  (forall body, sublist (detectLfiIndicators body) (List.map label indicatorTable)) /\
  In "etc/passwd" (detectLfiIndicators "root:x:0:0:daemon:/bin/sh") /\
  detectLfiIndicators "root:x:0:0: PATH=/bin <?php"
  = ["etc/passwd"; "proc/environ"; "PHP source"].
Proof.
  split; [exact detectLfiIndicators_filter|].
  split.
  { intros body l. rewrite detectLfiIndicators_filter, in_map_iff. split.
    - intros (i & El & Hi). apply filter_In in Hi as [Hi Ht].
      exists i. split; [assumption|]. split; [assumption|].
      apply RegExp_test_spec. assumption.
    - intros (i & Hi & El & Hm). exists i. split; [assumption|].
      apply filter_In. split; [assumption|]. apply RegExp_test_spec. assumption. }
  split.
  { intros body. rewrite detectLfiIndicators_filter.
    apply map_sublist, filter_sublist. }
  split; vm_compute; auto.
Qed.

(** * Deduplication through a [Set] *)

Lemma includes_In (l : list string) (x : string) :
  includes l x = true <-> In x l.
Proof.
  unfold includes. rewrite existsb_exists. split.
  - intros (y & Hy & E). apply String.eqb_eq in E. congruence.
  - intros H. exists x. split; [assumption|apply String.eqb_refl].
Qed.

Lemma includes_app (l1 l2 : list string) (x : string) :
  includes (l1 ++ l2) x = includes l1 x || includes l2 x.
Proof. unfold includes. apply existsb_app. Qed.



Lemma dedupFirstSeen_In (l : list string) (x : string) :
  In x (dedupFirstSeen l) <-> In x l.
Proof.
  induction l as [|a l IH]; simpl; [tauto|].
  rewrite filter_In, IH. split.
  - intros [H|[H _]]; auto.
  - intros [H|H]; [auto|].
    destruct (String.eqb a x) eqn:E.
    + apply String.eqb_eq in E. auto.
    + right. split; [assumption|reflexivity].
Qed.

Lemma dedupFirstSeen_NoDup (l : list string) : List.NoDup (dedupFirstSeen l).
Proof.
  induction l as [|a l IH]; simpl; constructor.
  - rewrite filter_In. intros [_ H]. rewrite String.eqb_refl in H. discriminate.
  - apply List.NoDup_filter. assumption.
Qed.

Lemma Set_fill (l acc : list string) :
  fold_left Set_add l acc
  = acc ++ List.filter (fun y => negb (includes acc y)) (dedupFirstSeen l).
Proof.
  revert acc. induction l as [|x l IH]; intros acc; simpl.
  - symmetry. apply app_nil_r.
  - rewrite IH. unfold Set_add. destruct (includes acc x) eqn:E; simpl.
    + f_equal. rewrite filter_filter. apply filter_ext_in. intros y _.
      destruct (String.eqb x y) eqn:Exy; simpl; [|reflexivity].
      apply String.eqb_eq in Exy. subst y. rewrite E. reflexivity.
    + rewrite <- app_assoc. simpl. f_equal. f_equal.
      rewrite filter_filter. apply filter_ext. intros y.
      rewrite includes_app. unfold includes at 2. simpl.
      rewrite orb_false_r, negb_orb, (String.eqb_sym y x).
      apply andb_comm.
Qed.

(** [Array.from(new Set(l))] keeps every entry where it is first seen. *)
Lemma Array_from_Set_dedup (l : list string) :
  Array_from_Set l = dedupFirstSeen l.
Proof.
  unfold Array_from_Set. rewrite Set_fill. simpl.
  induction (dedupFirstSeen l) as [|a d IH]; simpl; congruence.
Qed.


(** * More on the classifier *)

Section Binary64.

Local Open Scope Z_scope.

Lemma roundHalfEven_bounds (n d : Z) :
  0 < d -> n / d <= roundHalfEven n d <= n / d + 1.
Proof.
  intros Hd. unfold roundHalfEven. cbv zeta.
  destruct (2 * (n mod d) <? d); [lia|].
  destruct (d <? 2 * (n mod d)); [lia|].
  destruct (Z.even (n / d)); lia.
Qed.

(** Above an odd integer [t]: from its upper midpoint on. *)
Lemma roundHalfEven_above_odd (n d t : Z) :
  0 < d -> Z.odd t = true ->
  (t < roundHalfEven n d <-> (2 * t + 1) * d <= 2 * n).
Proof.
  intros Hd Ht. unfold roundHalfEven. cbv zeta.
  pose proof (Z.div_mod n d ltac:(lia)) as E.
  pose proof (Z.mod_pos_bound n d Hd) as Hr.
  set (q := n / d) in *. set (r := n mod d) in *.
  destruct (2 * r <? d) eqn:E1; [apply Z.ltb_lt in E1; nia|].
  apply Z.ltb_ge in E1.
  destruct (d <? 2 * r) eqn:E2; [apply Z.ltb_lt in E2; nia|].
  apply Z.ltb_ge in E2.
  destruct (Z.even q) eqn:E3.
  - assert (q <> t) by (intros ->; rewrite <- Z.negb_odd, Ht in E3; discriminate).
    nia.
  - nia.
Qed.

Lemma roundHalfEven_scale (n d c : Z) :
  0 < d -> 0 < c -> roundHalfEven (n * c) (d * c) = roundHalfEven n d.
Proof.
  intros Hd Hc. unfold roundHalfEven. cbv zeta.
  rewrite Z.div_mul_cancel_r by lia.
  rewrite Z.mul_mod_distr_r by lia.
  replace (2 * (n mod d * c) <? d * c) with (2 * (n mod d) <? d).
  2:{ destruct (Z.ltb_spec (2 * (n mod d)) d), (Z.ltb_spec (2 * (n mod d * c)) (d * c));
        try reflexivity; nia. }
  replace (d * c <? 2 * (n mod d * c)) with (d <? 2 * (n mod d)).
  2:{ destruct (Z.ltb_spec d (2 * (n mod d))), (Z.ltb_spec (d * c) (2 * (n mod d * c)));
        try reflexivity; nia. }
  reflexivity.
Qed.

Lemma Number_gt_same_den (m1 m2 : Z) (p : positive) :
  Number_gt (m1 # p) (m2 # p) = true <-> m2 < m1.
Proof.
  unfold Number_gt, Qle_bool. cbn [Qnum Qden]. rewrite negb_true_iff, Z.leb_gt.
  split; intros H; nia.
Qed.

(** The double 0.3: the significand 5404319552844595 at the exponent -54. *)
Lemma Number_0_3 :
  Number_div 3 10 = (5404319552844595 * 2 ^ 1046) # Z.to_pos (2 ^ 1100).
Proof. vm_compute. reflexivity. Qed.

(** The quotient of a positive [a] by [b], both below 2^53: its binade
    [L - 1100] and its significand. *)
Lemma Number_div_normal (a b : Z) :
  0 < a < 2 ^ 53 -> 0 < b < 2 ^ 53 ->
  exists L c m,
    c = 2 ^ (L - 52) /\ 0 < c /\
    2 ^ 52 * c * b <= a * 2 ^ 1100 < 2 ^ 53 * c * b /\
    m = roundHalfEven (a * 2 ^ 1100) (b * c) /\
    2 ^ 52 <= m <= 2 ^ 53 /\
    Number_div a b = (m * c) # Z.to_pos (2 ^ 1100).
Proof.
  intros Ha Hb.
  set (X := a * 2 ^ 1100 / b).
  assert (HX : 2 ^ 1047 <= X).
  { apply Z.div_le_lower_bound; [lia|].
    assert (E : 2 ^ 1100 = 2 ^ 53 * 2 ^ 1047) by reflexivity.
    rewrite E. set (C := 2 ^ 1047). assert (0 < C) by (subst C; reflexivity).
    change (2 ^ 53) with 9007199254740992 in *. nia. }
  assert (HXpos : 0 < X).
  { assert (0 < 2 ^ 1047) by reflexivity. lia. }
  pose proof (Z.log2_spec X HXpos) as [Hlo Hhi].
  assert (HL : 1047 <= Z.log2 X) by (apply Z.log2_le_pow2; assumption).
  set (L := Z.log2 X) in *.
  assert (Ec : 2 ^ L = 2 ^ 52 * 2 ^ (L - 52)).
  { rewrite <- Z.pow_add_r by lia. f_equal. lia. }
  assert (Hc : 0 < 2 ^ (L - 52)) by (apply Z.pow_pos_nonneg; lia).
  rewrite Z.pow_succ_r in Hhi by lia. rewrite Ec in Hlo, Hhi.
  pose proof (Z.mul_div_le (a * 2 ^ 1100) b ltac:(lia)) as D1.
  pose proof (Z.mul_succ_div_gt (a * 2 ^ 1100) b ltac:(lia)) as D2.
  fold X in D1, D2.
  set (c := 2 ^ (L - 52)) in *. set (P := 2 ^ 1100) in *.
  change (2 ^ 52) with 4503599627370496 in *.
  change (2 ^ 53) with 9007199254740992 in *.
  assert (B : 4503599627370496 * c * b <= a * P < 9007199254740992 * c * b) by nia.
  exists L, c, (roundHalfEven (a * P) (b * c)).
  split; [reflexivity|]. split; [assumption|]. split; [assumption|].
  split; [reflexivity|]. split.
  - pose proof (roundHalfEven_bounds (a * P) (b * c) ltac:(nia)) as [R1 R2].
    assert (Q1 : 4503599627370496 <= a * P / (b * c))
      by (apply Z.div_le_lower_bound; nia).
    assert (Q2 : a * P / (b * c) < 9007199254740992)
      by (apply Z.div_lt_upper_bound; nia).
    lia.
  - unfold Number_div.
    assert (E0 : (a =? 0) = false) by (apply Z.eqb_neq; lia).
    rewrite E0. cbv zeta. fold P. fold X. fold L.
    rewrite (Z.max_l 0 (52 - L)) by lia.
    rewrite (Z.max_r 0 (L - 52)) by lia.
    fold c. rewrite Z.pow_0_r, Z.mul_1_r, Z.add_0_r. reflexivity.
Qed.

Lemma Number_div_exceeds (a b : Z) :
  0 <= a < 2 ^ 53 -> 0 < b < 2 ^ 52 ->
  (Number_gt (Number_div a b) (Number_div 3 10) = true <-> 3 * b < 10 * a).
Proof.
  intros Ha Hb.
  destruct (Z.eq_dec a 0) as [->|Hne].
  { split; intros H; [vm_compute in H; discriminate|lia]. }
  assert (Hb' : 0 < b < 2 ^ 53).
  { change (2 ^ 52) with 4503599627370496 in Hb.
    change (2 ^ 53) with 9007199254740992. lia. }
  destruct (Number_div_normal a b ltac:(lia) Hb')
    as (L & c & m & Ec & Hc & B & Em & Hm & ->).
  rewrite Number_0_3, Number_gt_same_den.
  change (2 ^ 52) with 4503599627370496 in *.
  change (2 ^ 53) with 9007199254740992 in *.
  assert (HP : 2 ^ 1100 = 18014398509481984 * 2 ^ 1046) by reflexivity.
  assert (H46 : 0 < 2 ^ 1046) by reflexivity.
  destruct (Z.lt_trichotomy L 1098) as [Hlt|[->|Hgt]].
  - (* the quotient is below 1/4 *)
    assert (Hle : c <= 2 ^ 1045).
    { rewrite Ec. apply Z.pow_le_mono_r; lia. }
    assert (H45 : 2 ^ 1046 = 2 * 2 ^ 1045) by reflexivity.
    rewrite HP in B. rewrite H45 in *.
    set (C := 2 ^ 1045) in *. split; intros H; nia.
  - (* the binade of 0.3 *)
    change (1098 - 52) with 1046 in Ec. subst c.
    rewrite HP in Em.
    replace (a * (18014398509481984 * 2 ^ 1046))
      with (a * 18014398509481984 * 2 ^ 1046) in Em by ring.
    rewrite roundHalfEven_scale in Em by lia.
    assert (Hodd : Z.odd 5404319552844595 = true) by reflexivity.
    pose proof (roundHalfEven_above_odd (a * 18014398509481984) b
                  5404319552844595 ltac:(lia) Hodd) as R.
    rewrite <- Em in R.
    set (C := 2 ^ 1046) in *. split; intros H.
    + assert (5404319552844595 < m) by nia. lia.
    + assert (5404319552844595 < m) by lia. nia.
  - (* the quotient is at least 1/2 *)
    assert (Hge : 2 ^ 1047 <= c).
    { rewrite Ec. apply Z.pow_le_mono_r; lia. }
    assert (H47 : 2 ^ 1047 = 2 * 2 ^ 1046) by reflexivity.
    rewrite HP in B. rewrite H47 in Hge.
    set (C := 2 ^ 1046) in *. split; intros H; nia.
Qed.

(** [Number_div] is the division of the IEEE 754 specification on the
    sample quotients. *)
Lemma Number_div_on_samples :
  forallb (fun nd => agreesWithSpecFloat (fst nd) (snd nd)) sampleQuotients = true.
Proof. vm_compute. reflexivity. Qed.

Lemma binary64_ratio_test (len bl : Z) :
  0 < bl < 2 ^ 52 -> 0 <= len < 2 ^ 53 ->
  Number_gt (Number_div (Z.abs (len - bl)) bl) (Number_div 3 10)
  = negb (Qle_bool (diffRatio len bl) (3 # 10)).
Proof.
  intros Hbl Hlen.
  assert (Ha : 0 <= Z.abs (len - bl) < 2 ^ 53).
  { change (2 ^ 52) with 4503599627370496 in Hbl.
    change (2 ^ 53) with 9007199254740992 in *. lia. }
  pose proof (Number_div_exceeds _ _ Ha Hbl) as H64.
  pose proof (ratio_test (diffRatio len bl)) as HQ.
  rewrite (diffRatio_exceeds len bl (proj1 Hbl)) in HQ.
  destruct (Number_gt _ _), (negb (Qle_bool _ _)); try reflexivity.
  - symmetry. apply HQ, H64. reflexivity.
  - apply H64, HQ. reflexivity.
Qed.

(** Beyond the bound the two tests part: a baseline of 2^53 - 9 code units
    and a difference whose exact quotient is above 3/10 by less than half a
    unit in the last place. *)
Lemma binary64_differs_beyond_the_bound :
  analyzeLfiHeuristics_binary64 [] None (Some 9007199254740983) 200
                                11709359031163278
  = (NOT_VULNERABLE, Low) /\
  analyzeLfiHeuristics [] None (Some 9007199254740983) 200 11709359031163278
  = (POSSIBLE_LFI, Medium).
Proof. split; vm_compute; reflexivity. Qed.

End Binary64.

(** X1: for a baseline length below 2^52 and a length below 2^53, as all
    lengths of strings are, the classifier computed in double precision is
    the classifier computed with exact quotients; so with a positive
    baseline length [bl] and no indicators it answers POSSIBLE_LFI exactly
    when ten times the distance of the length from the baseline exceeds
    three times the baseline: the test [ratio > 0.3] is strict, and a
    difference of exactly 30% is not flagged by the length rule. *)
Theorem length_rule_is_an_integer_test :
  forall (baselineStatus : option Z) (bl st len : Z),
    (0 < bl < 2 ^ 52)%Z -> (0 <= len < 2 ^ 53)%Z ->
    (forall inds : list string,
       analyzeLfiHeuristics_binary64 inds baselineStatus (Some bl) st len
       = analyzeLfiHeuristics inds baselineStatus (Some bl) st len) /\
    (fst (analyzeLfiHeuristics_binary64 [] baselineStatus (Some bl) st len)
     = POSSIBLE_LFI
     <-> (3 * bl < 10 * Z.abs (len - bl))%Z) /\
    ((10 * Z.abs (len - bl) = 3 * bl)%Z ->
     fst (analyzeLfiHeuristics_binary64 [] baselineStatus (Some bl) st len)
     <> POSSIBLE_LFI).
Proof.
  intros bs bl st len Hbl Hlen.
  assert (Hsame : forall inds,
             analyzeLfiHeuristics_binary64 inds bs (Some bl) st len
             = analyzeLfiHeuristics inds bs (Some bl) st len).
  { intros inds. unfold analyzeLfiHeuristics_binary64, analyzeLfiHeuristics.
    rewrite (binary64_ratio_test len bl Hbl Hlen). reflexivity. }
  assert (Hiff : fst (analyzeLfiHeuristics_binary64 [] bs (Some bl) st len)
                 = POSSIBLE_LFI
                 <-> (3 * bl < 10 * Z.abs (len - bl))%Z).
  { rewrite Hsame. unfold analyzeLfiHeuristics. cbn [List.length Nat.ltb Nat.leb].
    rewrite <- (diffRatio_exceeds len bl (proj1 Hbl)), <- ratio_test.
    destruct (Z.ltb_spec 0 bl) as [_|]; [|lia]. cbn [andb].
    destruct (negb (Qle_bool (diffRatio len bl) (3 # 10))).
    - split; reflexivity.
    - destruct (match bs with Some _ => _ | None => _ end);
        split; discriminate. }
  split; [exact Hsame|]. split; [exact Hiff|].
  intros Heq H. apply Hiff in H. lia.
Qed.

(** X2: a baseline length that is not positive (an empty baseline body)
    switches the length rule off: without indicators the classifier answers as
    if no baseline length were known, SUSPICIOUS/Low when the status differs
    from the baseline status and NOT_VULNERABLE/Low otherwise, whatever the
    length of the response. *)
Theorem empty_baseline_disables_length_rule :
  forall (baselineStatus : option Z) (bl st len : Z),
    (bl <= 0)%Z ->
    analyzeLfiHeuristics [] baselineStatus (Some bl) st len
    = analyzeLfiHeuristics [] baselineStatus None st len /\
    (analyzeLfiHeuristics [] baselineStatus (Some bl) st len
     = if match baselineStatus with
          | Some bs => negb (Z.eqb bs st)
          | None => false
          end
       then (SUSPICIOUS, Low) else (NOT_VULNERABLE, Low)).
Proof.
  intros bs bl st len Hle. unfold analyzeLfiHeuristics.
  cbn [List.length Nat.ltb Nat.leb].
  destruct (Z.ltb_spec 0 bl) as [|_]; [lia|]. cbn [andb]. split; reflexivity.
Qed.

(** X3: the confidence is a function of the detection, High for
    CONFIRMED_LFI, Medium for POSSIBLE_LFI and Low for SUSPICIOUS and
    NOT_VULNERABLE; and the detection is CONFIRMED_LFI exactly when there is
    an indicator. *)
Theorem confidence_follows_detection :
  forall (inds : list string) (baselineStatus baselineLength : option Z)
         (st len : Z),
    (fst (analyzeLfiHeuristics inds baselineStatus baselineLength st len)
     = CONFIRMED_LFI <-> inds <> []) /\
    snd (analyzeLfiHeuristics inds baselineStatus baselineLength st len)
    = match fst (analyzeLfiHeuristics inds baselineStatus baselineLength st len) with
      | CONFIRMED_LFI => High
      | POSSIBLE_LFI => Medium
      | SUSPICIOUS | NOT_VULNERABLE => Low
      end.
Proof.
  intros inds bs bl st len. unfold analyzeLfiHeuristics.
  destruct inds as [|i inds]; cbn [List.length Nat.ltb Nat.leb].
  - destruct (match bl with Some _ => _ | None => _ end);
      [|destruct (match bs with Some _ => _ | None => _ end)];
      (split; [split; [discriminate|congruence]|reflexivity]).
  - split; [split; [discriminate|reflexivity]|reflexivity].
Qed.

(** * More on the detector *)

Lemma allAscii_complete (c : ascii) : In c allAscii.
Proof.
  unfold allAscii. apply in_map_iff. exists (nat_of_ascii c).
  split; [apply ascii_nat_embedding|].
  apply in_seq. pose proof (nat_ascii_bounded c). lia.
Qed.

(** A test on two code units that holds on all of them. *)
Lemma ascii_check2 (P : ascii -> ascii -> bool) :
  forallb (fun x => forallb (P x) allAscii) allAscii = true ->
  forall x y, P x y = true.
Proof.
  intros H x y. rewrite forallb_forall in H.
  specialize (H x (allAscii_complete x)). rewrite forallb_forall in H.
  apply H, allAscii_complete.
Qed.

Lemma canonicalize_classes (x y : ascii) :
  canonicalize x = canonicalize y ->
  isLineTerminator x = isLineTerminator y /\
  isDigit x = isDigit y /\ isWhiteSpace x = isWhiteSpace y.
Proof.
  intros E.
  pose proof (ascii_check2
    (fun a b => implb (Ascii.eqb (canonicalize a) (canonicalize b))
                  (Bool.eqb (isLineTerminator a) (isLineTerminator b)
                   && Bool.eqb (isDigit a) (isDigit b)
                   && Bool.eqb (isWhiteSpace a) (isWhiteSpace b)))
    ltac:(vm_compute; reflexivity) x y) as H.
  cbv beta in H. rewrite E, Ascii.eqb_refl in H. cbn [implb] in H.
  apply andb_true_iff in H as [H H3]. apply andb_true_iff in H as [H1 H2].
  repeat split; apply Bool.eqb_prop; assumption.
Qed.

Lemma inRange_folded (lo hi x y : ascii) :
  canonicalize x = canonicalize y -> inRange true lo hi x = inRange true lo hi y.
Proof.
  intros E. unfold inRange, charEq. rewrite E. reflexivity.
Qed.

Ltac folded_step :=
  match goal with
  | Er : _ :: _ = List.map canonicalize ?s' |- _ =>
      destruct s' as [|? ?]; [discriminate|]; cbn [List.map] in Er;
      let Ec := fresh "Ec" in
      let Es := fresh "Es" in
      injection Er as Ec Es;
      let Hc := fresh "Hc" in
      pose proof (canonicalize_classes _ _ Ec) as Hc;
      destruct Hc as (? & ? & ?);
      eexists (Pos (S _) _); split;
      [constructor|split; cbn; [congruence|eassumption]]
  end.

Lemma matches_folded (r : regex) (p q : pos) :
  matches true r p q ->
  forall p', folded p p' -> exists q', matches true r p' q' /\ folded q q'.
Proof.
  induction 1; intros p' F.
  - exists p'. split; [constructor|assumption].
  - destruct p' as [n' s'], F as [Ho Er]; cbn in Ho, Er. folded_step.
    unfold charEq in *. congruence.
  - destruct p' as [n' s'], F as [Ho Er]; cbn in Ho, Er. folded_step. congruence.
  - destruct p' as [n' s'], F as [Ho Er]; cbn in Ho, Er. folded_step. congruence.
  - destruct p' as [n' s'], F as [Ho Er]; cbn in Ho, Er. folded_step. congruence.
  - destruct p' as [n' s'], F as [Ho Er]; cbn in Ho, Er. folded_step.
    erewrite <- inRange_folded; eassumption.
  - destruct p' as [n' s'], F as [Ho Er]; cbn in Ho, Er. subst n'.
    exists (Pos 0 s'). split; [constructor|split; [reflexivity|assumption]].
  - destruct p' as [n' s'], F as [Ho Er]; cbn in Ho, Er.
    destruct s'; [|discriminate].
    exists (Pos n' []). split; [constructor|split; [assumption|reflexivity]].
  - destruct (IHmatches1 p' F) as (q' & M1 & F1).
    destruct (IHmatches2 q' F1) as (u' & M2 & F2).
    exists u'. split; [econstructor; eassumption|assumption].
  - destruct (IHmatches p' F) as (q' & M1 & F1).
    exists q'. split; [apply M_Alt_l; assumption|assumption].
  - destruct (IHmatches p' F) as (q' & M1 & F1).
    exists q'. split; [apply M_Alt_r; assumption|assumption].
  - exists p'. split; [constructor|assumption].
  - destruct (IHmatches1 p' F) as (q' & M1 & F1).
    destruct (IHmatches2 q' F1) as (u' & M2 & F2).
    exists u'. split; [eapply M_Star_more; eassumption|assumption].
Qed.

Lemma matchesIn_folded (re : RegExp) (a b : string) :
  ignoreCase re = true -> sameUpToCase a b -> matchesIn re a -> matchesIn re b.
Proof.
  unfold sameUpToCase, matchesIn. intros Hi Hab (before & after & q & E & M).
  rewrite E, map_app in Hab. symmetry in Hab.
  apply map_eq_app in Hab as (before' & after' & E' & Eb & Ea).
  rewrite Hi in M.
  destruct (matches_folded _ _ _ M (Pos (List.length before') after'))
    as (q' & M' & _).
  { split; cbn.
    - rewrite <- (length_map canonicalize before), <- Eb. apply length_map.
    - congruence. }
  exists before', after', q'. rewrite Hi. auto.
Qed.

Lemma table_ignores_case :
  Forall (fun i => ignoreCase (regex_of i) = true) indicatorTable.
Proof. repeat constructor. Qed.

(** X4: the detector ignores the case of ASCII letters: two bodies that
    differ at most in the case of their letters get the same indicators,
    since every signature has the [i] flag. *)
Theorem detection_ignores_letter_case :
  forall a b : string,
    sameUpToCase a b -> detectLfiIndicators a = detectLfiIndicators b.
Proof.
  intros a b Hab. rewrite !detectLfiIndicators_filter. f_equal.
  apply filter_ext_in. intros i Hi.
  pose proof table_ignores_case as Hic. rewrite List.Forall_forall in Hic.
  specialize (Hic i Hi).
  destruct (RegExp_test (regex_of i) a) eqn:Ea.
  - symmetry. apply RegExp_test_spec. apply RegExp_test_spec in Ea.
    eapply matchesIn_folded; eassumption.
  - destruct (RegExp_test (regex_of i) b) eqn:Eb; [|reflexivity].
    apply RegExp_test_spec in Eb.
    assert (Hba : sameUpToCase b a) by (unfold sameUpToCase in *; congruence).
    pose proof (matchesIn_folded _ _ _ Hic Hba Eb) as Ma.
    apply RegExp_test_spec in Ma. congruence.
Qed.

Lemma matches_shifted (ic : bool) (r : regex) (p q : pos) :
  matches ic r p q -> anchorFree r = true ->
  forall d post, matches ic r (shifted d post p) (shifted d post q).
Proof.
  induction 1; cbn [anchorFree]; intros Hfree d post; unfold shifted; cbn [offset rest];
    try discriminate;
    try (rewrite <- plus_n_Sm, <- app_comm_cons; constructor; assumption).
  - constructor.
  - apply andb_true_iff in Hfree as [F1 F2].
    eapply M_Seq; [apply IHmatches1|apply IHmatches2]; assumption.
  - apply andb_true_iff in Hfree as [F1 F2]. apply M_Alt_l. apply IHmatches, F1.
  - apply andb_true_iff in Hfree as [F1 F2]. apply M_Alt_r. apply IHmatches, F2.
  - constructor.
  - eapply M_Star_more; [apply IHmatches1|apply IHmatches2]; assumption.
Qed.

Lemma chars_append (a b : string) :
  list_ascii_of_string (a +:+ b)
  = list_ascii_of_string a ++ list_ascii_of_string b.
Proof. induction a as [|c a IH]; simpl; [reflexivity|]. rewrite IH. reflexivity. Qed.

Lemma matchesIn_embedded (re : RegExp) (pre body post : string) :
  anchorFree (source re) = true ->
  matchesIn re body -> matchesIn re (pre +:+ body +:+ post).
Proof.
  unfold matchesIn. intros Hfree (before & after & q & E & M).
  exists (list_ascii_of_string pre ++ before),
         (after ++ list_ascii_of_string post),
         (shifted (List.length (list_ascii_of_string pre))
                  (list_ascii_of_string post) q).
  split.
  - rewrite !chars_append, E, <- !app_assoc. reflexivity.
  - rewrite length_app.
    apply (matches_shifted _ _ _ _ M Hfree
             (List.length (list_ascii_of_string pre)) (list_ascii_of_string post)).
Qed.

Lemma table_anchors :
  Forall (fun i => label i = "Bash history"
                   \/ anchorFree (source (regex_of i)) = true)
         indicatorTable.
Proof. repeat constructor; (right; reflexivity) || (left; reflexivity). Qed.

Lemma detected_iff (body l : string) :
  In l (detectLfiIndicators body) <->
  exists i, In i indicatorTable /\ label i = l /\ matchesIn (regex_of i) body.
Proof.
  rewrite detectLfiIndicators_filter, in_map_iff. split.
  - intros (i & El & Hi). apply filter_In in Hi as [Hi Ht].
    exists i. split; [assumption|]. split; [assumption|].
    apply RegExp_test_spec. assumption.
  - intros (i & Hi & El & Hm). exists i. split; [assumption|].
    apply filter_In. split; [assumption|]. apply RegExp_test_spec. assumption.
Qed.

(** X5: an indicator other than Bash history that is found in a body is
    found in every text that contains the body: only the Bash history
    signature is anchored to the start of the text. *)
Theorem indicators_survive_embedding :
  forall (pre body post l : string),
    In l (detectLfiIndicators body) -> l <> "Bash history" ->
    In l (detectLfiIndicators (pre +:+ body +:+ post)).
Proof.
  intros pre body post l Hin Hne.
  apply detected_iff in Hin as (i & Hi & El & M). apply detected_iff.
  exists i. split; [assumption|]. split; [assumption|].
  pose proof table_anchors as Ha. rewrite List.Forall_forall in Ha.
  destruct (Ha i Hi) as [Eb|Hfree]; [congruence|].
  apply matchesIn_embedded; assumption.
Qed.

(** The anchored signature is the exception. *)
Lemma bash_history_is_anchored :
  In "Bash history" (detectLfiIndicators "ls -la") /\
  ~ In "Bash history" (detectLfiIndicators ("$ " +:+ "ls -la" +:+ "")).
Proof. split; [vm_compute; auto|]. vm_compute. tauto. Qed.

Lemma matches_Seq_front (ic : bool) (a b c d : regex) (p q : pos) :
  matches ic (Seq a (Seq b (Seq c d))) p q ->
  exists q', matches ic (Seq a (Seq b c)) p q'.
Proof.
  intros M. inversion M as [| | | | | | | |? ? ? m1 ? Ma M1| | | |]; subst.
  inversion M1 as [| | | | | | | |? ? ? m2 ? Mb M2| | | |]; subst.
  inversion M2 as [| | | | | | | |? ? ? m3 ? Mc Md| | | |]; subst.
  exists m3. eapply M_Seq; [eassumption|]. eapply M_Seq; eassumption.
Qed.

(** X6: whenever the detector reports Windows hosts it reports Unix hosts
    file as well: the Windows signature starts with the first alternative of
    the Unix one. *)
Theorem windows_hosts_implies_unix_hosts :
  forall body : string,
    In "Windows hosts" (detectLfiIndicators body) ->
    In "Unix hosts file" (detectLfiIndicators body).
Proof.
  intros body Hin. apply detected_iff in Hin as (i & Hi & El & M).
  apply detected_iff.
  exists (sig "Unix hosts file"
            ("127.0.0.1" ++ Plus Space ++ "localhost"
             <|> "::1" ++ Plus Space ++ "localhost")%re).
  split; [cbn; tauto|]. split; [reflexivity|].
  cbn in Hi.
  repeat (destruct Hi as [<-|Hi]; [try discriminate El|]); [|destruct Hi].
  destruct M as (before & after & q & E & M).
  apply matches_Seq_front in M as (q' & M).
  exists before, after, q'. split; [assumption|].
  apply M_Alt_l. exact M.
Qed.

(** * The payload catalog *)

Import lfiPayloads.

Lemma LfiPayloadCategoryId_eqb_eq (a b : LfiPayloadCategoryId) :
  LfiPayloadCategoryId_eqb a b = true <-> a = b.
Proof. destruct a, b; simpl; split; congruence. Qed.

Lemma categoriesToUse_some (i : LfiPayloadCategoryId)
    (ids : list LfiPayloadCategoryId) :
  categoriesToUse (Some (i :: ids))
  = List.filter (fun c => existsb (LfiPayloadCategoryId_eqb (id c)) (i :: ids))
                LFI_PAYLOAD_CATEGORIES.
Proof. reflexivity. Qed.

Lemma categoriesToUse_selected (sel : option (list LfiPayloadCategoryId))
    (c : LfiPayloadCategory) :
  In c (categoriesToUse sel) <-> In c LFI_PAYLOAD_CATEGORIES /\ selected sel c.
Proof.
  destruct sel as [[|i ids]|]; [simpl; tauto| |simpl; tauto].
  rewrite categoriesToUse_some. unfold selected.
  rewrite filter_In, existsb_exists. split.
  - intros [Hc (j & Hj & E)]. apply LfiPayloadCategoryId_eqb_eq in E.
    split; [assumption|congruence].
  - intros [Hc Hs]. split; [assumption|]. exists (id c).
    split; [assumption|]. apply LfiPayloadCategoryId_eqb_eq. reflexivity.
Qed.



Lemma categoriesToUse_in_order (sel : option (list LfiPayloadCategoryId)) :
  sublist (categoriesToUse sel) LFI_PAYLOAD_CATEGORIES.
Proof.
  destruct sel as [[|i ids]|]; [reflexivity| |reflexivity].
  rewrite categoriesToUse_some. apply filter_sublist.
Qed.

(** C9: for every selection of categories, the payload list has no duplicate,
    its entries are exactly the payloads the selected categories declare (all
    six categories when the selection is omitted or empty), and it is the
    flattening of the selected categories, in declaration order, deduplicated
    with every entry kept where it is first seen. *)
Theorem buildLfiPayloadList_flatten_dedup :
  forall sel : option (list LfiPayloadCategoryId),
    List.NoDup (buildLfiPayloadList sel) /\
    (forall p, In p (buildLfiPayloadList sel) <->
               exists c, In c LFI_PAYLOAD_CATEGORIES /\ selected sel c /\
                         In p (payloads c)) /\
    buildLfiPayloadList sel
    = dedupFirstSeen (flat_map payloads (categoriesToUse sel)) /\
    sublist (categoriesToUse sel) LFI_PAYLOAD_CATEGORIES /\
    (forall c, In c (categoriesToUse sel) <->
               In c LFI_PAYLOAD_CATEGORIES /\ selected sel c) /\
    categoriesToUse None = LFI_PAYLOAD_CATEGORIES /\
    categoriesToUse (Some []) = LFI_PAYLOAD_CATEGORIES /\
    List.length LFI_PAYLOAD_CATEGORIES = 6.
Proof.
  intros sel. unfold buildLfiPayloadList. rewrite Array_from_Set_dedup.
  split; [apply dedupFirstSeen_NoDup|].
  split.
  { intros p. rewrite dedupFirstSeen_In, in_flat_map. split.
    - intros (c & Hc & Hp). apply categoriesToUse_selected in Hc as [Hc Hs].
      exists c. auto.
    - intros (c & Hc & Hs & Hp). exists c. split; [|assumption].
      apply categoriesToUse_selected. auto. }
  split; [reflexivity|].
  split; [apply categoriesToUse_in_order|].
  split; [apply categoriesToUse_selected|].
  repeat split; reflexivity.
Qed.

(** * The orchestrator *)

Lemma probeAnswers_app (network : nat -> string -> option Response)
    (a b : list Probe) :
  forall start,
    probeAnswers network start (a ++ b)
    = probeAnswers network start a
      ++ probeAnswers network (start + List.length a) b.
Proof.
  induction a as [|t a IH]; intros start; simpl.
  - rewrite Nat.add_0_r. reflexivity.
  - rewrite IH. do 3 f_equal. lia.
Qed.

Lemma probeAnswers_length (network : nat -> string -> option Response)
    (plan : list Probe) :
  forall start, List.length (probeAnswers network start plan) = List.length plan.
Proof. induction plan; intros; simpl; auto. Qed.

Lemma probeAnswers_plan (network : nat -> string -> option Response)
    (plan : list Probe) :
  forall start, List.map fst (probeAnswers network start plan) = plan.
Proof. induction plan; intros; simpl; f_equal; auto. Qed.

Lemma recorded_app baseline ov (a b : list (Probe * option Response)) :
  recorded baseline ov (a ++ b) = recorded baseline ov a ++ recorded baseline ov b.
Proof. unfold recorded. apply flat_map_app. Qed.

Lemma transcriptOf_app (a b : list (Probe * option Response)) :
  transcriptOf (a ++ b) = transcriptOf a ++ transcriptOf b.
Proof. unfold transcriptOf. apply map_app. Qed.

Lemma transcriptOf_length (a : list (Probe * option Response)) :
  List.length (transcriptOf a) = List.length a.
Proof. unfold transcriptOf. apply length_map. Qed.

Lemma probeOf_analyzeResponse baseline ov (p u l : string) (res : Response) :
  probeOf (analyzeResponse baseline ov p u l res) = (p, (u, l)).
Proof.
  unfold analyzeResponse. destruct (analyzeLfiHeuristics _ _ _ _ _). reflexivity.
Qed.

(** One result per answer received. *)
Lemma recorded_answered baseline ov (pas : list (Probe * option Response)) :
  List.map probeOf (recorded baseline ov pas)
  = List.map fst (List.filter (fun pa => answered (snd pa)) pas).
Proof.
  induction pas as [|[[p [u l]] [res|]] pas IH].
  - reflexivity.
  - change (recorded baseline ov ((p, (u, l), Some res) :: pas))
      with (analyzeResponse baseline ov p u l res :: recorded baseline ov pas).
    cbn [List.map List.filter answered snd fst].
    rewrite probeOf_analyzeResponse, IH. reflexivity.
  - exact IH.
Qed.

Lemma recorded_length baseline ov (pas : list (Probe * option Response)) :
  List.length (recorded baseline ov pas)
  = List.length (List.filter (fun pa => answered (snd pa)) pas).
Proof.
  rewrite <- (length_map probeOf), recorded_answered. apply length_map.
Qed.

Lemma recorded_from_responses baseline ov (pas : list (Probe * option Response)) :
  Forall (fun r => exists p u l res,
                     r = analyzeResponse baseline ov p u l res)
         (recorded baseline ov pas).
Proof.
  induction pas as [|[[p [u l]] [res|]] pas IH]; simpl.
  - constructor.
  - unfold recorded in *. simpl. constructor; [|assumption].
    exists p, u, l, res. reflexivity.
  - assumption.
Qed.

Section ScanFacts.

Variable new_URL : string -> option URL.
Variable URL_toString : URL -> string.
Variable network : nat -> string -> option Response.

Lemma fetchBaseline_run (target : string) (tr : Transcript) :
  fetchBaseline network target tr
  = (baselineOf (network (List.length tr) target),
     tr ++ [(target, network (List.length tr) target)]).
Proof.
  unfold fetchBaseline, bind, fetchWithTimeout, baselineOf, ret.
  destruct (network (List.length tr) target); reflexivity.
Qed.

Lemma sweep_run baseline ov (p : string) (total : nat)
    (tus : list (string * string)) :
  forall (st : SweepState) (tr : Transcript),
  exists popup',
    sweep network baseline ov p total tus st tr
    = (mkSweep
         (sw_results st
          ++ recorded baseline ov
               (probeAnswers network (List.length tr) (List.map (pair p) tus)))
         (sw_perParameterSummary st)
         (sw_paramVulnerableCount st
          + List.length
              (List.filter vulnerable
                 (recorded baseline ov
                    (probeAnswers network (List.length tr) (List.map (pair p) tus)))))
         (sw_currentIndex st + List.length tus)
         popup',
       tr ++ transcriptOf
               (probeAnswers network (List.length tr) (List.map (pair p) tus)))
    /\ error popup' = error (sw_popup st).
Proof.
  induction tus as [|[testUrl payload_] tus IH]; intros st tr.
  - exists (sw_popup st). simpl. unfold ret.
    rewrite !app_nil_r, !Nat.add_0_r. destruct st; auto.
  - cbn [sweep]. unfold bind at 1. unfold fetchWithTimeout at 1.
    cbn [List.map probeAnswers]. unfold probeUrl at 1 2 3. cbn [fst snd].
    set (res := network (List.length tr) testUrl).
    match goal with
    | |- context [sweep _ _ _ _ _ _ ?st' ?tr'] =>
        destruct (IH st' tr') as (popup' & Erun & Eerr)
    end.
    exists popup'. rewrite Erun. clear Erun IH.
    replace (List.length (tr ++ [(testUrl, res)])) with (S (List.length tr))
      by (rewrite length_app; simpl; lia).
    set (pas := probeAnswers network (S (List.length tr)) (List.map (pair p) tus)).
    split.
    + destruct res as [res|]; unfold recorded at 3 4; cbn [flat_map snd fst];
        fold (recorded baseline ov pas); cbn [sw_results sw_perParameterSummary
          sw_paramVulnerableCount sw_currentIndex sw_popup];
        rewrite <- ?app_assoc; cbn [app transcriptOf List.map fst snd];
        unfold probeUrl at 1; cbn [fst snd]; f_equal.
      * f_equal; [|simpl; lia].
        cbn [List.filter]. destruct (vulnerable _); simpl; lia.
      * f_equal. simpl. lia.
    + rewrite Eerr. destruct res; reflexivity.
Qed.


Lemma mapThrowing_some {A B : Type} (f : A -> option B) (g : A -> B) (l : list A) :
  (forall a, In a l -> f a = Some (g a)) -> mapThrowing f l = Some (List.map g l).
Proof.
  induction l as [|a l IH]; intros H; simpl; [reflexivity|].
  rewrite (H a) by (left; reflexivity).
  rewrite IH by (intros; apply H; right; assumption). reflexivity.
Qed.

Lemma mapThrowing_length {A B : Type} (f : A -> option B) (l : list A)
    (bs : list B) :
  mapThrowing f l = Some bs -> List.length bs = List.length l.
Proof.
  revert bs. induction l as [|a l IH]; intros bs; simpl.
  - intros [= <-]. reflexivity.
  - destruct (f a); [|discriminate].
    destruct (mapThrowing f l); [|discriminate].
    intros [= <-]. simpl. f_equal. auto.
Qed.

Lemma buildLfiTestUrls_length (target p : string) (L : list string)
    (tus : list (string * string)) :
  buildLfiTestUrls new_URL URL_toString target p L = Some tus ->
  List.length tus = List.length L.
Proof.
  unfold buildLfiTestUrls. destruct (new_URL target); [|discriminate].
  apply mapThrowing_length.
Qed.

(** When the serialised base parses back to itself, the test URLs are the
    base with the parameter set or appended. *)
Lemma buildLfiTestUrls_reparse (target p : string) (L : list string) (u : URL) :
  new_URL target = Some u ->
  new_URL (URL_toString u) = Some u ->
  buildLfiTestUrls new_URL URL_toString target p L
  = Some (List.map
            (fun l => (URL_toString
                         (if includes (URLSearchParams_keys u) p
                          then URLSearchParams_set u p l
                          else URLSearchParams_append u p l), l))
            L).
Proof.
  intros Hu Hre. unfold buildLfiTestUrls. rewrite Hu.
  apply mapThrowing_some. intros l _. unfold testUrlFor. rewrite Hre.
  reflexivity.
Qed.

Lemma plannedTests_length (target : string) (L P : list string) :
  forall plan,
    plannedTests new_URL URL_toString target L P = Some plan ->
    List.length plan = List.length P * List.length L.
Proof.
  induction P as [|p P IH]; intros plan; simpl.
  - intros [= <-]. reflexivity.
  - destruct (buildLfiTestUrls _ _ _ _ _) as [tus|] eqn:Eb; [|discriminate].
    destruct (plannedTests _ _ _ _ _) as [more|]; [|discriminate].
    intros [= <-]. rewrite length_app, length_map.
    pose proof (IH more eq_refl) as Emore. unfold Probe in *. rewrite Emore.
    rewrite (buildLfiTestUrls_length _ _ _ _ Eb). reflexivity.
Qed.

Lemma plannedTests_reparse (target : string) (L P : list string) (u : URL) :
  new_URL target = Some u ->
  new_URL (URL_toString u) = Some u ->
  plannedTests new_URL URL_toString target L P
  = Some (testMatrix URL_toString u P L).
Proof.
  intros Hu Hre. induction P as [|p P IH]; simpl; [reflexivity|].
  rewrite (buildLfiTestUrls_reparse _ _ _ _ Hu Hre), IH.
  rewrite map_map. reflexivity.
Qed.

Lemma scan_run (target : string) baseline ov (L : list string) (total : nat) :
  forall (P : list string) (st : SweepState) (tr : Transcript)
         (st' : SweepState) (tr' : Transcript),
    scanParameters new_URL URL_toString network target baseline ov L total P st tr
    = (Some st', tr') ->
    exists plan,
      plannedTests new_URL URL_toString target L P = Some plan /\
      tr' = tr ++ transcriptOf (probeAnswers network (List.length tr) plan) /\
      sw_results st'
      = sw_results st
        ++ recorded baseline ov (probeAnswers network (List.length tr) plan) /\
      list_sum (List.map p_vulnerableCount (sw_perParameterSummary st'))
      = list_sum (List.map p_vulnerableCount (sw_perParameterSummary st))
        + List.length
            (List.filter vulnerable
               (recorded baseline ov (probeAnswers network (List.length tr) plan))) /\
      List.map name (sw_perParameterSummary st')
      = List.map name (sw_perParameterSummary st) ++ P /\
      List.map p_totalTests (sw_perParameterSummary st')
      = List.map p_totalTests (sw_perParameterSummary st)
        ++ List.map (fun _ => List.length L) P /\
      error (sw_popup st') = error (sw_popup st).
Proof.
  induction P as [|p P IH]; intros st tr st' tr' Hrun.
  - simpl in Hrun. unfold ret in Hrun. injection Hrun as <- <-.
    exists []. simpl. rewrite !app_nil_r, Nat.add_0_r. auto 10.
  - cbn [scanParameters] in Hrun. cbn [plannedTests].
    destruct (buildLfiTestUrls new_URL URL_toString target p L) as [tus|] eqn:Eb;
      [|discriminate].
    unfold bind at 1 in Hrun.
    match type of Hrun with
    | context [sweep _ _ _ _ _ _ ?st0 _] =>
        destruct (sweep_run baseline ov p total tus st0 tr)
          as (popup' & Esweep & Eerr)
    end.
    rewrite Esweep in Hrun. clear Esweep.
    cbn [sw_results sw_perParameterSummary sw_paramVulnerableCount
         sw_currentIndex sw_popup] in Hrun, Eerr.
    apply IH in Hrun as (more & Eplan & Etr & Eres & Esum & Enames & Etot & Eerr').
    clear IH.
    cbn [sw_results sw_perParameterSummary sw_paramVulnerableCount
         sw_currentIndex sw_popup] in *.
    rewrite Eplan. exists (List.map (pair p) tus ++ more).
    rewrite length_app, transcriptOf_length, probeAnswers_length, length_map
      in Etr, Eres, Esum.
    rewrite probeAnswers_app, length_map, recorded_app, transcriptOf_app.
    rewrite List.filter_app, length_app.
    rewrite !map_app in Esum, Enames, Etot. rewrite list_sum_app in Esum.
    cbn [List.map list_sum p_vulnerableCount name p_totalTests] in Esum, Enames, Etot.
    rewrite <- !app_assoc in *. cbn [app] in *.
    rewrite (buildLfiTestUrls_length _ _ _ _ Eb) in Etot.
    repeat split; try assumption; try congruence.
    assert (Hone : forall x, list_sum [x] = x) by (intros; simpl; lia).
    rewrite Hone in Esum. lia.
Qed.


Lemma handleRunLfi_completed (s : PopupState) (tr0 : Transcript)
    (s' : PopupState) (tr : Transcript) (summary : LfiScanSummary) :
  handleRunLfi new_URL URL_toString network s tr0 = (s', tr) ->
  completed s' summary ->
  exists u plan,
    new_URL (targetUrlOf s) = Some u /\
    wordlist s <> [] /\
    paramsToTestOf s u <> [] /\
    plannedTests new_URL URL_toString (targetUrlOf s) (payloadListOf s)
                 (paramsToTestOf s u) = Some plan /\
    tr = tr0
         ++ (targetUrlOf s, network (List.length tr0) (targetUrlOf s))
            :: transcriptOf (probeAnswers network (S (List.length tr0)) plan) /\
    baseUrl summary = targetUrlOf s /\
    totalTests summary
    = List.length (paramsToTestOf s u) * List.length (payloadListOf s) /\
    results summary
    = recorded (baselineOf (network (List.length tr0) (targetUrlOf s)))
               (originalValuesOf u (paramsToTestOf s u))
               (probeAnswers network (S (List.length tr0)) plan) /\
    vulnerableCount summary
    = List.length (List.filter vulnerable (results summary)) /\
    list_sum (List.map p_vulnerableCount (parametersTested summary))
    = List.length (List.filter vulnerable (results summary)) /\
    List.map name (parametersTested summary) = paramsToTestOf s u /\
    List.map p_totalTests (parametersTested summary)
    = List.map (fun _ => List.length (payloadListOf s)) (paramsToTestOf s u).
Proof.
  intros Hrun [Herr Hsum]. unfold handleRunLfi in Hrun.
  destruct (nonEmpty (targetUrlOf s)) eqn:Et; cbn [negb] in Hrun;
    [|injection Hrun as <- <-; discriminate Herr].
  destruct (new_URL (targetUrlOf s)) as [u|] eqn:Eu;
    [|injection Hrun as <- <-; discriminate Herr].
  destruct (Nat.eqb (List.length (wordlist s)) 0) eqn:Ew;
    [injection Hrun as <- <-; discriminate Herr|].
  cbv zeta in Hrun.
  change (paramsToTestOf (setLfiResults None (setLfiLoading true (setError "" s))) u)
    with (paramsToTestOf s u) in Hrun.
  change (payloadListOf (setLfiResults None (setLfiLoading true (setError "" s))))
    with (payloadListOf s) in Hrun.
  destruct (Nat.eqb (List.length (paramsToTestOf s u)) 0) eqn:Ep;
    [injection Hrun as <- <-; discriminate Herr|].
  unfold bind in Hrun. rewrite fetchBaseline_run in Hrun.
  match type of Hrun with
  | context [scanParameters ?a ?b ?c ?d ?e ?f ?g ?h ?i ?j ?k] =>
      destruct (scanParameters a b c d e f g h i j k) as [[st|] tr1] eqn:Escan
  end; [|injection Hrun as <- <-; discriminate Herr].
  apply scan_run in Escan
    as (plan & Eplan & Etr & Eres & Ecount & Enames & Etot & Eerr).
  unfold ret in Hrun. injection Hrun as <- <-.
  cbn in Hsum. injection Hsum as <-.
  cbn [sw_results sw_perParameterSummary] in Eres, Ecount, Enames, Etot.
  rewrite length_app in Etr, Eres, Ecount. cbn [List.length] in Etr, Eres, Ecount.
  replace (List.length tr0 + 1) with (S (List.length tr0)) in * by lia.
  exists u, plan. cbn [baseUrl totalTests results vulnerableCount parametersTested].
  cbn [app List.map list_sum] in *.
  rewrite <- app_assoc in Etr. cbn [app] in Etr.
  repeat split; try assumption.
  - intros E. rewrite E in Ew. discriminate.
  - intros E. rewrite E in Ep. discriminate.
  - rewrite Ecount, Eres. reflexivity.
Qed.

Lemma scan_total (target : string) baseline ov (L : list string) (total : nat) :
  forall (P : list string) (st : SweepState) (tr : Transcript) (plan : list Probe),
    plannedTests new_URL URL_toString target L P = Some plan ->
    exists st' tr',
      scanParameters new_URL URL_toString network target baseline ov L total P st tr
      = (Some st', tr').
Proof.
  induction P as [|p P IH]; intros st tr plan Eplan.
  - exists st, tr. reflexivity.
  - cbn [plannedTests] in Eplan. cbn [scanParameters].
    destruct (buildLfiTestUrls new_URL URL_toString target p L) as [tus|];
      [|discriminate].
    destruct (plannedTests new_URL URL_toString target L P) as [more|];
      [|discriminate].
    unfold bind at 1.
    match goal with
    | |- context [sweep _ _ _ _ _ _ ?st0 _] =>
        destruct (sweep_run baseline ov p total tus st0 tr) as (popup' & Esweep & _)
    end.
    rewrite Esweep. eapply IH. reflexivity.
Qed.

(** A scan with a target that parses (and parses back once serialised), a
    loaded wordlist and a parameter to test runs to its summary. *)
Lemma handleRunLfi_completes (s : PopupState) (tr0 : Transcript) (u : URL) :
  nonEmpty (targetUrlOf s) = true ->
  new_URL (targetUrlOf s) = Some u ->
  new_URL (URL_toString u) = Some u ->
  wordlist s <> [] ->
  paramsToTestOf s u <> [] ->
  exists summary,
    completed (fst (handleRunLfi new_URL URL_toString network s tr0)) summary.
Proof.
  intros Ht Hu Hre Hw Hp. unfold handleRunLfi. rewrite Ht, Hu. cbn [negb].
  destruct (wordlist s) as [|w ws] eqn:Ews; [congruence|].
  cbn [List.length Nat.eqb]. cbv zeta.
  change (paramsToTestOf (setLfiResults None (setLfiLoading true (setError "" s))) u)
    with (paramsToTestOf s u).
  change (payloadListOf (setLfiResults None (setLfiLoading true (setError "" s))))
    with (payloadListOf s).
  destruct (paramsToTestOf s u) as [|p P] eqn:EP; [congruence|].
  cbn [List.length Nat.eqb].
  unfold bind. rewrite fetchBaseline_run.
  match goal with
  | |- context [scanParameters ?a ?b ?c ?d ?e ?f ?g ?h ?i ?j ?k] =>
      destruct (scan_total d e f g h i j k _
                  (plannedTests_reparse d g i u Hu Hre))
        as (st' & tr' & Escan)
  end.
  rewrite Escan.
  apply scan_run in Escan as (_ & _ & _ & _ & _ & _ & _ & Eerr).
  eexists. split; [|reflexivity]. cbn. exact Eerr.
Qed.

End ScanFacts.

(** * What a probe records *)

Lemma analyzeResponse_fields baseline ov (p u l : string) (res : Response) :
  forall r, r = analyzeResponse baseline ov p u l res ->
    (detection r, confidence r)
    = analyzeLfiHeuristics (indicators r) (fst baseline) (snd baseline)
                           (status r) (contentLength r) /\
    vulnerable r = negb (Detection_eqb (detection r) NOT_VULNERABLE) /\
    status r = res_status res /\
    (Response_ok res = false ->
     contentLength r = 0%Z /\ indicators r = [] /\ sample r = "").
Proof.
  intros r ->. unfold analyzeResponse.
  destruct (Response_ok res) eqn:Eok.
  - destruct (analyzeLfiHeuristics _ _ _ _ _) as [d c] eqn:E.
    cbn [detection confidence indicators status contentLength vulnerable sample].
    rewrite E. repeat split; discriminate.
  - rewrite detectLfiIndicators_empty.
    destruct (analyzeLfiHeuristics _ _ _ _ _) as [d c] eqn:E.
    cbn [detection confidence indicators status contentLength vulnerable sample].
    rewrite E. repeat split; reflexivity.
Qed.

Lemma vulnerable_verdict (d : Detection) :
  negb (Detection_eqb d NOT_VULNERABLE) = true <->
  d = CONFIRMED_LFI \/ d = POSSIBLE_LFI \/ d = SUSPICIOUS.
Proof.
  destruct d; simpl; split; auto; try discriminate.
  intros [H|[H|H]]; discriminate.
Qed.

Lemma analyze_without_baseline (inds : list string) (st len : Z) :
  analyzeLfiHeuristics inds None None st len
  = if Nat.ltb 0 (List.length inds) then (CONFIRMED_LFI, High)
    else (NOT_VULNERABLE, Low).
Proof. unfold analyzeLfiHeuristics. destruct (Nat.ltb 0 _); reflexivity. Qed.

Lemma analyze_empty_body (bs : option Z) (bl st : Z) :
  (0 < bl)%Z ->
  analyzeLfiHeuristics [] bs (Some bl) st 0 = (POSSIBLE_LFI, Medium).
Proof.
  intros Hpos. unfold analyzeLfiHeuristics. cbn [List.length Nat.ltb Nat.leb].
  assert (H : Z.ltb 0 bl && negb (Qle_bool (diffRatio 0 bl) (3 # 10)) = true).
  { apply andb_true_iff. split; [apply Z.ltb_lt; assumption|].
    apply ratio_test, diffRatio_exceeds; lia. }
  rewrite H. reflexivity.
Qed.

Lemma analyze_no_indicators_not_confirmed (bs bl : option Z) (st len : Z) :
  fst (analyzeLfiHeuristics [] bs bl st len) <> CONFIRMED_LFI.
Proof.
  unfold analyzeLfiHeuristics. cbn [List.length Nat.ltb Nat.leb].
  destruct (match bl with Some _ => _ | None => _ end);
    [discriminate|].
  destruct (match bs with Some _ => _ | None => _ end); discriminate.
Qed.

Lemma Response_ok_range (res : Response) :
  Response_ok res = false <-> (res_status res < 200 \/ 299 < res_status res)%Z.
Proof.
  unfold Response_ok. rewrite andb_false_iff, !Z.leb_gt. reflexivity.
Qed.

(** A response that is not ok is analysed on the empty body. *)
Lemma non_ok_response_is_analysed_empty (answer : option Response) ov
    (p u l : string) (res : Response) :
  forall r,
    r = analyzeResponse (baselineOf answer) ov p u l res ->
    Response_ok res = false ->
    status r = res_status res /\
    contentLength r = 0%Z /\ indicators r = [] /\ sample r = "" /\
    detection r <> CONFIRMED_LFI /\
    (forall baselineRes,
       answer = Some baselineRes ->
       Response_ok baselineRes = true ->
       0 < String.length (safeReadText baselineRes) ->
       diffRatio (contentLength r)
                 (Z.of_nat (String.length (safeReadText baselineRes)))
       == 1 /\
       detection r = POSSIBLE_LFI /\ confidence r = Medium).
Proof.
  intros r Er Hok.
  apply analyzeResponse_fields in Er as (Ev & _ & Est & Hempty).
  destruct (Hempty Hok) as (El & Ei & Es).
  rewrite El, Ei in Ev.
  split; [assumption|].
  split; [assumption|]. split; [assumption|]. split; [assumption|].
  split.
  - pose proof (analyze_no_indicators_not_confirmed
                  (fst (baselineOf answer)) (snd (baselineOf answer))
                  (status r) 0) as Hn.
    rewrite <- Ev in Hn. exact Hn.
  - intros bres Eb Hokb Hlen. rewrite Eb in Ev. unfold baselineOf in Ev.
    rewrite Hokb in Ev. cbn [fst snd] in Ev.
    rewrite analyze_empty_body in Ev by lia.
    injection Ev as -> ->. split; [|split; reflexivity].
    rewrite El. unfold diffRatio.
    rewrite Z.sub_0_l, Z.abs_opp, Z.abs_eq by lia.
    apply Qmult_inv_r. intros H0.
    assert (Hz : (Z.of_nat (String.length (safeReadText bres)) = 0)%Z).
    { unfold Qeq in H0. simpl in H0. lia. }
    lia.
Qed.

Section Claims.

Variable new_URL : string -> option URL.
Variable URL_toString : URL -> string.
Variable network : nat -> string -> option Response.

(** C2: the summary of a scan over the parameters P and the payload list L
    has totalTests = |P| x |L|, the size of the planned matrix, however many
    probe fetches succeed: |P| x |L| probes are issued after the baseline
    request, and the results are the answered probes, one each, so a failed
    fetch only leaves its own result out.  With one parameter and three
    payloads totalTests is 3, and with exactly one failed fetch there are two
    results. *)
Theorem totalTests_is_planned_matrix_size :
  forall (s : PopupState) (tr0 : Transcript) (s' : PopupState) (tr : Transcript)
         (summary : LfiScanSummary),
    handleRunLfi new_URL URL_toString network s tr0 = (s', tr) ->
    completed s' summary ->
    exists u probes,
      new_URL (targetUrlOf s) = Some u /\
      tr = tr0
           ++ (targetUrlOf s, network (List.length tr0) (targetUrlOf s))
              :: transcriptOf probes /\
      List.length probes
      = List.length (paramsToTestOf s u) * List.length (payloadListOf s) /\
      totalTests summary
      = List.length (paramsToTestOf s u) * List.length (payloadListOf s) /\
      List.map probeOf (results summary)
      = List.map fst (List.filter (fun pa => answered (snd pa)) probes) /\
      List.length (results summary)
      + List.length (List.filter (fun pa => negb (answered (snd pa))) probes)
      = totalTests summary /\
      (List.length (paramsToTestOf s u) = 1 ->
       List.length (payloadListOf s) = 3 ->
       totalTests summary = 3 /\
       (List.length (List.filter (fun pa => negb (answered (snd pa))) probes) = 1 ->
        List.length (results summary) = 2)).
Proof.
  intros s tr0 s' tr summary Hrun Hdone.
  destruct (handleRunLfi_completed _ _ _ _ _ _ _ _ Hrun Hdone)
    as (u & plan & Eu & _ & _ & Eplan & Etr & _ & Etotal & Eres & _).
  exists u, (probeAnswers network (S (List.length tr0)) plan).
  pose proof (plannedTests_length _ _ _ _ _ _ Eplan) as Elen.
  assert (Esplit : List.length (results summary)
                   + List.length (List.filter (fun pa => negb (answered (snd pa)))
                                    (probeAnswers network (S (List.length tr0)) plan))
                   = totalTests summary).
  { rewrite Eres, recorded_length, Etotal, <- Elen, filter_split_length.
    apply probeAnswers_length. }
  split; [assumption|]. split; [assumption|].
  split; [rewrite probeAnswers_length; assumption|].
  split; [assumption|].
  split; [rewrite Eres; apply recorded_answered|].
  split; [assumption|].
  intros E1 E3. rewrite E1, E3 in Etotal. simpl in Etotal.
  split; [assumption|]. intros Efail. lia.
Qed.

(** C3: the summary's vulnerableCount is the number of its results whose
    detection is not NOT_VULNERABLE, and it is the sum of the vulnerableCount
    fields of the per-parameter entries. *)
Theorem vulnerableCount_counts_detections :
  forall (s : PopupState) (tr0 : Transcript) (s' : PopupState) (tr : Transcript)
         (summary : LfiScanSummary),
    handleRunLfi new_URL URL_toString network s tr0 = (s', tr) ->
    completed s' summary ->
    vulnerableCount summary
    = List.length
        (List.filter (fun r => negb (Detection_eqb (detection r) NOT_VULNERABLE))
                     (results summary)) /\
    vulnerableCount summary
    = list_sum (List.map p_vulnerableCount (parametersTested summary)).
Proof.
  intros s tr0 s' tr summary Hrun Hdone.
  destruct (handleRunLfi_completed _ _ _ _ _ _ _ _ Hrun Hdone)
    as (u & plan & _ & _ & _ & _ & _ & _ & _ & Eres & Ecount & Esum & _).
  split; [|congruence].
  rewrite Ecount. f_equal. apply filter_ext_in. intros r Hr.
  rewrite Eres in Hr.
  pose proof (recorded_from_responses
                (baselineOf (network (List.length tr0) (targetUrlOf s)))
                (originalValuesOf u (paramsToTestOf s u))
                (probeAnswers network (S (List.length tr0)) plan)) as Hall.
  rewrite List.Forall_forall in Hall.
  destruct (Hall r Hr) as (p & tu & l & res & Er).
  apply analyzeResponse_fields in Er. tauto.
Qed.

(** C4: every result of a scan has vulnerable = (detection is not
    NOT_VULNERABLE): the flag is true exactly when the verdict is
    CONFIRMED_LFI, POSSIBLE_LFI or SUSPICIOUS. *)
Theorem vulnerable_flag_is_verdict :
  forall (s : PopupState) (tr0 : Transcript) (s' : PopupState) (tr : Transcript)
         (summary : LfiScanSummary),
    handleRunLfi new_URL URL_toString network s tr0 = (s', tr) ->
    completed s' summary ->
    Forall (fun r =>
              vulnerable r = negb (Detection_eqb (detection r) NOT_VULNERABLE) /\
              (vulnerable r = true <->
               detection r = CONFIRMED_LFI \/ detection r = POSSIBLE_LFI \/
               detection r = SUSPICIOUS))
           (results summary).
Proof.
  intros s tr0 s' tr summary Hrun Hdone.
  destruct (handleRunLfi_completed _ _ _ _ _ _ _ _ Hrun Hdone)
    as (u & plan & _ & _ & _ & _ & _ & _ & _ & Eres & _).
  rewrite Eres.
  eapply List.Forall_impl; [|apply recorded_from_responses].
  intros r (p & tu & l & res & Er).
  apply analyzeResponse_fields in Er as (_ & Ev & _).
  split; [assumption|]. rewrite Ev. apply vulnerable_verdict.
Qed.

(** C5: when the baseline fetch fails both baseline fields are null; a
    classification with both null skips rules 2 and 3, so it is
    CONFIRMED_LFI/High when there are indicators and NOT_VULNERABLE/Low
    otherwise, and so is every result of such a scan. *)
Theorem failed_baseline_leaves_rules_1_and_4 :
  forall (s : PopupState) (tr0 : Transcript) (s' : PopupState) (tr : Transcript)
         (summary : LfiScanSummary),
    handleRunLfi new_URL URL_toString network s tr0 = (s', tr) ->
    completed s' summary ->
    network (List.length tr0) (targetUrlOf s) = None ->
    fst (fetchBaseline network (targetUrlOf s) tr0) = (None, None) /\
    (forall (inds : list string) (st len : Z),
       analyzeLfiHeuristics inds None None st len
       = if Nat.ltb 0 (List.length inds) then (CONFIRMED_LFI, High)
         else (NOT_VULNERABLE, Low)) /\
    Forall (fun r =>
              (detection r, confidence r)
              = if Nat.ltb 0 (List.length (indicators r))
                then (CONFIRMED_LFI, High) else (NOT_VULNERABLE, Low))
           (results summary).
Proof.
  intros s tr0 s' tr summary Hrun Hdone Hdown.
  destruct (handleRunLfi_completed _ _ _ _ _ _ _ _ Hrun Hdone)
    as (u & plan & _ & _ & _ & _ & _ & _ & _ & Eres & _).
  split; [rewrite fetchBaseline_run, Hdown; reflexivity|].
  split; [exact analyze_without_baseline|].
  rewrite Eres, Hdown.
  eapply List.Forall_impl; [|apply recorded_from_responses].
  intros r (p & tu & l & res & Er).
  apply analyzeResponse_fields in Er as (Ev & _).
  rewrite Ev. apply analyze_without_baseline.
Qed.

(** C7: the results are in parameter-major, payload-minor order: they are the
    probes of the planned matrix (for each parameter in order, for each
    payload in order, the target URL with the parameter set to the payload
    when the target has it, appended otherwise) that were answered, in the
    order of the matrix, which is the order the requests are issued in; the
    inputs determine them.  The serialised target is taken to parse back to
    itself, as the URL standard has it. *)
Theorem results_in_parameter_major_order :
  forall (s : PopupState) (tr0 : Transcript) (s' : PopupState) (tr : Transcript)
         (summary : LfiScanSummary) (u : URL),
    handleRunLfi new_URL URL_toString network s tr0 = (s', tr) ->
    completed s' summary ->
    new_URL (targetUrlOf s) = Some u ->
    new_URL (URL_toString u) = Some u ->
    tr = tr0
         ++ (targetUrlOf s, network (List.length tr0) (targetUrlOf s))
            :: transcriptOf
                 (probeAnswers network (S (List.length tr0))
                    (testMatrix URL_toString u (paramsToTestOf s u) (payloadListOf s))) /\
    List.map probeOf (results summary)
    = List.map fst
        (List.filter (fun pa => answered (snd pa))
           (probeAnswers network (S (List.length tr0))
              (testMatrix URL_toString u (paramsToTestOf s u) (payloadListOf s)))) /\
    sublist (List.map probeOf (results summary))
            (testMatrix URL_toString u (paramsToTestOf s u) (payloadListOf s)).
Proof.
  intros s tr0 s' tr summary u Hrun Hdone Hu Hre.
  destruct (handleRunLfi_completed _ _ _ _ _ _ _ _ Hrun Hdone)
    as (u' & plan & Eu & _ & _ & Eplan & Etr & _ & _ & Eres & _).
  rewrite Hu in Eu. injection Eu as <-.
  rewrite (plannedTests_reparse _ _ _ _ _ _ Hu Hre) in Eplan.
  injection Eplan as <-.
  split; [assumption|].
  assert (E : List.map probeOf (results summary)
              = List.map fst
                  (List.filter (fun pa => answered (snd pa))
                     (probeAnswers network (S (List.length tr0))
                        (testMatrix URL_toString u (paramsToTestOf s u)
                                    (payloadListOf s))))).
  { rewrite Eres. apply recorded_answered. }
  split; [assumption|].
  rewrite E.
  rewrite <- (probeAnswers_plan network
                (testMatrix URL_toString u (paramsToTestOf s u) (payloadListOf s))
                (S (List.length tr0))) at 2.
  apply map_sublist, filter_sublist.
Qed.

(** C10: a probe answered with a status outside 200-299 is recorded, and
    analysed on the empty body: for every probe of the transcript that got
    such an answer the summary holds a result of that probe with that
    status, contentLength 0, no indicators and an empty sample, which is
    never CONFIRMED_LFI; and when the baseline was read with a positive body
    length the result is POSSIBLE_LFI/Medium, the length ratio being 1.  The
    results are the answered probes, one each and in order, and every result
    with such a status is of this kind. *)
Theorem non_ok_probe_is_analysed_empty :
  forall (s : PopupState) (tr0 : Transcript) (s' : PopupState) (tr : Transcript)
         (summary : LfiScanSummary),
    handleRunLfi new_URL URL_toString network s tr0 = (s', tr) ->
    completed s' summary ->
    exists u plan,
      new_URL (targetUrlOf s) = Some u /\
      plannedTests new_URL URL_toString (targetUrlOf s) (payloadListOf s)
                   (paramsToTestOf s u) = Some plan /\
      tr = tr0
           ++ (targetUrlOf s, network (List.length tr0) (targetUrlOf s))
              :: transcriptOf (probeAnswers network (S (List.length tr0)) plan) /\
      List.map probeOf (results summary)
      = List.map fst (List.filter (fun pa => answered (snd pa))
                                  (probeAnswers network (S (List.length tr0)) plan)) /\
      (forall (probe : Probe) (res : Response),
         In (probe, Some res) (probeAnswers network (S (List.length tr0)) plan) ->
         (res_status res < 200 \/ 299 < res_status res)%Z ->
         exists r,
           In r (results summary) /\ probeOf r = probe /\
           status r = res_status res /\
           contentLength r = 0%Z /\ indicators r = [] /\ sample r = "" /\
           detection r <> CONFIRMED_LFI /\
           (forall baselineRes,
              network (List.length tr0) (targetUrlOf s) = Some baselineRes ->
              Response_ok baselineRes = true ->
              0 < String.length (safeReadText baselineRes) ->
              diffRatio (contentLength r)
                        (Z.of_nat (String.length (safeReadText baselineRes)))
              == 1 /\
              detection r = POSSIBLE_LFI /\ confidence r = Medium)) /\
      Forall (fun r =>
                (status r < 200 \/ 299 < status r)%Z ->
                contentLength r = 0%Z /\ indicators r = [] /\ sample r = "" /\
                detection r <> CONFIRMED_LFI /\
                (forall baselineRes,
                   network (List.length tr0) (targetUrlOf s) = Some baselineRes ->
                   Response_ok baselineRes = true ->
                   0 < String.length (safeReadText baselineRes) ->
                   diffRatio (contentLength r)
                             (Z.of_nat (String.length (safeReadText baselineRes)))
                   == 1 /\
                   detection r = POSSIBLE_LFI /\ confidence r = Medium))
             (results summary).
Proof.
  intros s tr0 s' tr summary Hrun Hdone.
  destruct (handleRunLfi_completed _ _ _ _ _ _ _ _ Hrun Hdone)
    as (u & plan & Eu & _ & _ & Eplan & Etr & _ & _ & Eres & _).
  exists u, plan.
  split; [assumption|]. split; [assumption|]. split; [assumption|].
  split; [rewrite Eres; apply recorded_answered|].
  rewrite Eres. split.
  - intros [p [tu l]] res Hin Hst.
    exists (analyzeResponse
              (baselineOf (network (List.length tr0) (targetUrlOf s)))
              (originalValuesOf u (paramsToTestOf s u)) p tu l res).
    split.
    { apply in_flat_map. exists (p, (tu, l), Some res).
      split; [assumption|]. left. reflexivity. }
    split; [apply probeOf_analyzeResponse|].
    apply (non_ok_response_is_analysed_empty
             (network (List.length tr0) (targetUrlOf s))
             (originalValuesOf u (paramsToTestOf s u)) p tu l res _ eq_refl).
    apply Response_ok_range. assumption.
  - eapply List.Forall_impl; [|apply recorded_from_responses].
    intros r (p & tu & l & res & Er) Hst.
    assert (Est : status r = res_status res).
    { apply analyzeResponse_fields in Er as (_ & _ & Est & _). assumption. }
    rewrite Est in Hst. apply Response_ok_range in Hst.
    destruct (non_ok_response_is_analysed_empty _ _ _ _ _ _ _ Er Hst)
      as (_ & H). exact H.
Qed.

End Claims.

(** * The parameter set *)

Lemma probeAnswers_params (network : nat -> string -> option Response)
    (P : list string) (plan : list Probe) :
  Forall (fun t => In (fst t) P) plan ->
  forall start,
    Forall (fun pa => In (fst (fst pa)) P) (probeAnswers network start plan).
Proof.
  induction 1; intros start; simpl; constructor; auto.
Qed.

Lemma recorded_params baseline ov (P : list string)
    (pas : list (Probe * option Response)) :
  Forall (fun pa => In (fst (fst pa)) P) pas ->
  Forall (fun r => In (parameter r) P) (recorded baseline ov pas).
Proof.
  induction 1 as [|[[p [u l]] [res|]] pas Hp Hpas IH]; simpl.
  - constructor.
  - unfold recorded in *. simpl. constructor; [|assumption].
    unfold analyzeResponse. destruct (analyzeLfiHeuristics _ _ _ _ _).
    exact Hp.
  - assumption.
Qed.

Section ParameterSet.

Variable new_URL : string -> option URL.
Variable URL_toString : URL -> string.
Variable network : nat -> string -> option Response.

Lemma plannedTests_params (target : string) (L P : list string) :
  forall plan,
    plannedTests new_URL URL_toString target L P = Some plan ->
    Forall (fun t => In (fst t) P) plan.
Proof.
  induction P as [|p P IH]; intros plan; simpl.
  - intros [= <-]. constructor.
  - destruct (buildLfiTestUrls _ _ _ _ _) as [tus|]; [|discriminate].
    destruct (plannedTests _ _ _ _ _) as [more|]; [|discriminate].
    intros [= <-]. apply Forall_app. split.
    + apply List.Forall_forall. intros t Ht.
      apply in_map_iff in Ht as (tu & <- & _). left. reflexivity.
    + eapply List.Forall_impl; [|apply (IH more eq_refl)].
      intros t Ht. right. exact Ht.
Qed.

(** C8, amended: names are trimmed.  When the explicit parameter name is not
    empty once trimmed, the scan tests exactly the trimmed name; otherwise
    the parameters are the trimmed query-string keys of the target URL, the
    empty ones dropped, deduplicated.  When that set is empty, a scan that
    has a target URL that parses and a loaded wordlist stops with the
    no-parameters error before any request is issued and shows no summary;
    a scan that completes has tested exactly the names of the set. *)
Theorem parameters_are_trimmed_names :
  forall (s : PopupState) (tr0 : Transcript) (u : URL),
    nonEmpty (targetUrlOf s) = true ->
    new_URL (targetUrlOf s) = Some u ->
    wordlist s <> [] ->
    paramsToTestOf s u
    = (if nonEmpty (trim (lfiParam s)) then [trim (lfiParam s)]
       else dedupFirstSeen
              (List.filter nonEmpty (List.map trim (URLSearchParams_keys u)))) /\
    (paramsToTestOf s u = [] ->
     snd (handleRunLfi new_URL URL_toString network s tr0) = tr0 /\
     error (fst (handleRunLfi new_URL URL_toString network s tr0))
     = msgNoParameters /\
     lfiResults (fst (handleRunLfi new_URL URL_toString network s tr0)) = None) /\
    (forall summary,
       completed (fst (handleRunLfi new_URL URL_toString network s tr0)) summary ->
       paramsToTestOf s u <> [] /\
       List.map name (parametersTested summary) = paramsToTestOf s u /\
       Forall (fun r => In (parameter r) (paramsToTestOf s u)) (results summary)).
Proof.
  intros s tr0 u Ht Hu Hw.
  split; [|split].
  - unfold paramsToTestOf, uniqueDiscoveredParams.
    rewrite Array_from_Set_dedup. reflexivity.
  - intros Hnone. unfold handleRunLfi. rewrite Ht, Hu. cbn [negb].
    destruct (wordlist s) as [|w ws] eqn:Ews; [congruence|].
    cbn [List.length Nat.eqb]. cbv zeta.
    change (paramsToTestOf
              (setLfiResults None (setLfiLoading true (setError "" s))) u)
      with (paramsToTestOf s u).
    rewrite Hnone. cbn. auto.
  - intros summary Hdone.
    destruct (handleRunLfi new_URL URL_toString network s tr0) as [s' tr] eqn:Hrun.
    destruct (handleRunLfi_completed _ _ _ _ _ _ _ _ Hrun Hdone)
      as (u' & plan & Eu & _ & Hp & Eplan & _ & _ & _ & Eres & _ & _ & Enames & _).
    rewrite Hu in Eu. injection Eu as <-.
    split; [assumption|]. split; [assumption|].
    rewrite Eres. apply recorded_params, probeAnswers_params.
    eapply plannedTests_params. exact Eplan.
Qed.

End ParameterSet.

(** C8 as worded does not hold: a key is trimmed before it is tested, and so
    is the explicit name.  For the target [?+file=home.php], whose only key is
    " file", the scan tests the parameter "file", which the target does not
    have and which is therefore appended; the design document's wording gives
    " file".  The explicit name " file " is tested as "file", and an explicit
    name of blanks counts as none. *)
Lemma padded_names_are_not_tested_as_written :
  paramsToTestOf paddedState paddedUrl
  <> claimedParameters (lfiParam paddedState) paddedUrl /\
  SimpleURL.parse paddedTarget = Some paddedUrl /\
  claimedParameters (lfiParam paddedState) paddedUrl = [" file"] /\
  paramsToTestOf paddedState paddedUrl = ["file"] /\
  (exists summary,
     completed (fst paddedScan) summary /\
     List.map name (parametersTested summary) = ["file"] /\
     List.map testedUrl (results summary)
     = ["https://example.com/index.php?+file=home.php&file=..%2Fetc%2Fpasswd";
        "https://example.com/index.php?+file=home.php&file=%2Fetc%2Fshadow"]) /\
  claimedParameters " file " sampleUrl = [" file "] /\
  paramsToTestOf (samplePopup sampleTarget " file " sampleWords) sampleUrl = ["file"] /\
  claimedParameters "  " bareUrl = ["  "] /\
  paramsToTestOf (samplePopup bareTarget "  " sampleWords) bareUrl = [].
Proof.
  split; [vm_compute; discriminate|].
  split; [vm_compute; reflexivity|].
  split; [vm_compute; reflexivity|].
  split; [vm_compute; reflexivity|].
  split.
  { eexists. split; [split; vm_compute; reflexivity|].
    split; vm_compute; reflexivity. }
  repeat split; vm_compute; reflexivity.
Qed.

(** * The properties on the sample scans *)

Lemma sampleScan_pair : sampleScan = (fst sampleScan, snd sampleScan).
Proof. apply surjective_pairing. Defined.

Lemma sampleScan_completed : completed (fst sampleScan) sampleSummary.
Proof. split; vm_compute; reflexivity. Defined.

Lemma sampleScanDown_pair :
  sampleScanDown = (fst sampleScanDown, snd sampleScanDown).
Proof. apply surjective_pairing. Defined.

Lemma sampleScanDown_completed : completed (fst sampleScanDown) sampleSummaryDown.
Proof. split; vm_compute; reflexivity. Defined.

(** The four rules, each deciding a sample input. *)
Lemma classifier_rules_on_samples :
  analyzeLfiHeuristics ["etc/passwd"] (Some 200%Z) (Some 100%Z) 200 1000
  = (CONFIRMED_LFI, High) /\
  analyzeLfiHeuristics [] (Some 200%Z) (Some 100%Z) 200 1000
  = (POSSIBLE_LFI, Medium) /\
  analyzeLfiHeuristics [] (Some 200%Z) (Some 100%Z) 404 110
  = (SUSPICIOUS, Low) /\
  analyzeLfiHeuristics [] (Some 200%Z) (Some 100%Z) 200 110
  = (NOT_VULNERABLE, Low).
Proof.
  assert (Hno : ~ lengthRuleApplies (Some 100%Z) 110).
  { intros H. apply lengthRule_decides in H. vm_compute in H. discriminate. }
  destruct (analyzeLfiHeuristics_first_rule_wins
              ["etc/passwd"] (Some 200%Z) (Some 100%Z) 200%Z 1000%Z)
    as (R1 & _).
  destruct (analyzeLfiHeuristics_first_rule_wins
              [] (Some 200%Z) (Some 100%Z) 200%Z 1000%Z)
    as (_ & R2 & _).
  destruct (analyzeLfiHeuristics_first_rule_wins
              [] (Some 200%Z) (Some 100%Z) 404%Z 110%Z)
    as (_ & _ & R3 & _).
  destruct (analyzeLfiHeuristics_first_rule_wins
              [] (Some 200%Z) (Some 100%Z) 200%Z 110%Z)
    as (_ & _ & _ & R4 & _).
  split; [|split; [|split]].
  - apply R1. discriminate.
  - apply R2; [reflexivity|].
    apply lengthRule_decides. vm_compute. reflexivity.
  - apply R3; [reflexivity|exact Hno|].
    exists 200%Z. split; [reflexivity|discriminate].
  - apply R4; [reflexivity|exact Hno|].
    intros (bs & E & Hne). injection E as <-. apply Hne. reflexivity.
Defined.

(** One parameter, three payloads, one failed fetch: totalTests is 3 and
    there are two results. *)
Lemma sample_scan_totalTests :
  exists u probes,
    SimpleURL.parse (targetUrlOf sampleState) = Some u /\
    snd sampleScan
    = [] ++ (targetUrlOf sampleState,
             sampleNetwork (List.length (@nil (string * option Response)))
                           (targetUrlOf sampleState))
            :: transcriptOf probes /\
    List.length probes
    = List.length (paramsToTestOf sampleState u)
      * List.length (payloadListOf sampleState) /\
    totalTests sampleSummary
    = List.length (paramsToTestOf sampleState u)
      * List.length (payloadListOf sampleState) /\
    List.map probeOf (results sampleSummary)
    = List.map fst (List.filter (fun pa => answered (snd pa)) probes) /\
    List.length (results sampleSummary)
    + List.length (List.filter (fun pa => negb (answered (snd pa))) probes)
    = totalTests sampleSummary /\
    (List.length (paramsToTestOf sampleState u) = 1 ->
     List.length (payloadListOf sampleState) = 3 ->
     totalTests sampleSummary = 3 /\
     (List.length (List.filter (fun pa => negb (answered (snd pa))) probes) = 1 ->
      List.length (results sampleSummary) = 2)).
Proof.
  exact (totalTests_is_planned_matrix_size
           SimpleURL.parse SimpleURL.toString sampleNetwork sampleState []
           (fst sampleScan) (snd sampleScan) sampleSummary
           sampleScan_pair sampleScan_completed).
Defined.

Lemma sample_scan_vulnerableCount :
  vulnerableCount sampleSummary
  = List.length
      (List.filter (fun r => negb (Detection_eqb (detection r) NOT_VULNERABLE))
                   (results sampleSummary)) /\
  vulnerableCount sampleSummary
  = list_sum (List.map p_vulnerableCount (parametersTested sampleSummary)).
Proof.
  exact (vulnerableCount_counts_detections
           SimpleURL.parse SimpleURL.toString sampleNetwork sampleState []
           (fst sampleScan) (snd sampleScan) sampleSummary
           sampleScan_pair sampleScan_completed).
Defined.

Lemma sample_scan_vulnerable_flags :
  Forall (fun r =>
            vulnerable r = negb (Detection_eqb (detection r) NOT_VULNERABLE) /\
            (vulnerable r = true <->
             detection r = CONFIRMED_LFI \/ detection r = POSSIBLE_LFI \/
             detection r = SUSPICIOUS))
         (results sampleSummary).
Proof.
  exact (vulnerable_flag_is_verdict
           SimpleURL.parse SimpleURL.toString sampleNetwork sampleState []
           (fst sampleScan) (snd sampleScan) sampleSummary
           sampleScan_pair sampleScan_completed).
Defined.

(** The sample scan without a baseline: the password file is confirmed, the
    404 is not vulnerable. *)
Lemma sample_scan_without_baseline :
  fst (fetchBaseline sampleNetworkDown (targetUrlOf sampleState) []) = (None, None) /\
  (forall (inds : list string) (st len : Z),
     analyzeLfiHeuristics inds None None st len
     = if Nat.ltb 0 (List.length inds) then (CONFIRMED_LFI, High)
       else (NOT_VULNERABLE, Low)) /\
  Forall (fun r =>
            (detection r, confidence r)
            = if Nat.ltb 0 (List.length (indicators r))
              then (CONFIRMED_LFI, High) else (NOT_VULNERABLE, Low))
         (results sampleSummaryDown).
Proof.
  apply (failed_baseline_leaves_rules_1_and_4
           SimpleURL.parse SimpleURL.toString sampleNetworkDown sampleState []
           (fst sampleScanDown) (snd sampleScanDown) sampleSummaryDown
           sampleScanDown_pair sampleScanDown_completed).
  vm_compute. reflexivity.
Defined.

Lemma sample_scan_order :
  snd sampleScan
  = [] ++ (targetUrlOf sampleState,
           sampleNetwork (List.length (@nil (string * option Response)))
                         (targetUrlOf sampleState))
          :: transcriptOf
               (probeAnswers sampleNetwork
                  (S (List.length (@nil (string * option Response))))
                  (testMatrix SimpleURL.toString sampleUrl
                     (paramsToTestOf sampleState sampleUrl)
                     (payloadListOf sampleState))) /\
  List.map probeOf (results sampleSummary)
  = List.map fst
      (List.filter (fun pa => answered (snd pa))
         (probeAnswers sampleNetwork
            (S (List.length (@nil (string * option Response))))
            (testMatrix SimpleURL.toString sampleUrl
               (paramsToTestOf sampleState sampleUrl)
               (payloadListOf sampleState)))) /\
  sublist (List.map probeOf (results sampleSummary))
          (testMatrix SimpleURL.toString sampleUrl
             (paramsToTestOf sampleState sampleUrl) (payloadListOf sampleState)).
Proof.
  apply (results_in_parameter_major_order
           SimpleURL.parse SimpleURL.toString sampleNetwork sampleState []
           (fst sampleScan) (snd sampleScan) sampleSummary sampleUrl
           sampleScan_pair sampleScan_completed);
    vm_compute; reflexivity.
Defined.

(** Without a query and without an explicit name nothing is requested. *)
Lemma bare_target_has_no_parameters :
  paramsToTestOf bareState bareUrl = [] /\
  snd (handleRunLfi SimpleURL.parse SimpleURL.toString sampleNetwork bareState [])
  = [] /\
  error (fst (handleRunLfi SimpleURL.parse SimpleURL.toString sampleNetwork
                           bareState []))
  = msgNoParameters /\
  lfiResults (fst (handleRunLfi SimpleURL.parse SimpleURL.toString sampleNetwork
                                bareState []))
  = None.
Proof.
  assert (Hnone : paramsToTestOf bareState bareUrl = [])
    by (vm_compute; reflexivity).
  assert (Htarget : nonEmpty (targetUrlOf bareState) = true)
    by (vm_compute; reflexivity).
  assert (Hparse : SimpleURL.parse (targetUrlOf bareState) = Some bareUrl)
    by (vm_compute; reflexivity).
  assert (Hwords : wordlist bareState <> []) by discriminate.
  split; [exact Hnone|].
  exact (proj1 (proj2 (parameters_are_trimmed_names
                         SimpleURL.parse SimpleURL.toString sampleNetwork
                         bareState [] bareUrl Htarget Hparse Hwords))
               Hnone).
Defined.

(** The probe answered with a 404 in the sample scan: the shadow file. *)
Lemma sample_scan_non_ok_probe :
  exists r,
    In r (results sampleSummary) /\
    probeOf r
    = ("file", ("https://example.com/index.php?file=%2Fetc%2Fshadow", "/etc/shadow")) /\
    status r = 404%Z /\
    contentLength r = 0%Z /\ indicators r = [] /\ sample r = "" /\
    detection r = POSSIBLE_LFI /\ confidence r = Medium.
Proof.
  destruct (non_ok_probe_is_analysed_empty
              SimpleURL.parse SimpleURL.toString sampleNetwork sampleState []
              (fst sampleScan) (snd sampleScan) sampleSummary
              sampleScan_pair sampleScan_completed)
    as (u & plan & Eu & Eplan & _ & _ & Hprobe & _).
  vm_compute in Eu. injection Eu as <-.
  vm_compute in Eplan. injection Eplan as <-.
  destruct (Hprobe
              ("file", ("https://example.com/index.php?file=%2Fetc%2Fshadow",
                        "/etc/shadow"))
              (mkResponse 404 (Some "Not Found")))
    as (r & Hin & Hp & Hs & Hl & Hi & Hsm & _ & Hbase).
  { vm_compute. right. left. reflexivity. }
  { right. reflexivity. }
  destruct (Hbase (mkResponse 200
                     (Some "<html><body>Welcome to the home page of the site</body></html>")))
    as (_ & Hd & Hc).
  { vm_compute. reflexivity. }
  { reflexivity. }
  { vm_compute. lia. }
  exists r. repeat (split; [assumption|]). assumption.
Defined.

(** * More on the payload catalog *)

Lemma dedupFirstSeen_fixed (l : list string) :
  List.NoDup l -> dedupFirstSeen l = l.
Proof.
  induction 1 as [|x l Hx Hl IH]; simpl; [reflexivity|].
  rewrite IH. f_equal. apply forallb_filter_id. apply forallb_forall.
  intros y Hy. apply negb_true_iff, String.eqb_neq. congruence.
Qed.

Lemma NoDup_app_disjoint {A : Type} (l l' : list A) :
  List.NoDup (l ++ l') -> forall x, In x l -> ~ In x l'.
Proof.
  induction l as [|a l IH]; simpl; [tauto|].
  intros H x [<-|Hx] Hx'.
  - inversion H as [|? ? Hn _]; subst. apply Hn, in_or_app. auto.
  - inversion H; subst. eapply IH; eauto.
Qed.

Lemma NoDup_flat_map_filter {A : Type} (f : A -> list string) (g : A -> bool)
    (l : list A) :
  List.NoDup (flat_map f l) -> List.NoDup (flat_map f (List.filter g l)).
Proof.
  induction l as [|a l IH]; simpl; [auto|]. intros H.
  pose proof (List.NoDup_app_remove_l _ _ H) as Hl.
  destruct (g a); [|auto]. simpl.
  apply List.NoDup_app.
  - apply (List.NoDup_app_remove_r _ _ H).
  - auto.
  - intros x Hx Hin. apply in_flat_map in Hin as (b & Hb & Hxb).
    apply filter_In in Hb as [Hb _].
    apply (NoDup_app_disjoint _ _ H x Hx). apply in_flat_map. eauto.
Qed.

Lemma flat_map_sublist {A B : Type} (f : A -> list B) (l1 l2 : list A) :
  sublist l1 l2 -> sublist (flat_map f l1) (flat_map f l2).
Proof.
  induction 1; simpl.
  - constructor.
  - apply sublist_app; [reflexivity|assumption].
  - apply sublist_inserts_l. assumption.
Qed.

Lemma catalog_has_no_shared_payload :
  List.NoDup (flat_map payloads LFI_PAYLOAD_CATEGORIES).
Proof.
  assert (E : dedupFirstSeen (flat_map payloads LFI_PAYLOAD_CATEGORIES)
              = flat_map payloads LFI_PAYLOAD_CATEGORIES)
    by (vm_compute; reflexivity).
  rewrite <- E. apply dedupFirstSeen_NoDup.
Qed.

(** X7: no payload of the catalog is in two categories, so the set of
    [buildLfiPayloadList] drops nothing: the list is the concatenation of the
    payloads of the categories used, a selection gives a sublist of the full
    list, and the full list has 33 payloads. *)
Theorem catalog_lists_lose_nothing :
  forall sel : option (list LfiPayloadCategoryId),
    buildLfiPayloadList sel = flat_map payloads (categoriesToUse sel) /\
    sublist (buildLfiPayloadList sel) (buildLfiPayloadList None) /\
    List.length (buildLfiPayloadList None) = 33.
Proof.
  intros sel.
  assert (Hall : forall sel',
             buildLfiPayloadList sel' = flat_map payloads (categoriesToUse sel')).
  { intros sel'. unfold buildLfiPayloadList. rewrite Array_from_Set_dedup.
    apply dedupFirstSeen_fixed.
    destruct sel' as [[|i ids]|];
      [apply catalog_has_no_shared_payload| |apply catalog_has_no_shared_payload].
    rewrite categoriesToUse_some.
    apply NoDup_flat_map_filter, catalog_has_no_shared_payload. }
  split; [apply Hall|]. split; [|vm_compute; reflexivity].
  rewrite !Hall. apply flat_map_sublist.
  change (categoriesToUse None) with LFI_PAYLOAD_CATEGORIES.
  apply categoriesToUse_in_order.
Qed.

(** X8: [buildLfiPayloadList] reads the category ids as a set: two
    selections with the same members, in any order and with any repetition,
    give the same payload list. *)
Theorem selection_is_a_set :
  forall ids ids' : list LfiPayloadCategoryId,
    (forall i, In i ids <-> In i ids') ->
    buildLfiPayloadList (Some ids) = buildLfiPayloadList (Some ids').
Proof.
  intros ids ids' Hsame.
  destruct ids as [|i ids].
  { destruct ids' as [|i' ids']; [reflexivity|].
    exfalso. apply (Hsame i'). left. reflexivity. }
  destruct ids' as [|i' ids'].
  { exfalso. apply (Hsame i). left. reflexivity. }
  unfold buildLfiPayloadList. rewrite !categoriesToUse_some. do 2 f_equal.
  apply filter_ext. intros c.
  destruct (existsb (LfiPayloadCategoryId_eqb (id c)) (i :: ids)) eqn:E1;
    destruct (existsb (LfiPayloadCategoryId_eqb (id c)) (i' :: ids')) eqn:E2;
    try reflexivity; exfalso.
  - apply existsb_exists in E1 as (j & Hj & Ej).
    apply LfiPayloadCategoryId_eqb_eq in Ej. subst j.
    apply Hsame in Hj.
    assert (existsb (LfiPayloadCategoryId_eqb (id c)) (i' :: ids') = true).
    { apply existsb_exists. exists (id c). split; [assumption|].
      apply LfiPayloadCategoryId_eqb_eq. reflexivity. }
    congruence.
  - apply existsb_exists in E2 as (j & Hj & Ej).
    apply LfiPayloadCategoryId_eqb_eq in Ej. subst j.
    apply Hsame in Hj.
    assert (existsb (LfiPayloadCategoryId_eqb (id c)) (i :: ids) = true).
    { apply existsb_exists. exists (id c). split; [assumption|].
      apply LfiPayloadCategoryId_eqb_eq. reflexivity. }
    congruence.
Qed.

(** * More on the orchestrator *)

Lemma sameButProgress_refl (a : PopupState) : sameButProgress a a.
Proof. repeat split. Qed.

Lemma sameButProgress_progress (p : nat * nat) (a b : PopupState) :
  sameButProgress a b -> sameButProgress (setCurrentProgress p a) b.
Proof. intros H. exact H. Qed.

Lemma originalValues_lookup (u : URL) (P : list string) :
  forall (m : gmap string (option string)) (p : string),
    fold_left (fun m name => <[name := URLSearchParams_get u name]> m) P m !! p
    = if includes P p then Some (URLSearchParams_get u p) else m !! p.
Proof.
  induction P as [|q P IH]; intros m p; simpl; [reflexivity|].
  rewrite IH. unfold includes. simpl.
  destruct (existsb (String.eqb p) P) eqn:E.
  - rewrite orb_true_r. reflexivity.
  - rewrite orb_false_r. destruct (String.eqb_spec p q) as [->|Hne].
    + apply lookup_insert_eq.
    + apply lookup_insert_ne. congruence.
Qed.

(** What the scan recorded as the original value of a tested parameter is
    what the target URL has under its name. *)
Lemma originalValueOf_tested (u : URL) (P : list string) (p : string) :
  In p P ->
  originalValueOf (originalValuesOf u P) p = URLSearchParams_get u p.
Proof.
  intros Hin. unfold originalValueOf, originalValuesOf.
  rewrite originalValues_lookup.
  apply includes_In in Hin. rewrite Hin. reflexivity.
Qed.

Lemma analyzeResponse_identity baseline ov (p u l : string) (res : Response) :
  parameter (analyzeResponse baseline ov p u l res) = p /\
  originalValue (analyzeResponse baseline ov p u l res) = originalValueOf ov p /\
  testedUrl (analyzeResponse baseline ov p u l res) = u /\
  payload (analyzeResponse baseline ov p u l res) = l.
Proof.
  unfold analyzeResponse. destruct (analyzeLfiHeuristics _ _ _ _ _).
  repeat split.
Qed.

Lemma recorded_original_values baseline ov
    (pas : list (Probe * option Response)) :
  Forall (fun r => originalValue r = originalValueOf ov (parameter r))
         (recorded baseline ov pas).
Proof.
  eapply List.Forall_impl; [|apply recorded_from_responses].
  intros r (p & u & l & res & ->).
  destruct (analyzeResponse_identity baseline ov p u l res) as (-> & -> & _).
  reflexivity.
Qed.

Lemma recorded_single_parameter baseline ov (p : string)
    (network : nat -> string -> option Response) (start : nat)
    (tus : list (string * string)) :
  Forall (fun r => parameter r = p)
         (recorded baseline ov (probeAnswers network start (List.map (pair p) tus))).
Proof.
  eapply List.Forall_impl;
    [|apply (recorded_params baseline ov [p]), probeAnswers_params].
  - intros r [H|[]]. congruence.
  - apply List.Forall_forall. intros t Ht.
    apply in_map_iff in Ht as (tu & <- & _). left. reflexivity.
Qed.

Lemma resultsFor_app (p : string) (a b : list LfiSingleResult) :
  resultsFor p (a ++ b) = resultsFor p a ++ resultsFor p b.
Proof. apply List.filter_app. Qed.

Lemma resultsFor_all (p : string) (rs : list LfiSingleResult) :
  Forall (fun r => parameter r = p) rs -> resultsFor p rs = rs.
Proof.
  intros H. apply forallb_filter_id, forallb_forall.
  rewrite List.Forall_forall in H. intros r Hr.
  apply String.eqb_eq. auto.
Qed.

Lemma resultsFor_none (p : string) (rs : list LfiSingleResult) :
  Forall (fun r => parameter r <> p) rs -> resultsFor p rs = [].
Proof.
  induction 1 as [|r rs Hr _ IH]; simpl; [reflexivity|].
  apply String.eqb_neq in Hr. rewrite Hr. exact IH.
Qed.

Section OrchestratorFacts.

Variable new_URL : string -> option URL.
Variable URL_toString : URL -> string.
Variable network : nat -> string -> option Response.

Lemma sweep_popup baseline ov (p : string) (total : nat)
    (tus : list (string * string)) :
  forall (st : SweepState) (tr : Transcript),
    sameButProgress
      (sw_popup (fst (sweep network baseline ov p total tus st tr)))
      (sw_popup st).
Proof.
  induction tus as [|[testUrl payload_] tus IH]; intros st tr.
  - apply sameButProgress_refl.
  - cbn [sweep]. unfold bind at 1. unfold fetchWithTimeout at 1.
    match goal with
    | |- context [sweep _ _ _ _ _ _ ?st' ?tr'] => pose proof (IH st' tr') as H
    end.
    destruct (network (List.length tr) testUrl); exact H.
Qed.

(** The per-parameter entries the outer loop adds, for distinct names. *)
Lemma scan_per_parameter (target : string) baseline ov (L : list string)
    (total : nat) :
  forall (P : list string) (st : SweepState) (tr : Transcript)
         (st' : SweepState) (tr' : Transcript),
    List.NoDup P ->
    scanParameters new_URL URL_toString network target baseline ov L total P st tr
    = (Some st', tr') ->
    exists news newr,
      sw_perParameterSummary st' = sw_perParameterSummary st ++ news /\
      sw_results st' = sw_results st ++ newr /\
      List.map name news = P /\
      Forall (fun r => In (parameter r) P) newr /\
      Forall (fun ps =>
                p_totalTests ps = List.length L /\
                p_originalValue ps = originalValueOf ov (name ps) /\
                p_vulnerableCount ps
                = List.length (List.filter vulnerable
                                 (resultsFor (name ps) newr)) /\
                p_vulnerableCount ps <= p_totalTests ps)
             news /\
      sameButProgress (sw_popup st') (sw_popup st).
Proof.
  induction P as [|p P IH]; intros st tr st' tr' Hnd Hrun.
  - simpl in Hrun. unfold ret in Hrun. injection Hrun as <- <-.
    exists [], []. rewrite !app_nil_r.
    repeat split; constructor.
  - cbn [scanParameters] in Hrun.
    destruct (buildLfiTestUrls new_URL URL_toString target p L) as [tus|] eqn:Eb;
      [|discriminate].
    unfold bind at 1 in Hrun.
    match type of Hrun with
    | context [sweep _ _ _ _ _ _ ?st0 _] =>
        pose proof (sweep_popup baseline ov p total tus st0 tr) as Hpop;
        destruct (sweep_run network baseline ov p total tus st0 tr)
          as (popup' & Esweep & _)
    end.
    rewrite Esweep in Hrun, Hpop. clear Esweep.
    cbn [fst sw_results sw_perParameterSummary sw_paramVulnerableCount
         sw_currentIndex sw_popup] in Hrun, Hpop.
    inversion Hnd as [|? ? Hp HP]; subst.
    apply IH in Hrun as (news & newr & Esum & Eres & Enames & Hpar & Hall & Hsame);
      [|assumption].
    clear IH.
    cbn [sw_results sw_perParameterSummary sw_popup] in Esum, Eres, Hsame.
    set (Rp := recorded baseline ov
                 (probeAnswers network (List.length tr) (List.map (pair p) tus)))
      in *.
    assert (HRp : Forall (fun r => parameter r = p) Rp)
      by apply recorded_single_parameter.
    match type of Esum with
    | _ = (_ ++ [?sp]) ++ _ => exists (sp :: news), (Rp ++ newr)
    end.
    rewrite <- !app_assoc in Esum, Eres. cbn [app] in Esum.
    split; [assumption|]. split; [assumption|].
    split; [cbn; congruence|].
    split.
    { apply Forall_app. split.
      - eapply List.Forall_impl; [|exact HRp]. intros r ->. left. reflexivity.
      - eapply List.Forall_impl; [|exact Hpar]. intros r Hr. right. exact Hr. }
    split.
    { constructor.
      - cbn [p_totalTests p_originalValue p_vulnerableCount name].
        rewrite resultsFor_app, (resultsFor_all p Rp HRp).
        rewrite (resultsFor_none p newr), app_nil_r.
        + split; [apply (buildLfiTestUrls_length _ _ _ _ _ _ Eb)|].
          split; [reflexivity|]. split; [lia|].
          rewrite Nat.add_0_l.
          etransitivity; [apply List.filter_length_le|].
          unfold Rp. rewrite recorded_length.
          etransitivity; [apply List.filter_length_le|].
          rewrite probeAnswers_length, length_map. reflexivity.
        + eapply List.Forall_impl; [|exact Hpar]. intros r Hr E. cbv beta in Hr. rewrite E in Hr. contradiction.
      - rewrite List.Forall_forall in Hall. apply List.Forall_forall.
        intros ps Hps. destruct (Hall ps Hps) as (Ht & Ho & Hv & Hle).
        split; [assumption|]. split; [assumption|]. split; [|assumption].
        rewrite Hv, resultsFor_app, (resultsFor_none (name ps) Rp), app_nil_l;
          [reflexivity|].
        eapply List.Forall_impl; [|exact HRp]. intros r -> E.
        apply Hp. rewrite <- Enames, E. apply in_map. assumption. }
    destruct Hsame as (H1 & H2 & H3 & H4 & H5 & H6 & H7 & H8).
    destruct Hpop as (G1 & G2 & G3 & G4 & G5 & G6 & G7 & G8).
    repeat split; congruence.
Qed.

Lemma paramsToTestOf_NoDup (s : PopupState) (u : URL) :
  List.NoDup (paramsToTestOf s u).
Proof.
  unfold paramsToTestOf, uniqueDiscoveredParams.
  destruct (nonEmpty (trim (lfiParam s))).
  - constructor; [intros []|constructor].
  - rewrite Array_from_Set_dedup. apply dedupFirstSeen_NoDup.
Qed.

(** The six ways a run ends. *)
Lemma handleRunLfi_outcome (s : PopupState) (tr0 : Transcript) :
  (nonEmpty (targetUrlOf s) = false /\
   handleRunLfi new_URL URL_toString network s tr0 = (setError msgNoUrl s, tr0)) \/
  (new_URL (targetUrlOf s) = None /\
   handleRunLfi new_URL URL_toString network s tr0
   = (setError msgInvalidUrl s, tr0)) \/
  (wordlist s = [] /\
   handleRunLfi new_URL URL_toString network s tr0
   = (setError msgNoWordlist s, tr0)) \/
  (exists u,
     new_URL (targetUrlOf s) = Some u /\ wordlist s <> [] /\
     paramsToTestOf s u = [] /\
     handleRunLfi new_URL URL_toString network s tr0
     = (setCurrentProgress (0, 0)
          (setLfiLoading false
             (setError msgNoParameters
                (setLfiResults None (setLfiLoading true (setError "" s))))),
        tr0)) \/
  (exists u st' tr,
     new_URL (targetUrlOf s) = Some u /\ wordlist s <> [] /\
     paramsToTestOf s u <> [] /\
     scanParameters new_URL URL_toString network (targetUrlOf s)
       (baselineOf (network (List.length tr0) (targetUrlOf s)))
       (originalValuesOf u (paramsToTestOf s u)) (payloadListOf s)
       (List.length (paramsToTestOf s u) * List.length (payloadListOf s))
       (paramsToTestOf s u)
       (mkSweep [] [] 0 0 (setLfiResults None (setLfiLoading true (setError "" s))))
       (tr0 ++ [(targetUrlOf s, network (List.length tr0) (targetUrlOf s))])
     = (Some st', tr) /\
     handleRunLfi new_URL URL_toString network s tr0
     = (setLfiLoading false
          (setCurrentProgress (0, 0)
             (setLfiResults
                (Some (mkSummary (targetUrlOf s) (sw_perParameterSummary st')
                         (List.length (paramsToTestOf s u)
                          * List.length (payloadListOf s))
                         (List.length (List.filter vulnerable (sw_results st')))
                         (sw_results st')))
                (sw_popup st'))),
        tr)) \/
  (exists tr,
     handleRunLfi new_URL URL_toString network s tr0
     = (setLfiLoading false
          (setCurrentProgress (0, 0)
             (setError msgScanFailed
                (setLfiResults None (setLfiLoading true (setError "" s))))),
        tr)).
Proof.
  unfold handleRunLfi.
  destruct (nonEmpty (targetUrlOf s)) eqn:Et; cbn [negb]; [|left; auto].
  right.
  destruct (new_URL (targetUrlOf s)) as [u|] eqn:Eu; [|left; auto].
  right.
  destruct (wordlist s) as [|w ws] eqn:Ew; [left; auto|].
  right. cbn [List.length Nat.eqb]. cbv zeta.
  change (paramsToTestOf (setLfiResults None (setLfiLoading true (setError "" s))) u)
    with (paramsToTestOf s u).
  change (payloadListOf (setLfiResults None (setLfiLoading true (setError "" s))))
    with (payloadListOf s).
  destruct (Nat.eqb (List.length (paramsToTestOf s u)) 0) eqn:EP.
  { left. exists u. apply Nat.eqb_eq, length_zero_iff_nil in EP.
    repeat split; congruence. }
  right. unfold bind. rewrite fetchBaseline_run.
  assert (HP : paramsToTestOf s u <> []).
  { intros E. rewrite E in EP. discriminate. }
  match goal with
  | |- context [scanParameters ?a ?b ?c ?d ?e ?f ?g ?h ?i ?j ?k] =>
      destruct (scanParameters a b c d e f g h i j k) as [[st'|] tr] eqn:Escan
  end.
  - left. exists u, st', tr. unfold ret.
    split; [reflexivity|]. split; [congruence|]. split; [assumption|].
    split; [exact Escan|reflexivity].
  - right. exists tr. reflexivity.
Qed.

Lemma completed_scan (s : PopupState) (tr0 : Transcript)
    (summary : LfiScanSummary) :
  completed (fst (handleRunLfi new_URL URL_toString network s tr0)) summary ->
  exists u st',
    new_URL (targetUrlOf s) = Some u /\
    scanParameters new_URL URL_toString network (targetUrlOf s)
      (baselineOf (network (List.length tr0) (targetUrlOf s)))
      (originalValuesOf u (paramsToTestOf s u)) (payloadListOf s)
      (List.length (paramsToTestOf s u) * List.length (payloadListOf s))
      (paramsToTestOf s u)
      (mkSweep [] [] 0 0 (setLfiResults None (setLfiLoading true (setError "" s))))
      (tr0 ++ [(targetUrlOf s, network (List.length tr0) (targetUrlOf s))])
    = (Some st', snd (handleRunLfi new_URL URL_toString network s tr0)) /\
    summary
    = mkSummary (targetUrlOf s) (sw_perParameterSummary st')
        (List.length (paramsToTestOf s u) * List.length (payloadListOf s))
        (List.length (List.filter vulnerable (sw_results st')))
        (sw_results st').
Proof.
  intros [Herr Hsum].
  destruct (handleRunLfi_outcome s tr0)
    as [[_ E]|[[_ E]|[[_ E]|[(u & _ & _ & _ & E)|[(u & st' & tr & Eu & _ & _ & Escan & E)|(tr & E)]]]]];
    rewrite E in Herr, Hsum |- *; cbn in Herr, Hsum; try discriminate Herr.
  exists u, st'. injection Hsum as <-. auto.
Qed.

(** X11: a scan that ends with the missing-URL, invalid-URL or
    missing-wordlist message made no request and left the results, the
    loading flag and the progress of the popup as they were; and the message
    has its cause: the target is empty, it does not parse, or the wordlist is
    empty. *)
Theorem input_errors_touch_nothing :
  forall (s : PopupState) (tr0 : Transcript),
    error (fst (handleRunLfi new_URL URL_toString network s tr0)) = msgNoUrl \/
    error (fst (handleRunLfi new_URL URL_toString network s tr0)) = msgInvalidUrl \/
    error (fst (handleRunLfi new_URL URL_toString network s tr0)) = msgNoWordlist ->
    snd (handleRunLfi new_URL URL_toString network s tr0) = tr0 /\
    lfiResults (fst (handleRunLfi new_URL URL_toString network s tr0))
    = lfiResults s /\
    lfiLoading (fst (handleRunLfi new_URL URL_toString network s tr0))
    = lfiLoading s /\
    currentProgress (fst (handleRunLfi new_URL URL_toString network s tr0))
    = currentProgress s /\
    (nonEmpty (targetUrlOf s) = false \/ new_URL (targetUrlOf s) = None \/
     wordlist s = []).
Proof.
  intros s tr0 Herr.
  destruct (handleRunLfi_outcome s tr0)
    as [[C E]|[[C E]|[[C E]|[(u & _ & _ & _ & E)|[(u & st' & tr & _ & _ & _ & Escan & E)|(tr & E)]]]]];
    rewrite E in Herr |- *; cbn in Herr |- *; auto 10;
    try (destruct Herr as [H|[H|H]]; discriminate H).
  exfalso. apply scan_run in Escan as (_ & _ & _ & _ & _ & _ & _ & Eerr).
  cbn in Eerr. rewrite Eerr in Herr.
  destruct Herr as [H|[H|H]]; discriminate H.
Qed.

(** X12: [handleRunLfi] never changes the inputs of the popup (the two URL
    fields, the parameter field, the wordlist and the cap); and unless it
    stops at one of the three input checks it ends with the loading flag off
    and the progress reset to 0/0, with results or with an error message but
    never with both. *)
Theorem scan_keeps_inputs_and_settles :
  forall (s : PopupState) (tr0 : Transcript),
    sameInputs (fst (handleRunLfi new_URL URL_toString network s tr0)) s /\
    (error (fst (handleRunLfi new_URL URL_toString network s tr0)) <> msgNoUrl ->
     error (fst (handleRunLfi new_URL URL_toString network s tr0)) <> msgInvalidUrl ->
     error (fst (handleRunLfi new_URL URL_toString network s tr0)) <> msgNoWordlist ->
     lfiLoading (fst (handleRunLfi new_URL URL_toString network s tr0)) = false /\
     currentProgress (fst (handleRunLfi new_URL URL_toString network s tr0))
     = (0, 0) /\
     (lfiResults (fst (handleRunLfi new_URL URL_toString network s tr0)) = None \/
      error (fst (handleRunLfi new_URL URL_toString network s tr0)) = "")).
Proof.
  intros s tr0.
  destruct (handleRunLfi_outcome s tr0)
    as [[C E]|[[C E]|[[C E]|[(u & _ & _ & _ & E)|[(u & st' & tr & _ & _ & _ & Escan & E)|(tr & E)]]]]];
    rewrite E; cbn [fst snd];
    try (split; [repeat split|]; cbn; intros; try contradiction; auto; fail).
  pose proof (scan_per_parameter _ _ _ _ _ _ _ _ _ _
                (paramsToTestOf_NoDup s u) Escan)
    as (_ & _ & _ & _ & _ & _ & _ & H1 & H2 & H3 & H4 & H5 & H6 & H7 & H8).
  cbn in H1, H2, H3, H4, H5, H6, H7, H8.
  split; [repeat split; cbn; assumption|].
  intros _ _ _. cbn. auto.
Qed.

(** X13: the per-parameter summaries of a completed scan agree with its
    results: every summary is of a tested parameter, counts one test per
    payload, reports the value the parameter has in the target URL, and its
    vulnerable count is the number of vulnerable results of that parameter,
    at most its tests; the tests of the summaries add up to [totalTests]. *)
Theorem parameter_summaries_match_results :
  forall (s : PopupState) (tr0 : Transcript) (summary : LfiScanSummary) (u : URL),
    completed (fst (handleRunLfi new_URL URL_toString network s tr0)) summary ->
    new_URL (targetUrlOf s) = Some u ->
    Forall (fun ps =>
              In (name ps) (paramsToTestOf s u) /\
              p_totalTests ps = List.length (payloadListOf s) /\
              p_originalValue ps = URLSearchParams_get u (name ps) /\
              p_vulnerableCount ps
              = List.length (List.filter vulnerable
                               (resultsFor (name ps) (results summary))) /\
              p_vulnerableCount ps <= p_totalTests ps)
           (parametersTested summary) /\
    list_sum (List.map p_totalTests (parametersTested summary))
    = totalTests summary.
Proof.
  intros s tr0 summary u Hdone Hu.
  destruct (completed_scan s tr0 summary Hdone) as (u' & st' & Eu & Escan & ->).
  rewrite Hu in Eu. injection Eu as <-.
  cbn [parametersTested results totalTests].
  pose proof (scan_per_parameter _ _ _ _ _ _ _ _ _ _
                (paramsToTestOf_NoDup s u) Escan)
    as (news & newr & Esum & Eres & Enames & _ & Hall & _).
  cbn [sw_perParameterSummary sw_results app] in Esum, Eres.
  rewrite Esum, Eres. split.
  - rewrite List.Forall_forall in Hall. apply List.Forall_forall.
    intros ps Hps. destruct (Hall ps Hps) as (Ht & Ho & Hv & Hle).
    assert (Hin : In (name ps) (paramsToTestOf s u)).
    { rewrite <- Enames. apply in_map. assumption. }
    split; [assumption|]. split; [assumption|].
    split; [rewrite Ho; apply originalValueOf_tested; assumption|].
    split; assumption.
  - rewrite <- Enames, length_map.
    clear Esum Eres Enames. unfold list_sum.
    induction Hall as [|ps news (Ht & _) _ IH]; simpl.
    + reflexivity.
    + rewrite IH, Ht. reflexivity.
Qed.

(** X14: in a completed scan there are at most as many findings as
    results and at most as many results as tests:
    [vulnerableCount <= results.length <= totalTests]. *)
Theorem findings_results_tests_are_ordered :
  forall (s : PopupState) (tr0 : Transcript) (summary : LfiScanSummary),
    completed (fst (handleRunLfi new_URL URL_toString network s tr0)) summary ->
    vulnerableCount summary <= List.length (results summary) /\
    List.length (results summary) <= totalTests summary.
Proof.
  intros s tr0 summary Hdone.
  destruct (handleRunLfi_completed new_URL URL_toString network s tr0 _ _ summary
              (surjective_pairing _) Hdone)
    as (u & plan & _ & _ & _ & Eplan & _ & _ & Etotal & Eres & Ecount & _).
  split.
  - rewrite Ecount. apply List.filter_length_le.
  - rewrite Eres, recorded_length, Etotal.
    rewrite <- (plannedTests_length _ _ _ _ _ _ Eplan).
    etransitivity; [apply List.filter_length_le|].
    rewrite probeAnswers_length. reflexivity.
Qed.

(** X15: every result of a completed scan reports as original value what
    [searchParams.get] gives for its parameter in the target URL (null for a
    parameter the URL does not have). *)
Theorem results_report_original_values :
  forall (s : PopupState) (tr0 : Transcript) (summary : LfiScanSummary) (u : URL),
    completed (fst (handleRunLfi new_URL URL_toString network s tr0)) summary ->
    new_URL (targetUrlOf s) = Some u ->
    Forall (fun r => originalValue r = URLSearchParams_get u (parameter r))
           (results summary).
Proof.
  intros s tr0 summary u Hdone Hu.
  destruct (handleRunLfi_completed new_URL URL_toString network s tr0 _ _ summary
              (surjective_pairing _) Hdone)
    as (u' & plan & Eu & _ & _ & Eplan & _ & _ & _ & Eres & _).
  rewrite Hu in Eu. injection Eu as <-. rewrite Eres.
  apply List.Forall_forall. intros r Hr.
  pose proof (recorded_original_values
                (baselineOf (network (List.length tr0) (targetUrlOf s)))
                (originalValuesOf u (paramsToTestOf s u))
                (probeAnswers network (S (List.length tr0)) plan)) as Hov.
  pose proof (recorded_params
                (baselineOf (network (List.length tr0) (targetUrlOf s)))
                (originalValuesOf u (paramsToTestOf s u))
                (paramsToTestOf s u)
                (probeAnswers network (S (List.length tr0)) plan)
                (probeAnswers_params network _ _
                   (plannedTests_params _ _ _ _ _ _ Eplan) _)) as Hpar.
  rewrite List.Forall_forall in Hov, Hpar.
  rewrite (Hov r Hr). apply originalValueOf_tested. apply (Hpar r Hr).
Qed.

End OrchestratorFacts.

(** * Test URLs *)

Lemma includes_keys (u : URL) (p : string) :
  includes (URLSearchParams_keys u) p = existsb (hasName p) (searchParams u).
Proof.
  unfold includes, URLSearchParams_keys, hasName.
  induction (searchParams u) as [|kv l IH]; simpl; [reflexivity|].
  rewrite IH, (String.eqb_sym p (fst kv)). reflexivity.
Qed.

Lemma setFirst_others (p v : string) (l : list (string * string)) :
  List.filter (fun kv => negb (hasName p kv)) (setFirst p v l)
  = List.filter (fun kv => negb (hasName p kv)) l.
Proof.
  induction l as [|kv l IH]; simpl; [reflexivity|].
  destruct (hasName p kv) eqn:E; simpl.
  - unfold hasName at 1. cbn [fst]. unfold hasName in E. rewrite E. cbn [negb].
    rewrite filter_filter. apply filter_ext. intros kv'.
    apply andb_diag.
  - rewrite E. cbn [negb]. rewrite IH. reflexivity.
Qed.

Lemma setFirst_own (p v : string) (l : list (string * string)) :
  existsb (hasName p) l = true ->
  List.filter (hasName p) (setFirst p v l) = [(p, v)].
Proof.
  induction l as [|kv l IH]; simpl; [discriminate|].
  destruct (hasName p kv) eqn:E; simpl.
  - intros _. unfold hasName at 1. cbn [fst]. unfold hasName in E. rewrite E.
    apply String.eqb_eq in E. rewrite E. f_equal.
    rewrite filter_filter. clear IH.
    induction l as [|kv' l IHl]; simpl; [reflexivity|].
    rewrite andb_negb_l. exact IHl.
  - rewrite E. exact IH.
Qed.

Lemma mapThrowing_values {A B : Type} (f : A -> option B) (l : list A) :
  forall bs, mapThrowing f l = Some bs -> Forall2 (fun a b => f a = Some b) l bs.
Proof.
  induction l as [|a l IH]; intros bs; simpl.
  - intros [= <-]. constructor.
  - destruct (f a) as [b|] eqn:E; [|discriminate].
    destruct (mapThrowing f l) as [bs'|]; [|discriminate].
    intros [= <-]. constructor; auto.
Qed.

Section TestUrls.

Variable new_URL : string -> option URL.
Variable URL_toString : URL -> string.

(** X16: [buildLfiTestUrls] gives one test URL per payload, in the order
    of the payloads, and a test URL differs from the target in the tested
    parameter only: same front and fragment, the other query pairs unchanged
    and in place, exactly one pair for the parameter, which holds the
    payload; a parameter the target does not have is appended. *)
Theorem test_urls_change_one_parameter :
  forall (target param : string) (payloads : list string) (u : URL)
         (tus : list (string * string)),
    new_URL target = Some u ->
    new_URL (URL_toString u) = Some u ->
    buildLfiTestUrls new_URL URL_toString target param payloads = Some tus ->
    Forall2
      (fun p tu =>
         snd tu = p /\
         exists u',
           fst tu = URL_toString u' /\
           beforeQuery u' = beforeQuery u /\ hash u' = hash u /\
           List.filter (hasName param) (searchParams u') = [(param, p)] /\
           List.filter (fun kv => negb (hasName param kv)) (searchParams u')
           = List.filter (fun kv => negb (hasName param kv)) (searchParams u) /\
           (includes (URLSearchParams_keys u) param = false ->
            searchParams u' = searchParams u ++ [(param, p)]))
      payloads tus.
Proof.
  intros target param payloads u tus Hu Hre Hb.
  unfold buildLfiTestUrls in Hb. rewrite Hu in Hb.
  apply mapThrowing_values in Hb.
  eapply Forall2_impl; [exact Hb|].
  intros p tu E. cbv beta in E. unfold testUrlFor in E. rewrite Hre in E.
  injection E as <-. cbn [fst snd]. split; [reflexivity|].
  rewrite includes_keys.
  destruct (existsb (hasName param) (searchParams u)) eqn:Ehas.
  - unfold URLSearchParams_set. rewrite Ehas.
    eexists. split; [reflexivity|]. cbn [beforeQuery hash searchParams].
    split; [reflexivity|]. split; [reflexivity|].
    split; [apply setFirst_own; assumption|].
    split; [apply setFirst_others|]. discriminate.
  - unfold URLSearchParams_append.
    eexists. split; [reflexivity|]. cbn [beforeQuery hash searchParams].
    split; [reflexivity|]. split; [reflexivity|].
    assert (Hnone : List.filter (hasName param) (searchParams u) = []).
    { clear -Ehas. induction (searchParams u) as [|kv l IH]; simpl in *;
        [reflexivity|].
      apply orb_false_iff in Ehas as [E1 E2]. rewrite E1. auto. }
    assert (Hown : hasName param (param, p) = true)
      by (unfold hasName; apply String.eqb_refl).
    split; [|split; [|reflexivity]].
    + rewrite List.filter_app, Hnone. cbn [List.filter app].
      rewrite Hown. reflexivity.
    + rewrite List.filter_app. cbn [List.filter].
      rewrite Hown. cbn [negb]. apply app_nil_r.
Qed.

End TestUrls.

(** * What a result holds *)

Lemma substring_prefix_length (n : nat) (s : string) :
  String.length (String.substring 0 n s) = Nat.min n (String.length s).
Proof.
  revert s. induction n as [|n IH]; intros s.
  - destruct s; reflexivity.
  - destruct s as [|c s]; [reflexivity|]. simpl. rewrite IH. reflexivity.
Qed.

Lemma analyzeResponse_sample baseline ov (p u l : string) (res : Response) :
  String.length (sample (analyzeResponse baseline ov p u l res)) <= 300 /\
  (Z.of_nat (String.length (sample (analyzeResponse baseline ov p u l res)))
   <= contentLength (analyzeResponse baseline ov p u l res))%Z.
Proof.
  unfold analyzeResponse. destruct (analyzeLfiHeuristics _ _ _ _ _).
  cbn [sample contentLength]. rewrite substring_prefix_length. lia.
Qed.

Lemma firstn_beyond {A : Type} (n : nat) (l : list A) :
  firstn (Nat.min n (List.length l)) l = firstn n l.
Proof.
  destruct (Nat.le_ge_cases n (List.length l)) as [H|H].
  - rewrite Nat.min_l by assumption. reflexivity.
  - rewrite Nat.min_r, firstn_all, firstn_all2 by assumption. reflexivity.
Qed.

(** The cap, when it is not negative, keeps that many words from the front. *)
Lemma payloadListOf_cap (s : PopupState) :
  (0 <= payloadCap s)%Z ->
  payloadListOf s = firstn (Z.to_nat (payloadCap s)) (wordlist s).
Proof.
  intros Hcap. unfold payloadListOf, slice0.
  destruct (Z.ltb_spec (payloadCap s) 0) as [|_]; [lia|].
  rewrite Z2Nat.inj_min, Nat2Z.id. apply firstn_beyond.
Qed.

Section Sweep.

Variable new_URL : string -> option URL.
Variable URL_toString : URL -> string.
Variable network : nat -> string -> option Response.

Lemma buildLfiTestUrls_payloads (target p : string) (L : list string)
    (tus : list (string * string)) :
  buildLfiTestUrls new_URL URL_toString target p L = Some tus ->
  List.map snd tus = L.
Proof.
  unfold buildLfiTestUrls. destruct (new_URL target) as [u|]; [|discriminate].
  intros H. apply mapThrowing_values in H.
  induction H as [|l tu L tus E _ IH]; simpl; [reflexivity|].
  unfold testUrlFor in E. destruct (new_URL (URL_toString u)); [|discriminate].
  injection E as <-. simpl. f_equal. exact IH.
Qed.

Lemma plannedTests_payloads (target : string) (L P : list string) :
  forall plan,
    plannedTests new_URL URL_toString target L P = Some plan ->
    Forall (fun t => In (snd (snd t)) L) plan.
Proof.
  induction P as [|p P IH]; intros plan; simpl.
  - intros [= <-]. constructor.
  - destruct (buildLfiTestUrls _ _ _ _ _) as [tus|] eqn:Eb; [|discriminate].
    destruct (plannedTests _ _ _ _ _) as [more|]; [|discriminate].
    intros [= <-]. apply Forall_app. split; [|auto].
    apply List.Forall_forall. intros t Ht.
    apply in_map_iff in Ht as (tu & <- & Htu). cbn [snd].
    rewrite <- (buildLfiTestUrls_payloads _ _ _ _ Eb). apply in_map. assumption.
Qed.

(** X17: with a cap that is not negative, a completed scan makes at most
    cap tests per parameter, and every payload it reports is among the first
    cap entries of the wordlist. *)
Theorem cap_limits_the_sweep :
  forall (s : PopupState) (tr0 : Transcript) (summary : LfiScanSummary),
    completed (fst (handleRunLfi new_URL URL_toString network s tr0)) summary ->
    (0 <= payloadCap s)%Z ->
    totalTests summary
    <= List.length (parametersTested summary) * Z.to_nat (payloadCap s) /\
    Forall (fun r => In (payload r)
                        (firstn (Z.to_nat (payloadCap s)) (wordlist s)))
           (results summary).
Proof.
  intros s tr0 summary Hdone Hcap.
  destruct (handleRunLfi_completed new_URL URL_toString network s tr0 _ _ summary
              (surjective_pairing _) Hdone)
    as (u & plan & _ & _ & _ & Eplan & _ & _ & Etotal & Eres & _ & _ & Enames & _).
  rewrite <- (payloadListOf_cap s Hcap). split.
  - rewrite Etotal, <- Enames, length_map.
    apply Nat.mul_le_mono_l.
    rewrite (payloadListOf_cap s Hcap), length_firstn. lia.
  - apply List.Forall_forall. intros r Hr.
    assert (Hin : In (probeOf r)
                     (List.map probeOf (results summary))) by (apply in_map; assumption).
    rewrite Eres, recorded_answered in Hin.
    apply in_map_iff in Hin as (pa & Epa & Hpa).
    apply filter_In in Hpa as [Hpa _].
    apply (in_map fst) in Hpa. rewrite probeAnswers_plan in Hpa.
    pose proof (plannedTests_payloads _ _ _ _ Eplan) as Hall.
    rewrite List.Forall_forall in Hall. specialize (Hall _ Hpa).
    rewrite Epa in Hall. exact Hall.
Qed.

(** X18: the sample stored with a result is at most 300 code units long
    and never longer than the content length reported with it. *)
Theorem samples_are_short_prefixes :
  forall (s : PopupState) (tr0 : Transcript) (summary : LfiScanSummary),
    completed (fst (handleRunLfi new_URL URL_toString network s tr0)) summary ->
    Forall (fun r =>
              String.length (sample r) <= 300 /\
              (Z.of_nat (String.length (sample r)) <= contentLength r)%Z)
           (results summary).
Proof.
  intros s tr0 summary Hdone.
  destruct (handleRunLfi_completed new_URL URL_toString network s tr0 _ _ summary
              (surjective_pairing _) Hdone)
    as (u & plan & _ & _ & _ & _ & _ & _ & _ & Eres & _).
  rewrite Eres.
  eapply List.Forall_impl; [|apply recorded_from_responses].
  intros r (p & tu & l & res & ->). apply analyzeResponse_sample.
Qed.

End Sweep.

(** * Loading the wordlist *)

Lemma Array_from_Set_app (a b : list string) :
  Array_from_Set (a ++ b)
  = dedupFirstSeen a
    ++ List.filter (fun y => negb (includes (dedupFirstSeen a) y))
                   (dedupFirstSeen b).
Proof.
  unfold Array_from_Set. rewrite fold_left_app, Set_fill.
  fold (Array_from_Set a). rewrite Array_from_Set_dedup. reflexivity.
Qed.

Lemma catalog_list_is_deduplicated :
  dedupFirstSeen (lfiPayloads.buildLfiPayloadList None)
  = lfiPayloads.buildLfiPayloadList None.
Proof.
  unfold lfiPayloads.buildLfiPayloadList. rewrite Array_from_Set_dedup.
  apply dedupFirstSeen_fixed, dedupFirstSeen_NoDup.
Qed.

Lemma wordlistPayloads_lines (text e : string) :
  In e (wordlistPayloads text) <->
  nonEmpty e = true /\ startsWithHash e = false /\
  exists piece, In piece (splitLines (list_ascii_of_string text)) /\
                e = trim (string_of_list_ascii piece).
Proof.
  unfold wordlistPayloads. rewrite filter_In, in_map_iff. split.
  - intros [(piece & E & Hp) Hf].
    apply andb_true_iff in Hf as [Hf _]. apply andb_true_iff in Hf as [H1 H2].
    apply negb_true_iff in H2. eauto 6.
  - intros (H1 & H2 & piece & Hp & E). split; [eauto|].
    rewrite H1, H2. cbn [negb andb]. exact H1.
Qed.

(** X9: when the wordlist is fetched and read, the wordlist of the popup
    is the catalog followed by fetched payloads: it has no duplicate, its
    members are those of the catalog and of the fetched lines, and every
    fetched payload is a trimmed line of the text that is not empty and does
    not start with [#]. *)
Theorem wordlist_merge_keeps_catalog_first :
  forall (response : Response) (text : string),
    Response_ok response = true ->
    res_text response = Some text ->
    exists fetched : list string,
      loadWordlist (Some response)
      = lfiPayloads.buildLfiPayloadList None ++ fetched /\
      List.NoDup (loadWordlist (Some response)) /\
      (forall e, In e (loadWordlist (Some response)) <->
                 In e (lfiPayloads.buildLfiPayloadList None) \/
                 In e (wordlistPayloads text)) /\
      Forall (fun e => nonEmpty e = true /\ startsWithHash e = false /\
                       exists piece,
                         In piece (splitLines (list_ascii_of_string text)) /\
                         e = trim (string_of_list_ascii piece))
             fetched.
Proof.
  intros response text Hok Htext. unfold loadWordlist. rewrite Hok, Htext.
  eexists. split.
  { rewrite Array_from_Set_app, catalog_list_is_deduplicated. reflexivity. }
  split; [rewrite Array_from_Set_dedup; apply dedupFirstSeen_NoDup|].
  split.
  { intros e. rewrite Array_from_Set_dedup, dedupFirstSeen_In. apply in_app_iff. }
  apply List.Forall_forall. intros e He.
  apply filter_In in He as [He _]. apply (proj1 (dedupFirstSeen_In _ _)) in He.
  apply (proj1 (wordlistPayloads_lines text e)). exact He.
Qed.

Section LoadedWordlist.

Variable new_URL : string -> option URL.
Variable URL_toString : URL -> string.
Variable network : nat -> string -> option Response.

(** X10: the wordlist the mount effect sets has at least the 33 catalog
    payloads, and it is the catalog when the fetch fails, the response is not
    ok or its body cannot be read; so a scan started after the effect never
    ends with the missing-wordlist error. *)
Theorem loaded_wordlist_is_never_empty :
  forall (answer : option Response) (s : PopupState) (tr0 : Transcript),
    wordlist s = loadWordlist answer ->
    33 <= List.length (wordlist s) /\
    ((answer = None \/
      exists response,
        answer = Some response /\
        (Response_ok response = false \/ res_text response = None)) ->
     wordlist s = lfiPayloads.buildLfiPayloadList None) /\
    error (fst (handleRunLfi new_URL URL_toString network s tr0)) <> msgNoWordlist.
Proof.
  intros answer s tr0 Hw.
  assert (Hlen : 33 <= List.length (wordlist s)).
  { rewrite Hw. unfold loadWordlist.
    destruct answer as [response|]; [|vm_compute; lia].
    destruct (Response_ok response); [|vm_compute; lia].
    destruct (res_text response) as [text|]; [|vm_compute; lia].
    rewrite Array_from_Set_app, catalog_list_is_deduplicated, length_app.
    assert (E : List.length (lfiPayloads.buildLfiPayloadList None) = 33)
      by (vm_compute; reflexivity).
    rewrite E. lia. }
  split; [assumption|]. split.
  { rewrite Hw. unfold loadWordlist.
    intros [->|(response & -> & [Hok|Ht])]; [reflexivity| |].
    - rewrite Hok. reflexivity.
    - rewrite Ht. destruct (Response_ok response); reflexivity. }
  intros Herr.
  destruct (handleRunLfi_outcome new_URL URL_toString network s tr0)
    as [[C E]|[[C E]|[[C E]|[(u & _ & _ & _ & E)|[(u & st' & tr & _ & _ & _ & Escan & E)|(tr & E)]]]]];
    rewrite E in Herr; cbn in Herr; try discriminate Herr.
  - rewrite C in Hlen. cbn in Hlen. lia.
  - apply scan_run in Escan as (_ & _ & _ & _ & _ & _ & _ & Eerr).
    cbn in Eerr. rewrite Eerr in Herr. discriminate Herr.
Qed.

End LoadedWordlist.

(** * The CSV export *)

Lemma chars_of_chars (l : list ascii) :
  list_ascii_of_string (string_of_list_ascii l) = l.
Proof. apply list_ascii_of_string_of_list_ascii. Qed.

Lemma read_quoted (v : list ascii) :
  forall (field : list ascii) (record : list string)
         (records : list (list string)) (rest_ : list ascii),
    readCsv InQuoted field record records (doubleQuotes v ++ DQ :: rest_)
    = readCsv AfterQuote (field ++ v) record records rest_.
Proof.
  induction v as [|c v IH]; intros field record records rest_.
  - cbn. rewrite app_nil_r. reflexivity.
  - unfold doubleQuotes. cbn [flat_map]. fold (doubleQuotes v).
    destruct (Ascii.eqb c DQ) eqn:E.
    + apply Ascii.eqb_eq in E. subst c. cbn [app readCsv].
      rewrite Ascii.eqb_refl. cbn [readCsv]. rewrite ?Ascii.eqb_refl.
      rewrite IH, <- app_assoc. reflexivity.
    + cbn [app readCsv]. rewrite E, IH, <- app_assoc. reflexivity.
Qed.

Lemma chars_csvCell (value : string) :
  list_ascii_of_string (csvCell value)
  = DQ :: doubleQuotes (list_ascii_of_string value) ++ [DQ].
Proof.
  unfold csvCell. cbn [list_ascii_of_string].
  rewrite chars_append, chars_of_chars. reflexivity.
Qed.

Lemma read_cell (v : string) (record : list string)
    (records : list (list string)) (rest_ : list ascii) :
  readCsv AtFieldStart [] record records
          (list_ascii_of_string (csvCell v) ++ rest_)
  = readCsv AfterQuote (list_ascii_of_string v) record records rest_.
Proof.
  rewrite chars_csvCell. cbn [app readCsv].
  rewrite Ascii.eqb_refl, <- app_assoc. cbn [app].
  rewrite read_quoted. reflexivity.
Qed.

Lemma concat_cons (sep x y : string) (l : list string) :
  String.concat sep (x :: y :: l) = x +:+ sep +:+ String.concat sep (y :: l).
Proof. reflexivity. Qed.

Lemma last_cons (A : Type) (l : list A) (x d : A) :
  List.last (x :: l) d = List.last l x.
Proof.
  revert x d. induction l as [|y l IH]; intros x d; [reflexivity|].
  change (List.last (x :: y :: l) d) with (List.last (y :: l) d).
  rewrite !IH. reflexivity.
Qed.

Lemma concat_single (sep x : string) : String.concat sep [x] = x.
Proof. reflexivity. Qed.

(** The cells of a record, read one after the other. *)
Lemma read_cells (cells : list string) :
  forall (v : string) (record : list string) (records : list (list string))
         (rest_ : list ascii),
    readCsv AtFieldStart [] record records
      (list_ascii_of_string
         (String.concat "," (csvCell v :: List.map csvCell cells))
       ++ rest_)
    = readCsv AfterQuote
        (list_ascii_of_string (List.last cells v))
        (record ++ removelast (v :: cells)) records rest_.
Proof.
  induction cells as [|w cells IH]; intros v record records rest_.
  - cbn [List.map List.last removelast]. rewrite concat_single.
    rewrite read_cell, app_nil_r. reflexivity.
  - cbn [List.map]. rewrite concat_cons, !chars_append, <- !app_assoc.
    rewrite read_cell. cbn [app readCsv list_ascii_of_string].
    change (Ascii.eqb ","%char DQ) with false. cbv iota.
    rewrite Ascii.eqb_refl.
    rewrite IH, string_of_list_ascii_of_string, <- app_assoc, last_cons.
    reflexivity.
Qed.

Lemma removelast_last (A : Type) (l : list A) (d : A) :
  removelast (d :: l) ++ [List.last l d] = d :: l.
Proof.
  revert d. induction l as [|x l IH]; intros d; [reflexivity|].
  change (removelast (d :: x :: l)) with (d :: removelast (x :: l)).
  cbn [app]. f_equal.
  rewrite last_cons. apply IH.
Qed.

(** The rows of the file, read one after the other. *)
Lemma read_rows (rows : list (list string)) :
  forall (row : list string) (records : list (list string)),
    row <> [] -> List.Forall (fun r => r <> []) rows ->
    readCsv AtFieldStart [] [] records
      (list_ascii_of_string
         (String.concat (String LF "")
            (List.map (fun r => String.concat "," (List.map csvCell r))
                      (row :: rows))))
    = Some (records ++ row :: rows).
Proof.
  induction rows as [|next rows IH]; intros row records Hrow Hrows.
  - destruct row as [|v cells]; [congruence|].
    cbn [List.map]. rewrite concat_single.
    rewrite <- (app_nil_r (list_ascii_of_string _)), read_cells.
    cbn [readCsv app]. rewrite string_of_list_ascii_of_string.
    rewrite removelast_last. reflexivity.
  - destruct row as [|v cells]; [congruence|].
    cbn [List.map]. rewrite concat_cons, !chars_append.
    rewrite read_cells.
    cbn [app readCsv list_ascii_of_string].
    change (Ascii.eqb "010"%char DQ) with false.
    change (Ascii.eqb "010"%char COMMA) with false. cbv iota.
    rewrite Ascii.eqb_refl, string_of_list_ascii_of_string.
    cbn [app]. rewrite removelast_last.
    inversion Hrows as [|? ? Hn Hr]; subst.
    change (String.concat "," (List.map csvCell next)
            :: List.map (fun r => String.concat "," (List.map csvCell r)) rows)
      with (List.map (fun r => String.concat "," (List.map csvCell r))
                     (next :: rows)).
    rewrite (IH next _ Hn Hr), <- app_assoc. reflexivity.
Qed.

Lemma read_header (records : list (list string)) (rest_ : list ascii) :
  readCsv AtFieldStart [] [] records
    (list_ascii_of_string (String.concat "," csvHeaders) ++ LF :: rest_)
  = readCsv AtFieldStart [] [] (records ++ [csvHeaders]) rest_.
Proof. reflexivity. Qed.

(** X22: the CSV export reads back: a reader that follows RFC 4180 (a
    field between quotes, a doubled quote for a quote, commas between fields,
    a line feed between records) gets from the exported text the header row
    and then, for every result in order, its nine values as they were, also
    when a value holds quotes, commas or line feeds. *)
Theorem csv_export_reads_back :
  forall (summary : LfiScanSummary),
    exists text,
      exportLfiResultsCsv (Some summary) = Some text /\
      parseCsv text = Some (csvHeaders :: List.map csvRow (results summary)).
Proof.
  intros summary. eexists. split; [reflexivity|].
  unfold parseCsv.
  destruct (results summary) as [|r rs].
  - reflexivity.
  - cbn [List.map]. rewrite concat_cons, !chars_append.
    change (list_ascii_of_string (String LF "") ++ ?x) with (LF :: x).
    rewrite read_header.
    change (String.concat "," (List.map csvCell (csvRow r))
            :: List.map (fun row => String.concat "," (List.map csvCell row))
                 (List.map csvRow rs))
      with (List.map (fun row => String.concat "," (List.map csvCell row))
                 (csvRow r :: List.map csvRow rs)).
    rewrite read_rows; [reflexivity|discriminate|].
    apply List.Forall_forall. intros row Hrow.
    apply in_map_iff in Hrow as (x & <- & _). discriminate.
Qed.

(** * The parameter overview *)

(** The loop from a best candidate [b] that was found after [pre]. *)
Lemma keepBest_loop (rs : list LfiSingleResult) :
  forall (pre : list LfiSingleResult) (b : LfiSingleResult)
         (mid : list LfiSingleResult),
    List.Forall (fun r => bySeverity (detection r) < bySeverity (detection b)) pre ->
    List.Forall (fun r => bySeverity (detection r) <= bySeverity (detection b)) mid ->
    exists pre' b' post',
      fold_left keepBest rs (Some b) = Some b' /\
      pre ++ b :: mid ++ rs = pre' ++ b' :: post' /\
      List.Forall (fun r => bySeverity (detection r) < bySeverity (detection b'))
                  pre' /\
      List.Forall (fun r => bySeverity (detection r) <= bySeverity (detection b'))
                  post'.
Proof.
  induction rs as [|r rs IH]; intros pre b mid Hpre Hmid.
  - exists pre, b, mid. rewrite app_nil_r. auto.
  - cbn [fold_left keepBest].
    destruct (Nat.ltb (bySeverity (detection b)) (bySeverity (detection r))) eqn:E.
    + apply Nat.ltb_lt in E.
      destruct (IH (pre ++ b :: mid) r []) as (pre' & b' & post' & H1 & H2 & H3 & H4).
      * apply List.Forall_app. split.
        -- eapply List.Forall_impl; [|exact Hpre]. cbv beta. intros; lia.
        -- constructor; [assumption|].
           eapply List.Forall_impl; [|exact Hmid]. cbv beta. intros; lia.
      * constructor.
      * exists pre', b', post'. split; [assumption|]. split; [|auto].
        rewrite <- H2, <- app_assoc. reflexivity.
    + apply Nat.ltb_ge in E.
      destruct (IH pre b (mid ++ [r])) as (pre' & b' & post' & H1 & H2 & H3 & H4).
      * assumption.
      * apply List.Forall_app. split; [assumption|]. constructor; auto.
      * exists pre', b', post'. split; [assumption|]. split; [|auto].
        rewrite <- H2, <- app_assoc. reflexivity.
Qed.

Lemma strongest_cases (rs : list LfiSingleResult) :
  match strongest rs with
  | None => rs = []
  | Some b =>
      exists pre post,
        rs = pre ++ b :: post /\
        List.Forall (fun r => bySeverity (detection r) < bySeverity (detection b))
                    pre /\
        List.Forall (fun r => bySeverity (detection r) <= bySeverity (detection b))
                    post
  end.
Proof.
  unfold strongest. destruct rs as [|r rs]; [reflexivity|].
  cbn [fold_left keepBest].
  destruct (keepBest_loop rs [] r [] (List.Forall_nil _) (List.Forall_nil _))
    as (pre & b & post & -> & E & H1 & H2).
  exists pre, post. auto.
Qed.

(** X19: the loop of the parameter overview picks the first result of
    maximal severity: no result is picked exactly when there is none, and the
    picked one is strictly more severe than every result before it and at
    least as severe as every result after it. *)
Theorem strongest_is_the_first_maximum :
  forall (rs : list LfiSingleResult),
    (strongest rs = None <-> rs = []) /\
    (forall b, strongest rs = Some b ->
       exists pre post,
         rs = pre ++ b :: post /\
         List.Forall (fun r => bySeverity (detection r) < bySeverity (detection b))
                     pre /\
         List.Forall (fun r => bySeverity (detection r) <= bySeverity (detection b))
                     post).
Proof.
  intros rs. pose proof (strongest_cases rs) as H. split.
  - split.
    + intros E. rewrite E in H. assumption.
    + intros ->. reflexivity.
  - intros b E. rewrite E in H. assumption.
Qed.

Lemma strongest_severity (rs : list LfiSingleResult) (b : LfiSingleResult) :
  strongest rs = Some b ->
  In b rs /\
  forall r, In r rs -> bySeverity (detection r) <= bySeverity (detection b).
Proof.
  intros E. pose proof (strongest_cases rs) as H. rewrite E in H.
  destruct H as (pre & post & -> & Hpre & Hpost). split.
  - apply in_or_app. right. left. reflexivity.
  - intros r Hr. rewrite List.Forall_forall in Hpre, Hpost.
    apply in_app_or in Hr as [Hr|[<-|Hr]];
      [apply Nat.lt_le_incl, Hpre; assumption|lia|apply Hpost; assumption].
Qed.

Lemma resultsFor_In (p : string) (rs : list LfiSingleResult) (r : LfiSingleResult) :
  In r (resultsFor p rs) <-> In r rs /\ parameter r = p.
Proof.
  unfold resultsFor. rewrite List.filter_In, String.eqb_eq. reflexivity.
Qed.

Lemma overviewLabel_cases :
  forall (summary : LfiScanSummary) (p : ParameterSummary),
    (overviewLabel summary p = "Confirmed LFI" <->
     exists r, In r (results summary) /\ parameter r = name p /\
               detection r = CONFIRMED_LFI) /\
    (overviewLabel summary p = "Not Vulnerable" <->
     forall r, In r (results summary) -> parameter r = name p ->
               detection r = NOT_VULNERABLE) /\
    (overviewLabel summary p = "Confirmed LFI" \/
     overviewLabel summary p = "Possible LFI" \/
     overviewLabel summary p = "Not Vulnerable").
Proof.
  intros summary p. unfold overviewLabel. cbv zeta.
  pose proof (strongest_severity (resultsFor (name p) (results summary))) as Hb.
  pose proof (strongest_cases (resultsFor (name p) (results summary))) as Hn.
  destruct (strongest (resultsFor (name p) (results summary))) as [b|].
  - destruct (Hb b eq_refl) as [Hin Hmax]. clear Hn Hb.
    apply resultsFor_In in Hin as [Hin Hp].
    assert (Hmax' : forall r, In r (results summary) -> parameter r = name p ->
                              bySeverity (detection r) <= bySeverity (detection b)).
    { intros r Hr Hpr. apply Hmax, resultsFor_In. auto. }
    clear Hmax. cbn [statusLabel].
    split; [|split].
    + split.
      * intros E. exists b. destruct (detection b); try discriminate E. auto.
      * intros (r & Hr & Hpr & Hd). specialize (Hmax' r Hr Hpr).
        rewrite Hd in Hmax'. destruct (detection b); cbn in Hmax'; try lia.
        reflexivity.
    + split.
      * intros E r Hr Hpr. specialize (Hmax' r Hr Hpr).
        destruct (detection b); try discriminate E.
        destruct (detection r); cbn in Hmax'; try lia. reflexivity.
      * intros Hall. rewrite (Hall b Hin Hp). reflexivity.
    + destruct (detection b); auto.
  - cbn [statusLabel]. split; [|split].
    + split; [discriminate|].
      intros (r & Hr & Hpr & _).
      assert (Hin : In r (resultsFor (name p) (results summary)))
        by (apply resultsFor_In; auto).
      rewrite Hn in Hin. destruct Hin.
    + split; [|reflexivity].
      intros _ r Hr Hpr.
      assert (Hin : In r (resultsFor (name p) (results summary)))
        by (apply resultsFor_In; auto).
      rewrite Hn in Hin. destruct Hin.
    + auto.
Qed.

(** X20: the label of an overview row is Confirmed LFI exactly when some
    result of the parameter is CONFIRMED_LFI, Not Vulnerable exactly when
    every result of the parameter is NOT_VULNERABLE (also when it has none),
    and Possible LFI otherwise; a SUSPICIOUS result is shown as Possible
    LFI. *)
Theorem overview_label_reads_the_results :
  forall (summary : LfiScanSummary) (p : ParameterSummary),
    (overviewLabel summary p = "Confirmed LFI" <->
     exists r, In r (results summary) /\ parameter r = name p /\
               detection r = CONFIRMED_LFI) /\
    (overviewLabel summary p = "Not Vulnerable" <->
     forall r, In r (results summary) -> parameter r = name p ->
               detection r = NOT_VULNERABLE) /\
    (overviewLabel summary p = "Confirmed LFI" \/
     overviewLabel summary p = "Possible LFI" \/
     overviewLabel summary p = "Not Vulnerable").
Proof. exact overviewLabel_cases. Qed.

Lemma filter_none {A : Type} (f : A -> bool) (l : list A) :
  List.filter f l = [] <-> forall x, In x l -> f x = false.
Proof.
  induction l as [|a l IH]; cbn [List.filter].
  - split; [intros _ x []|reflexivity].
  - destruct (f a) eqn:E; split.
    + discriminate.
    + intros H. rewrite (H a (or_introl eq_refl)) in E. discriminate E.
    + intros H x [<-|Hx]; [assumption|]. apply IH; assumption.
    + intros H. apply IH. intros x Hx. apply H. right. assumption.
Qed.

Section OverviewFacts.

Variable new_URL : string -> option URL.
Variable URL_toString : URL -> string.
Variable network : nat -> string -> option Response.

(** X21: in a completed scan the overview label and the counter of a
    parameter agree: the row is labelled Not Vulnerable exactly when the
    vulnerable count of the parameter is 0. *)
Theorem overview_label_agrees_with_counter :
  forall (s : PopupState) (tr0 : Transcript) (summary : LfiScanSummary)
         (p : ParameterSummary),
    completed (fst (handleRunLfi new_URL URL_toString network s tr0)) summary ->
    In p (parametersTested summary) ->
    (overviewLabel summary p = "Not Vulnerable" <-> p_vulnerableCount p = 0).
Proof.
  intros s tr0 summary p Hdone Hp.
  assert (Hflag : List.Forall
                    (fun r => vulnerable r
                              = negb (Detection_eqb (detection r) NOT_VULNERABLE))
                    (results summary)).
  { destruct (handleRunLfi_completed new_URL URL_toString network s tr0 _ _ summary
                (surjective_pairing _) Hdone)
      as (u & plan & _ & _ & _ & _ & _ & _ & _ & Eres & _).
    rewrite Eres.
    eapply List.Forall_impl; [|apply recorded_from_responses].
    intros r (q & tu & l & res & Er).
    apply analyzeResponse_fields in Er as (_ & Ev & _). assumption. }
  assert (Hcount : p_vulnerableCount p
                   = List.length (List.filter vulnerable
                                    (resultsFor (name p) (results summary)))).
  { destruct (completed_scan new_URL URL_toString network s tr0 summary Hdone)
      as (u & st' & Eu & Escan & ->).
    cbn [parametersTested results] in *.
    pose proof (scan_per_parameter _ _ _ _ _ _ _ _ _ _ _ _ _
                  (paramsToTestOf_NoDup s u) Escan)
      as (news & newr & Esum & Eres & Enames & _ & Hall & _).
    cbn [sw_perParameterSummary sw_results app] in Esum, Eres.
    rewrite Esum in Hp. rewrite Eres.
    rewrite List.Forall_forall in Hall.
    destruct (Hall p Hp) as (_ & _ & Hv & _). assumption. }
  rewrite Hcount. rewrite List.Forall_forall in Hflag.
  destruct (overviewLabel_cases summary p) as (_ & Hnot & _).
  rewrite Hnot. split.
  - intros Hall.
    assert (E : List.filter vulnerable (resultsFor (name p) (results summary)) = []).
    { apply filter_none. intros r Hr. apply resultsFor_In in Hr as [Hr Hpr].
      rewrite (Hflag r Hr), (Hall r Hr Hpr). reflexivity. }
    rewrite E. reflexivity.
  - intros Hlen r Hr Hpr.
    apply List.length_zero_iff_nil in Hlen.
    assert (Hv : vulnerable r = false).
    { pose proof (proj1 (filter_none _ _) Hlen r) as H.
      apply H, resultsFor_In. auto. }
    rewrite (Hflag r Hr) in Hv. destruct (detection r); try discriminate Hv.
    reflexivity.
Qed.

End OverviewFacts.

(** * The endpoint scraper *)

Lemma splitOn_first (sep : ascii) (l : list ascii) :
  nth 0 (SimpleURL.splitOn sep l) [] = fst (SimpleURL.breakAt sep l).
Proof.
  induction l as [|c t IH]; [reflexivity|].
  cbn [SimpleURL.splitOn SimpleURL.breakAt].
  destruct (Ascii.eqb c sep); [reflexivity|].
  destruct (SimpleURL.breakAt sep t) as [b a]. cbn [fst] in *.
  destruct (SimpleURL.splitOn sep t) as [|h r]; cbn [nth] in *; congruence.
Qed.

Lemma splitOn_length (sep : ascii) (l : list ascii) :
  List.length (SimpleURL.splitOn sep l) = S (count_occ ascii_dec l sep).
Proof.
  induction l as [|c t IH]; [reflexivity|].
  cbn [SimpleURL.splitOn count_occ].
  destruct (Ascii.eqb c sep) eqn:E.
  - apply Ascii.eqb_eq in E. subst c.
    destruct (ascii_dec sep sep); [|congruence]. cbn [List.length]. congruence.
  - apply Ascii.eqb_neq in E.
    destruct (ascii_dec c sep); [congruence|].
    destruct (SimpleURL.splitOn sep t); cbn [List.length] in *; congruence.
Qed.

Lemma breakAt_spec (sep : ascii) (l : list ascii) :
  l = fst (SimpleURL.breakAt sep l)
      ++ match snd (SimpleURL.breakAt sep l) with
         | Some a => sep :: a
         | None => []
         end /\
  ~ In sep (fst (SimpleURL.breakAt sep l)).
Proof.
  induction l as [|c t IH]; [cbn; auto|].
  cbn [SimpleURL.breakAt].
  destruct (Ascii.eqb c sep) eqn:E.
  - apply Ascii.eqb_eq in E. subst c. cbn. auto.
  - apply Ascii.eqb_neq in E.
    destruct (SimpleURL.breakAt sep t) as [b a]. cbn [fst snd] in *.
    destruct IH as [IH1 IH2]. split.
    + cbn [app]. congruence.
    + intros [H|H]; [congruence|auto].
Qed.

Lemma breakAt_none (sep : ascii) (l : list ascii) :
  ~ In sep l -> SimpleURL.breakAt sep l = (l, None).
Proof.
  induction l as [|c t IH]; [reflexivity|].
  intros H. cbn [SimpleURL.breakAt].
  destruct (Ascii.eqb c sep) eqn:E.
  - apply Ascii.eqb_eq in E. subst c. exfalso. apply H. left. reflexivity.
  - rewrite IH; [reflexivity|]. intros Hin. apply H. right. assumption.
Qed.

Lemma String_split_first (s : string) (sep : ascii) :
  nth 0 (String_split s sep) ""
  = string_of_list_ascii (fst (SimpleURL.breakAt sep (list_ascii_of_string s))).
Proof.
  unfold String_split. change "" with (string_of_list_ascii []).
  rewrite map_nth, splitOn_first. reflexivity.
Qed.

Lemma normalizeUrl_chars (u : string) :
  list_ascii_of_string (scrapeWebsite.normalizeUrl u)
  = fst (SimpleURL.breakAt "#"
           (fst (SimpleURL.breakAt "?" (list_ascii_of_string u)))).
Proof.
  unfold scrapeWebsite.normalizeUrl.
  rewrite !String_split_first, !list_ascii_of_string_of_list_ascii.
  reflexivity.
Qed.

Lemma normalizeUrl_clean (u : string) (c : ascii) :
  In c (list_ascii_of_string (scrapeWebsite.normalizeUrl u)) ->
  c <> "?"%char /\ c <> "#"%char /\ In c (list_ascii_of_string u).
Proof.
  rewrite normalizeUrl_chars. intros Hc.
  destruct (breakAt_spec "?" (list_ascii_of_string u)) as [E1 N1].
  destruct (breakAt_spec "#" (fst (SimpleURL.breakAt "?" (list_ascii_of_string u))))
    as [E2 N2].
  assert (Hin : In c (fst (SimpleURL.breakAt "?" (list_ascii_of_string u)))).
  { rewrite E2. apply in_or_app. left. assumption. }
  split; [congruence|]. split; [congruence|].
  rewrite E1. apply in_or_app. left. assumption.
Qed.

Lemma normalizeUrl_fixed (u : string) :
  ~ In "?"%char (list_ascii_of_string u) ->
  ~ In "#"%char (list_ascii_of_string u) ->
  scrapeWebsite.normalizeUrl u = u.
Proof.
  intros Hq Hh.
  rewrite <- (string_of_list_ascii_of_string (scrapeWebsite.normalizeUrl u)).
  rewrite normalizeUrl_chars, (breakAt_none _ _ Hq). cbn [fst].
  rewrite (breakAt_none _ _ Hh). cbn [fst].
  apply string_of_list_ascii_of_string.
Qed.

Lemma chars_inj (a b : string) :
  list_ascii_of_string a = list_ascii_of_string b -> a = b.
Proof.
  intros E. rewrite <- (string_of_list_ascii_of_string a), E.
  apply string_of_list_ascii_of_string.
Qed.

(** X23: [normalizeUrl] cuts the URL at its first [?] or [#]: the result
    is a prefix of the URL, what is cut off is empty or starts with one of
    the two marks, the result holds neither mark, and normalizing twice is
    normalizing once. *)
Theorem normalizeUrl_cuts_at_first_mark :
  forall (u : string),
    (exists rest_,
       u = scrapeWebsite.normalizeUrl u +:+ rest_ /\
       (rest_ = "" \/
        exists r, rest_ = String "?" r \/ rest_ = String "#" r)) /\
    (forall c, In c (list_ascii_of_string (scrapeWebsite.normalizeUrl u)) ->
               c <> "?"%char /\ c <> "#"%char) /\
    scrapeWebsite.normalizeUrl (scrapeWebsite.normalizeUrl u)
    = scrapeWebsite.normalizeUrl u.
Proof.
  intros u. split; [|split].
  - destruct (breakAt_spec "?" (list_ascii_of_string u)) as [E1 _].
    destruct (breakAt_spec "#" (fst (SimpleURL.breakAt "?" (list_ascii_of_string u))))
      as [E2 _].
    rewrite <- normalizeUrl_chars in E2.
    set (tail_ := match snd (SimpleURL.breakAt "?" (list_ascii_of_string u)) with
                  | Some b => "?"%char :: b
                  | None => []
                  end) in *.
    destruct (snd (SimpleURL.breakAt "#"
                     (fst (SimpleURL.breakAt "?" (list_ascii_of_string u)))))
      as [a|] eqn:Ea.
    + exists (String "#" (string_of_list_ascii (a ++ tail_))).
      split; [|right; eexists; right; reflexivity].
      apply chars_inj. rewrite chars_append. cbn [list_ascii_of_string].
      rewrite list_ascii_of_string_of_list_ascii, E1, E2, <- app_assoc.
      reflexivity.
    + rewrite app_nil_r in E2.
      exists (string_of_list_ascii tail_). split.
      * apply chars_inj.
        rewrite chars_append, list_ascii_of_string_of_list_ascii, E1, E2.
        reflexivity.
      * subst tail_.
        destruct (snd (SimpleURL.breakAt "?" (list_ascii_of_string u))) as [b|].
        -- right. eexists. left. reflexivity.
        -- left. reflexivity.
  - intros c Hc. apply normalizeUrl_clean in Hc as (H1 & H2 & _). auto.
  - apply normalizeUrl_fixed; intros H; apply normalizeUrl_clean in H;
      destruct H as (H1 & H2 & _); congruence.
Qed.

Lemma chars_substring0 (n : nat) (s : string) :
  list_ascii_of_string (String.substring 0 n s)
  = firstn n (list_ascii_of_string s).
Proof.
  revert n. induction s as [|c s IH]; intros [|n]; cbn; try reflexivity.
  rewrite IH. reflexivity.
Qed.

Lemma getLineNumber_count (text : string) (index : nat) :
  scrapeWebsite.getLineNumber text index
  = S (count_occ ascii_dec (firstn index (list_ascii_of_string text)) LF).
Proof.
  unfold scrapeWebsite.getLineNumber, String_split.
  rewrite length_map, splitOn_length, chars_substring0. reflexivity.
Qed.

Lemma count_occ_firstn_le (l : list ascii) (c : ascii) (i j : nat) :
  i <= j ->
  count_occ ascii_dec (firstn i l) c <= count_occ ascii_dec (firstn j l) c.
Proof.
  revert i j. induction l as [|x l IH]; intros i j Hij.
  - rewrite !firstn_nil. reflexivity.
  - destruct i as [|i]; [cbn; lia|].
    destruct j as [|j]; [lia|].
    cbn [firstn count_occ]. specialize (IH i j ltac:(lia)).
    destruct (ascii_dec x c); lia.
Qed.

(** X24: [getLineNumber] is one more than the number of line feeds before
    the index: it is at least 1, it does not decrease with the index, and it
    is at most the number of lines of the text. *)
Theorem getLineNumber_counts_line_feeds :
  forall (text : string) (index : nat),
    scrapeWebsite.getLineNumber text index
    = 1 + count_occ ascii_dec (firstn index (list_ascii_of_string text)) LF /\
    (forall later, index <= later ->
       scrapeWebsite.getLineNumber text index
       <= scrapeWebsite.getLineNumber text later) /\
    scrapeWebsite.getLineNumber text index
    <= 1 + count_occ ascii_dec (list_ascii_of_string text) LF.
Proof.
  intros text index. split; [apply getLineNumber_count|]. split.
  - intros later Hle. rewrite !getLineNumber_count.
    apply le_n_S, count_occ_firstn_le. assumption.
  - rewrite getLineNumber_count. apply le_n_S.
    rewrite <- (firstn_all (list_ascii_of_string text)) at 2.
    destruct (Nat.le_gt_cases index (List.length (list_ascii_of_string text))).
    + apply count_occ_firstn_le. assumption.
    + rewrite firstn_all2 by lia. rewrite firstn_all. reflexivity.
Qed.

Ltac split_alternatives :=
  repeat match goal with
         | H : matches _ (Alt _ _) _ _ |- _ => inversion H; subst; clear H
         end.

Ltac pick_alternative :=
  solve [repeat first [assumption | apply M_Alt_l; assumption | apply M_Alt_r]].

(** The extensions of the static pattern are those the validity check
    excludes, in another order. *)
Lemma static_is_excluded (u : string) :
  RegExp_test scrapeWebsite.staticPattern u = true ->
  scrapeWebsite.isValidEndpoint u = false.
Proof.
  intros Ht. apply RegExp_test_spec in Ht as (before & after & q & Eu & Hm).
  unfold scrapeWebsite.isValidEndpoint. apply negb_false_iff, existsb_exists.
  exists (nth 4 scrapeWebsite.excludePatterns scrapeWebsite.staticPattern).
  split; [cbn; auto 10|].
  apply RegExp_test_spec. exists before, after, q. split; [assumption|].
  cbn [nth scrapeWebsite.excludePatterns scrapeWebsite.staticPattern
       source ignoreCase] in *.
  inversion Hm as [| | | | | | | |r1 r2 p1 q1 u1 Hdot Hrest| | | |]; subst; clear Hm.
  inversion Hrest as [| | | | | | | |r1 r2 p1 q2 u1 Halt Heol| | | |]; subst;
    clear Hrest.
  apply M_Seq with (q := q1); [assumption|].
  apply M_Seq with (q := q2); [|assumption].
  split_alternatives; pick_alternative.
Qed.

Lemma valid_is_not_static (u : string) :
  scrapeWebsite.isValidEndpoint u = true ->
  scrapeWebsite.categorizeEndpoint u <> scrapeWebsite.static.
Proof.
  intros Hv. unfold scrapeWebsite.categorizeEndpoint.
  destruct (_ || _); [discriminate|].
  destruct (RegExp_test scrapeWebsite.pagePattern u); [discriminate|].
  destruct (RegExp_test scrapeWebsite.staticPattern u) eqn:E; [|discriminate].
  apply static_is_excluded in E. congruence.
Qed.

Lemma trim_chars (s : string) (c : ascii) :
  In c (list_ascii_of_string (trim s)) -> In c (list_ascii_of_string s).
Proof.
  assert (Hdrop : forall l, In c (dropWhiteSpace l) -> In c l).
  { induction l as [|x l IH]; [auto|]. cbn [dropWhiteSpace].
    destruct (isWhiteSpace x); [right; auto|auto]. }
  unfold trim, trimEnd, trimStart.
  rewrite !list_ascii_of_string_of_list_ascii. intros H.
  apply in_rev, Hdrop, in_rev in H. apply Hdrop. assumption.
Qed.

(** X25: an endpoint the extraction loop pushes is never of type static,
    its URL holds no [?], no [#] and no quote, its source is the one given
    and its line is at least 1. *)
Theorem pushed_endpoint_is_clean_and_never_static :
  forall (text source_ match0 : string) (match1 : option string) (index : nat)
         (e : scrapeWebsite.EndpointInfo),
    scrapeWebsite.endpointOfMatch text source_ match0 match1 index = Some e ->
    scrapeWebsite.type e <> scrapeWebsite.static /\
    (forall c, In c (list_ascii_of_string (scrapeWebsite.url e)) ->
               c <> "?"%char /\ c <> "#"%char /\ c <> "'"%char /\ c <> DQ) /\
    scrapeWebsite.source e = source_ /\
    1 <= scrapeWebsite.line e.
Proof.
  intros text source_ match0 match1 index e.
  unfold scrapeWebsite.endpointOfMatch. cbv zeta.
  set (picked := match match1 with
                 | Some group => if nonEmpty group then group else match0
                 | None => match0
                 end).
  destruct (nonEmpty _ && scrapeWebsite.isValidEndpoint _) eqn:E; [|discriminate].
  apply andb_true_iff in E as [_ Hv]. intros [= <-].
  cbn [scrapeWebsite.type scrapeWebsite.url scrapeWebsite.source
       scrapeWebsite.line].
  split; [apply valid_is_not_static; assumption|].
  split; [|split; [reflexivity|rewrite getLineNumber_count; lia]].
  intros c Hc. apply normalizeUrl_clean in Hc as (H1 & H2 & Hin).
  split; [assumption|]. split; [assumption|].
  apply trim_chars in Hin. unfold scrapeWebsite.removeQuotes in Hin.
  rewrite list_ascii_of_string_of_list_ascii in Hin.
  apply List.filter_In in Hin as [_ Hq].
  unfold scrapeWebsite.isQuote in Hq.
  apply negb_true_iff, orb_false_iff in Hq as [Q1 Q2].
  apply Ascii.eqb_neq in Q1, Q2. auto.
Qed.

(** X26: a URL that passes [isValidEndpoint] is never categorized as
    static: the extensions of the static pattern are those the validity
    check excludes. *)
Theorem valid_endpoint_is_never_static :
  forall (u : string),
    scrapeWebsite.isValidEndpoint u = true ->
    scrapeWebsite.categorizeEndpoint u <> scrapeWebsite.static.
Proof. exact valid_is_not_static. Qed.

(** ** The duplicate filter *)

Lemma findIndex_first {A : Type} (f : A -> bool) (pre : list A) (x : A)
    (post : list A) :
  (forall y, In y pre -> f y = false) -> f x = true ->
  findIndex f (pre ++ x :: post) = Some (List.length pre).
Proof.
  intros Hpre Hx. induction pre as [|y pre IH]; cbn [app findIndex List.length].
  - rewrite Hx. reflexivity.
  - rewrite (Hpre y (or_introl eq_refl)), IH; [reflexivity|].
    intros z Hz. apply Hpre. right. assumption.
Qed.

Lemma findIndex_earlier {A : Type} (f : A -> bool) (pre post : list A) :
  (exists y, In y pre /\ f y = true) ->
  exists i, findIndex f (pre ++ post) = Some i /\ i < List.length pre.
Proof.
  intros (y & Hy & Hf). induction pre as [|z pre IH]; [destruct Hy|].
  cbn [app findIndex List.length]. destruct (f z) eqn:Ez.
  - exists 0. split; [reflexivity|lia].
  - destruct Hy as [->|Hy]; [congruence|].
    destruct (IH Hy) as (i & -> & Hi). exists (S i). split; [reflexivity|lia].
Qed.

(** The filter on the entries from index [length pre] on, where [pre] is what
    the array has before them. *)
Lemma unique_from (suf : list scrapeWebsite.EndpointInfo) :
  forall (pre : list scrapeWebsite.EndpointInfo) (seen : list string),
    (forall u, includes seen u = includes (List.map scrapeWebsite.url pre) u) ->
    List.map snd
      (List.filter
         (fun '(index, endpoint) =>
            match findIndex (fun e => String.eqb (scrapeWebsite.url e)
                                                 (scrapeWebsite.url endpoint))
                            (pre ++ suf) with
            | Some i => Nat.eqb index i
            | None => false
            end)
         (combine (seq (List.length pre) (List.length suf)) suf))
    = firstOfEachUrl seen suf.
Proof.
  induction suf as [|e suf IH]; intros pre seen Hseen; [reflexivity|].
  cbn [List.length seq combine List.filter firstOfEachUrl].
  rewrite Hseen.
  assert (Hnext : forall seen',
             (forall u, includes seen' u
                        = includes (List.map scrapeWebsite.url (pre ++ [e])) u) ->
             List.map snd
               (List.filter
                  (fun '(index, endpoint) =>
                     match findIndex (fun e0 => String.eqb (scrapeWebsite.url e0)
                                                           (scrapeWebsite.url endpoint))
                                     (pre ++ e :: suf) with
                     | Some i => Nat.eqb index i
                     | None => false
                     end)
                  (combine (seq (S (List.length pre)) (List.length suf)) suf))
             = firstOfEachUrl seen' suf).
  { intros seen' Hseen'. specialize (IH (pre ++ [e]) seen' Hseen').
    rewrite <- app_assoc, length_app in IH. cbn [app List.length] in IH.
    rewrite Nat.add_1_r in IH. exact IH. }
  destruct (includes (List.map scrapeWebsite.url pre) (scrapeWebsite.url e)) eqn:Ein.
  - destruct (findIndex_earlier
                (fun e0 => String.eqb (scrapeWebsite.url e0) (scrapeWebsite.url e))
                pre (e :: suf)) as (i & -> & Hi).
    { apply includes_In, in_map_iff in Ein as (y & Ey & Hy).
      exists y. split; [assumption|]. apply String.eqb_eq. assumption. }
    replace (Nat.eqb (List.length pre) i) with false
      by (symmetry; apply Nat.eqb_neq; lia).
    apply Hnext. intros u. rewrite Hseen, map_app, includes_app.
    cbn [List.map includes existsb].
    destruct (String.eqb u (scrapeWebsite.url e)) eqn:Eu.
    + apply String.eqb_eq in Eu. subst u. rewrite Ein. reflexivity.
    + rewrite !orb_false_r. reflexivity.
  - rewrite findIndex_first.
    + rewrite Nat.eqb_refl. cbn [List.map snd]. f_equal.
      apply Hnext. intros u. rewrite !map_app, !includes_app, Hseen.
      reflexivity.
    + intros y Hy. apply String.eqb_neq. intros Eurl.
      assert (In (scrapeWebsite.url e) (List.map scrapeWebsite.url pre))
        by (rewrite <- Eurl; apply in_map; assumption).
      apply includes_In in H. congruence.
    + apply String.eqb_refl.
Qed.

Lemma uniqueEndpoints_one_pass (l : list scrapeWebsite.EndpointInfo) :
  scrapeWebsite.uniqueEndpoints l = firstOfEachUrl [] l.
Proof. apply (unique_from l [] []). reflexivity. Qed.

Lemma firstOfEachUrl_urls (l : list scrapeWebsite.EndpointInfo) :
  forall (seen : list string),
    List.map scrapeWebsite.url (firstOfEachUrl seen l)
    = List.filter (fun u => negb (includes seen u))
                  (dedupFirstSeen (List.map scrapeWebsite.url l)).
Proof.
  induction l as [|e l IH]; intros seen; [reflexivity|].
  cbn [firstOfEachUrl List.map dedupFirstSeen List.filter].
  destruct (includes seen (scrapeWebsite.url e)) eqn:Ein; cbn [negb].
  - rewrite IH, filter_filter. apply List.filter_ext_in. intros u Hu.
    destruct (String.eqb (scrapeWebsite.url e) u) eqn:Eu; cbn [negb].
    + apply String.eqb_eq in Eu. subst u. rewrite Ein. reflexivity.
    + reflexivity.
  - cbn [List.map]. f_equal. rewrite IH, filter_filter.
    apply List.filter_ext. intros u. rewrite includes_app.
    cbn [includes existsb]. rewrite orb_false_r, negb_orb.
    rewrite (String.eqb_sym u). apply andb_comm.
Qed.

Lemma firstOfEachUrl_sublist (l : list scrapeWebsite.EndpointInfo) :
  forall (seen : list string), sublist (firstOfEachUrl seen l) l.
Proof.
  induction l as [|e l IH]; intros seen; cbn [firstOfEachUrl].
  - constructor.
  - destruct (includes seen (scrapeWebsite.url e)).
    + apply sublist_cons. apply IH.
    + apply sublist_skip. apply IH.
Qed.

(** X27: the duplicate filter of [scrapeWebsite] keeps, in order, the
    first endpoint of every URL: it is the one-pass filter that remembers the
    URLs seen, the URLs kept are the URLs of the input without repetition, no
    URL is kept twice, and what is kept is a sublist of the input. *)
Theorem uniqueEndpoints_keeps_first_of_each_url :
  forall (endpoints : list scrapeWebsite.EndpointInfo),
    scrapeWebsite.uniqueEndpoints endpoints = firstOfEachUrl [] endpoints /\
    List.map scrapeWebsite.url (scrapeWebsite.uniqueEndpoints endpoints)
    = dedupFirstSeen (List.map scrapeWebsite.url endpoints) /\
    List.NoDup (List.map scrapeWebsite.url (scrapeWebsite.uniqueEndpoints endpoints)) /\
    sublist (scrapeWebsite.uniqueEndpoints endpoints) endpoints.
Proof.
  intros endpoints. rewrite uniqueEndpoints_one_pass.
  assert (E : List.map scrapeWebsite.url (firstOfEachUrl [] endpoints)
              = dedupFirstSeen (List.map scrapeWebsite.url endpoints)).
  { rewrite firstOfEachUrl_urls.
    induction (dedupFirstSeen _) as [|a d IH]; [reflexivity|].
    change (List.filter (fun u => negb (includes [] u)) (a :: d))
      with (a :: List.filter (fun u => negb (includes [] u)) d).
    rewrite IH. reflexivity. }
  split; [reflexivity|]. split; [assumption|]. split.
  - rewrite E. apply dedupFirstSeen_NoDup.
  - apply firstOfEachUrl_sublist.
Qed.

(** * Messaging with retry *)

Section RetryFacts.

Variables T E : Type.
Variable messageOf : E -> string.
Variable sendToBackground : nat -> T + E.

(** X28: [sendToBackgroundWithRetry] makes at least one and at most
    [retries + 1] calls and returns the outcome of the last one; every call
    before the last failed with a context-invalidated error; and it gives up
    on such an error only when the retries are used up. *)
Theorem retry_stops_at_first_final_outcome :
  forall (retries calls : nat),
    let run_ := sendToBackgroundWithRetry T E messageOf sendToBackground
                  retries calls in
    calls < snd run_ /\ snd run_ <= calls + retries + 1 /\
    fst run_ = sendToBackground (snd run_ - 1) /\
    (forall i, calls <= i -> i < snd run_ - 1 ->
       exists e, sendToBackground i = inr e /\
                 RegExp_test contextInvalidated (messageOf e) = true) /\
    (forall e, fst run_ = inr e ->
       RegExp_test contextInvalidated (messageOf e) = true ->
       snd run_ = calls + retries + 1).
Proof.
  induction retries as [|k IH]; intros calls; cbv zeta.
  - cbn [sendToBackgroundWithRetry].
    destruct (sendToBackground calls) as [r|e] eqn:Ec; cbn [fst snd];
      rewrite Nat.sub_1_r; cbn [Nat.pred];
      (split; [lia|]); (split; [lia|]); (split; [symmetry; assumption|]);
      (split; [intros; lia|]); intros; try discriminate; lia.
  - cbn [sendToBackgroundWithRetry].
    destruct (sendToBackground calls) as [r|e] eqn:Ec.
    + cbn [fst snd]. rewrite Nat.sub_1_r. cbn [Nat.pred].
      split; [lia|]. split; [lia|]. split; [symmetry; assumption|].
      split; [intros; lia|]. intros; discriminate.
    + destruct (RegExp_test contextInvalidated (messageOf e)) eqn:Et.
      * specialize (IH (S calls)). cbv zeta in IH.
        destruct IH as (H1 & H2 & H3 & H4 & H5).
        split; [lia|]. split; [lia|]. split; [assumption|]. split.
        -- intros i Hlo Hhi. destruct (Nat.eq_dec i calls) as [->|Hne].
           ++ exists e. auto.
           ++ apply H4; lia.
        -- intros e' He' Ht'. rewrite (H5 e' He' Ht'). lia.
      * cbn [fst snd]. rewrite Nat.sub_1_r. cbn [Nat.pred].
        split; [lia|]. split; [lia|]. split; [symmetry; assumption|].
        split; [intros; lia|]. intros e' [= <-] Ht'. congruence.
Qed.

End RetryFacts.

(** * The further properties on the samples *)

(** A baseline of 100 code units: 131 is beyond the threshold, 130 is on
    it. *)
Lemma length_rule_at_the_threshold :
  (0 < 100 < 2 ^ 52)%Z /\ (0 <= 131 < 2 ^ 53)%Z /\ (0 <= 130 < 2 ^ 53)%Z /\
  fst (analyzeLfiHeuristics_binary64 [] None (Some 100%Z) 200 131) = POSSIBLE_LFI /\
  fst (analyzeLfiHeuristics_binary64 [] None (Some 100%Z) 200 130) <> POSSIBLE_LFI /\
  analyzeLfiHeuristics_binary64 [] None (Some 100%Z) 200 131
  = analyzeLfiHeuristics [] None (Some 100%Z) 200 131.
Proof.
  assert (Hbl : (0 < 100 < 2 ^ 52)%Z) by (split; reflexivity).
  assert (H131 : (0 <= 131 < 2 ^ 53)%Z) by (split; [discriminate|reflexivity]).
  assert (H130 : (0 <= 130 < 2 ^ 53)%Z) by (split; [discriminate|reflexivity]).
  split; [exact Hbl|]. split; [exact H131|]. split; [exact H130|].
  split; [|split].
  - apply (proj1 (proj2 (length_rule_is_an_integer_test None 100 200 131 Hbl H131))).
    reflexivity.
  - apply (proj2 (proj2 (length_rule_is_an_integer_test None 100 200 130 Hbl H130))).
    reflexivity.
  - apply (proj1 (length_rule_is_an_integer_test None 100 200 131 Hbl H131)).
Defined.

(** An empty baseline and a response of 5000 code units. *)
Lemma empty_baseline_sample :
  (0 <= 0)%Z /\
  analyzeLfiHeuristics [] (Some 200%Z) (Some 0%Z) 200 5000
  = (NOT_VULNERABLE, Low).
Proof.
  assert (Hle : (0 <= 0)%Z) by discriminate.
  split; [exact Hle|].
  exact (proj2 (empty_baseline_disables_length_rule (Some 200%Z) 0 200 5000 Hle)).
Defined.

(** The password file in capitals. *)
Lemma capitals_are_detected_alike :
  sameUpToCase "ROOT:X:0:0:ROOT:/ROOT:/BIN/BASH" "root:x:0:0:root:/root:/bin/bash" /\
  detectLfiIndicators "ROOT:X:0:0:ROOT:/ROOT:/BIN/BASH"
  = detectLfiIndicators "root:x:0:0:root:/root:/bin/bash".
Proof.
  assert (H : sameUpToCase "ROOT:X:0:0:ROOT:/ROOT:/BIN/BASH"
                           "root:x:0:0:root:/root:/bin/bash")
    by (vm_compute; reflexivity).
  split; [exact H|]. exact (detection_ignores_letter_case _ _ H).
Defined.

(** The password file inside a page. *)
Lemma password_file_inside_a_page :
  In "etc/passwd" (detectLfiIndicators "root:x:0:0:root") /\
  In "etc/passwd"
     (detectLfiIndicators ("<pre>" +:+ "root:x:0:0:root" +:+ "</pre>")).
Proof.
  assert (H : In "etc/passwd" (detectLfiIndicators "root:x:0:0:root"))
    by (vm_compute; left; reflexivity).
  split; [exact H|].
  apply (indicators_survive_embedding "<pre>" "root:x:0:0:root" "</pre>"
           "etc/passwd" H).
  discriminate.
Defined.

(** A hosts file with both loopback lines. *)
Lemma hosts_file_has_both_labels :
  In "Windows hosts" (detectLfiIndicators "127.0.0.1 localhost ::1") /\
  In "Unix hosts file" (detectLfiIndicators "127.0.0.1 localhost ::1").
Proof.
  assert (H : In "Windows hosts" (detectLfiIndicators "127.0.0.1 localhost ::1"))
    by (vm_compute; right; left; reflexivity).
  split; [exact H|]. exact (windows_hosts_implies_unix_hosts _ H).
Defined.

(** Two ways to select the same two categories. *)
Lemma two_selections_of_the_same_categories :
  lfiPayloads.buildLfiPayloadList
    (Some [lfiPayloads.os_linux; lfiPayloads.null_byte])
  = lfiPayloads.buildLfiPayloadList
      (Some [lfiPayloads.null_byte; lfiPayloads.os_linux; lfiPayloads.null_byte]).
Proof.
  apply selection_is_a_set. intros i. cbn [In]. tauto.
Defined.

(** The sample wordlist: two payloads after the catalog. *)
Lemma sample_wordlist_is_merged :
  Response_ok sampleWordlistResponse = true /\
  res_text sampleWordlistResponse = Some sampleWordlistText /\
  exists fetched : list string,
    loadWordlist (Some sampleWordlistResponse)
    = lfiPayloads.buildLfiPayloadList None ++ fetched /\
    List.NoDup (loadWordlist (Some sampleWordlistResponse)) /\
    (forall e, In e (loadWordlist (Some sampleWordlistResponse)) <->
               In e (lfiPayloads.buildLfiPayloadList None) \/
               In e (wordlistPayloads sampleWordlistText)) /\
    Forall (fun e => nonEmpty e = true /\ startsWithHash e = false /\
                     exists piece,
                       In piece (splitLines (list_ascii_of_string sampleWordlistText)) /\
                       e = trim (string_of_list_ascii piece))
           fetched.
Proof.
  split; [reflexivity|]. split; [reflexivity|].
  exact (wordlist_merge_keeps_catalog_first
           sampleWordlistResponse sampleWordlistText eq_refl eq_refl).
Defined.

(** A scan from the popup whose wordlist was loaded without a network. *)
Lemma offline_wordlist_is_the_catalog :
  wordlist offlineState = loadWordlist None /\
  33 <= List.length (wordlist offlineState) /\
  wordlist offlineState = lfiPayloads.buildLfiPayloadList None /\
  error (fst (handleRunLfi SimpleURL.parse SimpleURL.toString sampleNetwork
                           offlineState []))
  <> msgNoWordlist.
Proof.
  destruct (loaded_wordlist_is_never_empty
              SimpleURL.parse SimpleURL.toString sampleNetwork
              None offlineState [] eq_refl) as (H1 & H2 & H3).
  split; [reflexivity|]. split; [exact H1|]. split; [|exact H3].
  apply H2. left. reflexivity.
Defined.

(** A scan without a URL. *)
Lemma blank_scan_touches_nothing :
  error (fst (handleRunLfi SimpleURL.parse SimpleURL.toString sampleNetwork
                           blankState []))
  = msgNoUrl /\
  snd (handleRunLfi SimpleURL.parse SimpleURL.toString sampleNetwork blankState [])
  = [] /\
  lfiResults (fst (handleRunLfi SimpleURL.parse SimpleURL.toString sampleNetwork
                                blankState []))
  = lfiResults blankState.
Proof.
  assert (H : error (fst (handleRunLfi SimpleURL.parse SimpleURL.toString
                                       sampleNetwork blankState []))
              = msgNoUrl) by (vm_compute; reflexivity).
  destruct (input_errors_touch_nothing
              SimpleURL.parse SimpleURL.toString sampleNetwork blankState []
              (or_introl H)) as (H1 & H2 & _).
  split; [exact H|]. split; [exact H1|exact H2].
Defined.

Lemma sampleTarget_parsed : SimpleURL.parse (targetUrlOf sampleState) = Some sampleUrl.
Proof. vm_compute. reflexivity. Defined.

(** The parameter summary of the sample scan. *)
Lemma sample_scan_parameter_summaries :
  Forall (fun ps =>
            In (name ps) (paramsToTestOf sampleState sampleUrl) /\
            p_totalTests ps = List.length (payloadListOf sampleState) /\
            p_originalValue ps = URLSearchParams_get sampleUrl (name ps) /\
            p_vulnerableCount ps
            = List.length (List.filter vulnerable
                             (resultsFor (name ps) (results sampleSummary))) /\
            p_vulnerableCount ps <= p_totalTests ps)
         (parametersTested sampleSummary) /\
  list_sum (List.map p_totalTests (parametersTested sampleSummary))
  = totalTests sampleSummary.
Proof.
  exact (parameter_summaries_match_results
           SimpleURL.parse SimpleURL.toString sampleNetwork sampleState []
           sampleSummary sampleUrl sampleScan_completed sampleTarget_parsed).
Defined.

(** Two findings, two results, three tests. *)
Lemma sample_scan_counts_are_ordered :
  vulnerableCount sampleSummary <= List.length (results sampleSummary) /\
  List.length (results sampleSummary) <= totalTests sampleSummary.
Proof.
  exact (findings_results_tests_are_ordered
           SimpleURL.parse SimpleURL.toString sampleNetwork sampleState []
           sampleSummary sampleScan_completed).
Defined.

(** Every result of the sample scan reports [home.php]. *)
Lemma sample_scan_original_values :
  Forall (fun r => originalValue r = URLSearchParams_get sampleUrl (parameter r))
         (results sampleSummary).
Proof.
  exact (results_report_original_values
           SimpleURL.parse SimpleURL.toString sampleNetwork sampleState []
           sampleSummary sampleUrl sampleScan_completed sampleTarget_parsed).
Defined.

(** The test URLs of the sample target. *)
Lemma sample_test_urls :
  Forall2
    (fun p tu =>
       snd tu = p /\
       exists u',
         fst tu = SimpleURL.toString u' /\
         beforeQuery u' = beforeQuery sampleUrl /\ hash u' = hash sampleUrl /\
         List.filter (hasName "file") (searchParams u') = [("file", p)] /\
         List.filter (fun kv => negb (hasName "file" kv)) (searchParams u')
         = List.filter (fun kv => negb (hasName "file" kv)) (searchParams sampleUrl) /\
         (includes (URLSearchParams_keys sampleUrl) "file" = false ->
          searchParams u' = searchParams sampleUrl ++ [("file", p)]))
    sampleWords sampleTestUrls.
Proof.
  apply (test_urls_change_one_parameter
           SimpleURL.parse SimpleURL.toString sampleTarget "file" sampleWords
           sampleUrl sampleTestUrls);
    vm_compute; reflexivity.
Defined.

(** The cap of 500 and the three payloads of the sample scan. *)
Lemma sample_scan_respects_the_cap :
  totalTests sampleSummary
  <= List.length (parametersTested sampleSummary)
     * Z.to_nat (payloadCap sampleState) /\
  Forall (fun r => In (payload r)
                      (firstn (Z.to_nat (payloadCap sampleState))
                              (wordlist sampleState)))
         (results sampleSummary).
Proof.
  apply (cap_limits_the_sweep
           SimpleURL.parse SimpleURL.toString sampleNetwork sampleState []
           sampleSummary sampleScan_completed).
  discriminate.
Defined.

(** The samples of the sample scan. *)
Lemma sample_scan_samples :
  Forall (fun r =>
            String.length (sample r) <= 300 /\
            (Z.of_nat (String.length (sample r)) <= contentLength r)%Z)
         (results sampleSummary).
Proof.
  exact (samples_are_short_prefixes
           SimpleURL.parse SimpleURL.toString sampleNetwork sampleState []
           sampleSummary sampleScan_completed).
Defined.

(** The overview row of the sample scan: two findings, and a label other
    than Not Vulnerable. *)
Lemma sample_overview_row :
  In sampleParameter (parametersTested sampleSummary) /\
  p_vulnerableCount sampleParameter <> 0 /\
  overviewLabel sampleSummary sampleParameter <> "Not Vulnerable".
Proof.
  assert (Hin : In sampleParameter (parametersTested sampleSummary))
    by (left; reflexivity).
  split; [exact Hin|]. split; [discriminate|].
  intros E.
  apply (overview_label_agrees_with_counter
           SimpleURL.parse SimpleURL.toString sampleNetwork sampleState []
           sampleSummary sampleParameter sampleScan_completed Hin) in E.
  discriminate E.
Defined.

(** The endpoint pushed for a [fetch] call with a query string. *)
Lemma sample_endpoint_is_clean :
  scrapeWebsite.endpointOfMatch sampleScript "Inline Script"
    "fetch('/api/users?page=2'" (Some "/api/users?page=2") 8
  = Some sampleEndpoint /\
  scrapeWebsite.type sampleEndpoint <> scrapeWebsite.static /\
  (forall c, In c (list_ascii_of_string (scrapeWebsite.url sampleEndpoint)) ->
             c <> "?"%char /\ c <> "#"%char /\ c <> "'"%char /\ c <> DQ) /\
  scrapeWebsite.source sampleEndpoint = "Inline Script" /\
  1 <= scrapeWebsite.line sampleEndpoint.
Proof.
  assert (H : scrapeWebsite.endpointOfMatch sampleScript "Inline Script"
                "fetch('/api/users?page=2'" (Some "/api/users?page=2") 8
              = Some sampleEndpoint) by (vm_compute; reflexivity).
  split; [exact H|].
  exact (pushed_endpoint_is_clean_and_never_static _ _ _ _ _ _ H).
Defined.

(** A script path is no endpoint; an API path is one and is not static. *)
Lemma api_path_is_valid_and_not_static :
  scrapeWebsite.isValidEndpoint "/api/users" = true /\
  scrapeWebsite.categorizeEndpoint "/api/users" <> scrapeWebsite.static.
Proof.
  assert (H : scrapeWebsite.isValidEndpoint "/api/users" = true)
    by (vm_compute; reflexivity).
  split; [exact H|]. exact (valid_endpoint_is_never_static _ H).
Defined.
